(** * Maestro core: admission engine, ephemeral store, strategies

    A shallow embedding of the decision path of [@maestro/core]:

    - [JSMap]            the insertion-ordered [Map<K, V>] of the host language
    - [TTLMap]           [utils/ttl-map.ts]
    - strategies         [strategies/types.ts], [intent-based.ts],
                         [compose.ts]
    - pressure observer  [components/amigdala.ts]
    - distributor        [components/circuit-distributor.ts]
    - main routine       [components/main-routine.ts]
    - envelope resolver  [components/envelope-resolver.ts]

    Conventions.  [Date.now()] is an integer number of milliseconds, so
    instants and TTLs are [Z]; every operation that reads the clock takes
    the reading as its [now] argument, and one call of [admit] or
    [signalRetry] sees one reading.  Counters and budgets are integral
    and live in [Z].  Pressure metrics, penalties and penalty scores are
    IEEE-754 doubles ([PrimFloat]), as in the source. *)

From Stdlib Require Import ZArith List String Bool Lia.
From Stdlib Require Import Floats.
Import ListNotations.

Local Open Scope string_scope.
Local Open Scope Z_scope.

Set Implicit Arguments.
Set Warnings "-inexact-float".

(* ================================================================== *)
(** ** The host [Map]: unique keys, iteration in insertion order *)

Module JSMap.
Section Ops.
Variable E : Type.

Definition t := list (string * E).

Fixpoint get (k : string) (m : t) : option E :=
  match m with
  | [] => None
  | (k', e) :: m' => if String.eqb k k' then Some e else get k m'
  end.

Definition has (k : string) (m : t) : bool :=
  match get k m with Some _ => true | None => false end.

(** [Map.prototype.set]: an existing key keeps its position, a new key
    goes to the end of the iteration order. *)
Fixpoint set (k : string) (e : E) (m : t) : t :=
  match m with
  | [] => [(k, e)]
  | (k', e') :: m' =>
      if String.eqb k k' then (k', e) :: m' else (k', e') :: set k e m'
  end.

Fixpoint delete (k : string) (m : t) : t :=
  match m with
  | [] => []
  | (k', e') :: m' =>
      if String.eqb k k' then m' else (k', e') :: delete k m'
  end.

Definition size (m : t) : Z := Z.of_nat (List.length m).

Definition keys (m : t) : list string := map fst m.
End Ops.
End JSMap.

(* ================================================================== *)
(** ** [TTLMap<K, V>] with [K = string] *)

Module TTLMap.
Section Ops.
Variable V : Type.

Record TTLEntry := { value : V; expiresAt : Z }.

Record t := {
  store : JSMap.t TTLEntry;
  defaultTTL : Z;
  maxSize : Z
}.

Definition with_store (m : t) (s : JSMap.t TTLEntry) : t :=
  {| store := s; defaultTTL := defaultTTL m; maxSize := maxSize m |}.

(** [constructor(defaultTTL, maxSize = 10000)] *)
Definition new (ttl : Z) (max : option Z) : t :=
  {| store := [];
     defaultTTL := ttl;
     maxSize := match max with Some n => n | None => 10000 end |}.

(** [get(key)]: an expired entry is deleted and reported absent. *)
Definition get (now : Z) (key : string) (m : t) : option V * t :=
  match JSMap.get key (store m) with
  | None => (None, m)
  | Some entry =>
      if now >? expiresAt entry
      then (None, with_store m (JSMap.delete key (store m)))
      else (Some (value entry), m)
  end.

(** The loop of [evictOldest].  [oldestExpiry = None] stands for the
    initial [Infinity], which every finite expiry is below. *)
Fixpoint scanOldest (entries : JSMap.t TTLEntry)
         (oldestKey : option string) (oldestExpiry : option Z)
  : option string :=
  match entries with
  | [] => oldestKey
  | (key, entry) :: rest =>
      let below :=
        match oldestExpiry with
        | None => true
        | Some o => expiresAt entry <? o
        end in
      if below
      then scanOldest rest (Some key) (Some (expiresAt entry))
      else scanOldest rest oldestKey oldestExpiry
  end.

Definition oldestKey (m : t) : option string :=
  scanOldest (store m) None None.

Definition evictOldest (m : t) : t :=
  match oldestKey m with
  | Some k => with_store m (JSMap.delete k (store m))
  | None => m
  end.

(** The guard of [set]: [store.size >= maxSize && !store.has(key)]. *)
Definition mustEvict (key : string) (m : t) : bool :=
  (JSMap.size (store m) >=? maxSize m) && negb (JSMap.has key (store m)).

(** [set(key, value, ttl?)] *)
Definition set (now : Z) (key : string) (v : V) (ttl : option Z) (m : t) : t :=
  let m1 := if mustEvict key m then evictOldest m else m in
  with_store m1
    (JSMap.set key
       {| value := v;
          expiresAt := now + match ttl with Some x => x | None => defaultTTL m end |}
       (store m1)).

(** [has(key)] is [get(key) !== undefined]; it deletes lazily as [get]. *)
Definition has (now : Z) (key : string) (m : t) : bool * t :=
  match get now key m with
  | (Some _, m') => (true, m')
  | (None, m') => (false, m')
  end.

Definition delete (key : string) (m : t) : bool * t :=
  (JSMap.has key (store m), with_store m (JSMap.delete key (store m))).

Definition clear (m : t) : t := with_store m [].

Definition size (m : t) : Z := JSMap.size (store m).

(** [prune()]: every entry with [now > expiresAt] goes; the count of
    removed entries is returned. *)
Definition prune (now : Z) (m : t) : Z * t :=
  let kept := filter (fun ke => negb (now >? expiresAt (snd ke))) (store m) in
  (JSMap.size (store m) - JSMap.size kept, with_store m kept).

(** The public operations, as data, to speak of operation sequences. *)
Inductive Op :=
| OpGet (now : Z) (key : string)
| OpSet (now : Z) (key : string) (v : V) (ttl : option Z)
| OpHas (now : Z) (key : string)
| OpDelete (key : string)
| OpClear
| OpPrune (now : Z).

Definition apply (op : Op) (m : t) : t :=
  match op with
  | OpGet now key => snd (get now key m)
  | OpSet now key v ttl => set now key v ttl m
  | OpHas now key => snd (has now key m)
  | OpDelete key => snd (delete key m)
  | OpClear => clear m
  | OpPrune now => snd (prune now m)
  end.

Definition run (ops : list Op) (m : t) : t :=
  fold_left (fun acc op => apply op acc) ops m.
End Ops.
End TTLMap.

(* ================================================================== *)
(** ** Data model ([types/*.ts]) *)

Definition TaskID := string.

Record TaskMetadata := {
  intent : option string;
  priority : option Z;
  spawnBudget : Z;
  maxRetryDepth : Z;
  createdAt : Z
}.

Record Task := { id : TaskID; metadata : TaskMetadata }.

Record TaskRuntimeState := {
  spawnCount : Z;
  retryDepth : Z;
  lastAttemptAt : Z
}.

Record PressureSignal := {
  memory : float;
  queueDepth : float;
  spawnSaturation : float;
  timestamp : Z
}.

Inductive DropReason :=
| spawn_budget_exhausted
| retry_depth_exhausted
| pressure_exceeded.

Inductive Decision :=
| Dispatch
| Retry (currentDepth : Z)
| Escalate (currentDepth : Z)
| Drop (reason : DropReason) (currentDepth : Z).

(** [DecisionEnvelope].  [envId] is the source's [id]; [isFrozen] is what
    [Object.isFrozen] answers for the object. *)
Record DecisionEnvelope := {
  envId : string;
  allowDrop : bool;
  allowRetry : bool;
  allowCooperate : bool;
  allowHistoryInfluence : bool;
  eligibleCandidates : list string;
  isFrozen : bool
}.

(** [createDecisionEnvelope(config)]: copies the fields and freezes. *)
Definition createDecisionEnvelope (config : DecisionEnvelope) : DecisionEnvelope :=
  {| envId := envId config;
     allowDrop := allowDrop config;
     allowRetry := allowRetry config;
     allowCooperate := allowCooperate config;
     allowHistoryInfluence := allowHistoryInfluence config;
     eligibleCandidates := eligibleCandidates config;
     isFrozen := true |}.

(** [EnvelopeResolver.resolve(intent)]: an envelope, or [null]. *)
Definition EnvelopeResolver := string -> option DecisionEnvelope.

(** What a call [dispatcher(task, routeId)] hands to the outside. *)
Record DispatchCall := { callTask : Task; routeId : string }.

Record SubRoutine := { dispatch : Task -> DispatchCall }.

Record SubRoutineGroup := {
  primary : SubRoutine;
  cooperatives : list SubRoutine
}.

Record SubRoutineFactory := { create : string -> SubRoutine }.

(** [createSimpleFactory(dispatcher)]: the sub-routine made for [id]
    calls [dispatcher(task, id)]. *)
Definition createSimpleFactory : SubRoutineFactory :=
  {| create := fun id0 =>
       {| dispatch := fun task => {| callTask := task; routeId := id0 |} |} |}.

(* ================================================================== *)
(** ** Pressure observer ([components/amigdala.ts]) *)

Definition avgPressure (p : PressureSignal) : float :=
  ((memory p + queueDepth p + spawnSaturation p) / 3)%float.

(** The three getters of a [PressureSource], read at a clock instant. *)
Record PressureSource := {
  getMemoryPressure : Z -> float;
  getQueueDepthPressure : Z -> float;
  getSpawnSaturation : Z -> float
}.

Definition noopPressureSource : PressureSource :=
  {| getMemoryPressure := fun _ => 0%float;
     getQueueDepthPressure := fun _ => 0%float;
     getSpawnSaturation := fun _ => 0%float |}.

Definition clamp (value : float) : float :=
  if (value <? 0)%float then 0%float
  else if (1 <? value)%float then 1%float
  else value.

Record Amigdala := { snapshot : Z -> PressureSignal }.

Definition createAmigdala (config : option PressureSource) : Amigdala :=
  let source := match config with Some s => s | None => noopPressureSource end in
  {| snapshot := fun now =>
       {| memory := clamp (getMemoryPressure source now);
          queueDepth := clamp (getQueueDepthPressure source now);
          spawnSaturation := clamp (getSpawnSaturation source now);
          timestamp := now |} |}.

(* ================================================================== *)
(** ** Spawn strategies ([strategies/*.ts]) *)

Record StrategyContext := {
  ctxTask : Task;
  ctxEnvelope : DecisionEnvelope;
  ctxRuntimeState : TaskRuntimeState;
  ctxPressure : PressureSignal;
  ctxEligibleCandidates : list string;
  ctxFactory : SubRoutineFactory
}.

Definition StrategyResult := option SubRoutineGroup.

Record SpawnStrategy := {
  name : string;
  select : StrategyContext -> StrategyResult
}.

Record EligibilityResult := { eligible : bool; reason : option string }.

Definition checkEligibility (task : Task) (runtimeState : TaskRuntimeState)
  : EligibilityResult :=
  if spawnCount runtimeState >=? spawnBudget (metadata task)
  then {| eligible := false; reason := Some "spawn_budget_exhausted" |}
  else if retryDepth runtimeState >=? maxRetryDepth (metadata task)
  then {| eligible := false; reason := Some "retry_depth_exhausted" |}
  else {| eligible := true; reason := None |}.

(** [IntentBasedConfig].  [intentMap] lists the own properties of the
    record; keys inherited from the object prototype are not modelled. *)
Record IntentBasedConfig := {
  intentMap : option (list (string * string));
  defaultSubRoutineId : option string
}.

Fixpoint lookup (k : string) (m : list (string * string)) : option string :=
  match m with
  | [] => None
  | (k', v) :: m' => if String.eqb k k' then Some v else lookup k m'
  end.

Definition createIntentBasedStrategy (config : option IntentBasedConfig)
  : SpawnStrategy :=
  let intentMap0 :=
    match config with
    | Some c => match intentMap c with Some m => m | None => [] end
    | None => []
    end in
  let defaultId :=
    match config with
    | Some c => match defaultSubRoutineId c with Some d => d | None => "default" end
    | None => "default"
    end in
  {| name := "intent-based";
     select := fun context =>
       if negb (eligible (checkEligibility (ctxTask context) (ctxRuntimeState context)))
       then None
       else
         let subRoutineId :=
           match intent (metadata (ctxTask context)) with
           | Some i =>
               match lookup i intentMap0 with
               | Some r => r
               | None => defaultId
               end
           | None => defaultId
           end in
         Some {| primary := create (ctxFactory context) subRoutineId;
                 cooperatives := [] |} |}.

(** A host function either returns or throws an [Error(message)]. *)
Inductive Outcome (A : Type) :=
| Returned (a : A)
| Thrown (message : string).
Arguments Returned {A} a.
Arguments Thrown {A} message.

Fixpoint firstSelected (strategies : list SpawnStrategy) (context : StrategyContext)
  : StrategyResult :=
  match strategies with
  | [] => None
  | strategy :: rest =>
      match select strategy context with
      | Some result => Some result
      | None => firstSelected rest context
      end
  end.

(** [composeStrategies(strategies)].  The body has no [throw]: it
    returns for every list. *)
Definition composeStrategies (strategies : list SpawnStrategy)
  : Outcome SpawnStrategy :=
  Returned
    {| name := "composed(" ++ String.concat "," (map name strategies) ++ ")";
       select := firstSelected strategies |}.

(* ================================================================== *)
(** ** Circuit distributor ([components/circuit-distributor.ts]) *)

Record CircuitDistributor := {
  distSelect :
    Task -> DecisionEnvelope -> TaskRuntimeState -> PressureSignal
    -> option SubRoutineGroup
}.

Record CircuitDistributorConfig := {
  strategy : SpawnStrategy;
  factory : SubRoutineFactory
}.

Definition createCircuitDistributor (config : CircuitDistributorConfig)
  : CircuitDistributor :=
  {| distSelect := fun task envelope runtimeState pressure =>
       if (List.length (eligibleCandidates envelope) =? 0)%nat
       then None
       else
         select (strategy config)
           {| ctxTask := task;
              ctxEnvelope := envelope;
              ctxRuntimeState := runtimeState;
              ctxPressure := pressure;
              ctxEligibleCandidates := eligibleCandidates envelope;
              ctxFactory := factory config |} |}.

(* ================================================================== *)
(** ** Main routine ([components/main-routine.ts]) *)

Record DecisionEvent := {
  evTaskId : TaskID;
  evDecision : Decision;
  evEnvelopeId : string;
  evEnvelopeNarrowed : bool;
  evEligibleCandidatesCount : Z;
  evPressure : float * float * float;
  evTimestamp : Z
}.

(** [MainRoutineConfig].  [registryCount] is [registry.count()];
    [onDecision] tells whether a handler is installed (its calls are
    kept in the instance's [events]). *)
Record MainRoutineConfig := {
  amigdala : Amigdala;
  distributor : CircuitDistributor;
  registryCount : Z;
  envelopeResolver : EnvelopeResolver;
  defaultEnvelope : option DecisionEnvelope;
  stateTTL : option Z;
  maxTrackedTasks : option Z;
  onDecision : bool
}.

(** The closure returned by [createMainRoutine]: the checked
    configuration, the ephemeral store, and what has been sent out. *)
Record MainRoutine := {
  mrAmigdala : Amigdala;
  mrDistributor : CircuitDistributor;
  mrRegistryCount : Z;
  mrResolver : EnvelopeResolver;
  mrDefaultEnvelope : DecisionEnvelope;
  mrOnDecision : bool;
  runtimeStates : TTLMap.t TaskRuntimeState;
  dispatched : list DispatchCall;
  events : list DecisionEvent
}.

Definition createMainRoutine (config : MainRoutineConfig) : Outcome MainRoutine :=
  match defaultEnvelope config with
  | None => Thrown "defaultEnvelope is required (RFC-7)"
  | Some env =>
      if negb (isFrozen env)
      then Thrown "defaultEnvelope must be immutable (Object.freeze)"
      else
        Returned
          {| mrAmigdala := amigdala config;
             mrDistributor := distributor config;
             mrRegistryCount := registryCount config;
             mrResolver := envelopeResolver config;
             mrDefaultEnvelope := env;
             mrOnDecision := onDecision config;
             runtimeStates :=
               TTLMap.new TaskRuntimeState
                 (match stateTTL config with Some n => n | None => 5 * 60 * 1000 end)
                 (Some (match maxTrackedTasks config with Some n => n | None => 10000 end));
             dispatched := [];
             events := [] |}
  end.

Definition with_states (mr : MainRoutine) (s : TTLMap.t TaskRuntimeState)
  : MainRoutine :=
  {| mrAmigdala := mrAmigdala mr;
     mrDistributor := mrDistributor mr;
     mrRegistryCount := mrRegistryCount mr;
     mrResolver := mrResolver mr;
     mrDefaultEnvelope := mrDefaultEnvelope mr;
     mrOnDecision := mrOnDecision mr;
     runtimeStates := s;
     dispatched := dispatched mr;
     events := events mr |}.

Definition with_dispatched (mr : MainRoutine) (c : DispatchCall) : MainRoutine :=
  {| mrAmigdala := mrAmigdala mr;
     mrDistributor := mrDistributor mr;
     mrRegistryCount := mrRegistryCount mr;
     mrResolver := mrResolver mr;
     mrDefaultEnvelope := mrDefaultEnvelope mr;
     mrOnDecision := mrOnDecision mr;
     runtimeStates := runtimeStates mr;
     dispatched := dispatched mr ++ [c];
     events := events mr |}.

Definition getOrCreateRuntimeState (now : Z) (taskId : TaskID)
           (states : TTLMap.t TaskRuntimeState)
  : TaskRuntimeState * TTLMap.t TaskRuntimeState :=
  match TTLMap.get now taskId states with
  | (Some existing, states') => (existing, states')
  | (None, states') =>
      let initial := {| spawnCount := 0; retryDepth := 0; lastAttemptAt := now |} in
      (initial, TTLMap.set now taskId initial None states')
  end.

Definition emitDecision (now : Z) (taskId : TaskID) (decision : Decision)
           (envelope : DecisionEnvelope) (envelopeNarrowed : bool)
           (mr : MainRoutine) : MainRoutine :=
  if negb (mrOnDecision mr) then mr
  else
    let pressure := snapshot (mrAmigdala mr) now in
    {| mrAmigdala := mrAmigdala mr;
       mrDistributor := mrDistributor mr;
       mrRegistryCount := mrRegistryCount mr;
       mrResolver := mrResolver mr;
       mrDefaultEnvelope := mrDefaultEnvelope mr;
       mrOnDecision := mrOnDecision mr;
       runtimeStates := runtimeStates mr;
       dispatched := dispatched mr;
       events := events mr ++
         [{| evTaskId := taskId;
             evDecision := decision;
             evEnvelopeId := envId envelope;
             evEnvelopeNarrowed := envelopeNarrowed;
             evEligibleCandidatesCount :=
               Z.of_nat (List.length (eligibleCandidates envelope));
             evPressure :=
               (memory pressure, queueDepth pressure, spawnSaturation pressure);
             evTimestamp := now |}] |}.

(** Step 1 of [admit]: [resolve(intent ?? '') ?? defaultEnvelope]. *)
Definition resolveEnvelope (mr : MainRoutine) (task : Task) : DecisionEnvelope :=
  match mrResolver mr (match intent (metadata task) with Some i => i | None => "" end) with
  | Some env => env
  | None => mrDefaultEnvelope mr
  end.

(** [admit(task)].  The source's name is a reserved word of the proof
    language, hence [admitTask]. *)
Definition admitTask (now : Z) (task : Task) (mr : MainRoutine)
  : Decision * MainRoutine :=
  let envelope := resolveEnvelope mr task in
  let envelopeNarrowed :=
    Z.of_nat (List.length (eligibleCandidates envelope)) <? mrRegistryCount mr in
  let pressure := snapshot (mrAmigdala mr) now in
  let '(runtimeState, states1) :=
    getOrCreateRuntimeState now (id task) (runtimeStates mr) in
  let mr1 := with_states mr states1 in
  if spawnCount runtimeState >=? spawnBudget (metadata task) then
    let decision := Drop spawn_budget_exhausted (retryDepth runtimeState) in
    (decision, emitDecision now (id task) decision envelope envelopeNarrowed mr1)
  else if retryDepth runtimeState >=? maxRetryDepth (metadata task) then
    let decision := Drop retry_depth_exhausted (retryDepth runtimeState) in
    (decision, emitDecision now (id task) decision envelope envelopeNarrowed mr1)
  else
    let shouldDropForPressure :=
      allowDrop envelope && (0.9 <? avgPressure pressure)%float in
    if shouldDropForPressure then
      let decision := Drop pressure_exceeded (retryDepth runtimeState) in
      (decision, emitDecision now (id task) decision envelope envelopeNarrowed mr1)
    else
      match distSelect (mrDistributor mr) task envelope runtimeState pressure with
      | None =>
          let decision := Drop spawn_budget_exhausted (retryDepth runtimeState) in
          (decision, emitDecision now (id task) decision envelope envelopeNarrowed mr1)
      | Some group =>
          let mr2 := with_dispatched mr1 (dispatch (primary group) task) in
          let runtimeState' :=
            {| spawnCount := spawnCount runtimeState + 1;
               retryDepth := retryDepth runtimeState;
               lastAttemptAt := now |} in
          let mr3 :=
            with_states mr2
              (TTLMap.set now (id task) runtimeState' None (runtimeStates mr2)) in
          (Dispatch, emitDecision now (id task) Dispatch envelope envelopeNarrowed mr3)
      end.

Definition signalRetry (now : Z) (taskId : TaskID) (mr : MainRoutine) : MainRoutine :=
  match TTLMap.get now taskId (runtimeStates mr) with
  | (Some state, states') =>
      let state' :=
        {| spawnCount := spawnCount state;
           retryDepth := retryDepth state + 1;
           lastAttemptAt := lastAttemptAt state |} in
      with_states mr (TTLMap.set now taskId state' None states')
  | (None, states') => with_states mr states'
  end.

Definition getRuntimeState (now : Z) (taskId : TaskID) (mr : MainRoutine)
  : option TaskRuntimeState * MainRoutine :=
  let '(r, states') := TTLMap.get now taskId (runtimeStates mr) in
  (r, with_states mr states').

(* ================================================================== *)
(** ** Envelope resolver ([components/envelope-resolver.ts]) *)

Module Resolver.

(** What [frozen[intent] ?? null] evaluates to.  [frozen] is a plain
    object: besides the envelopes stored under their intents, the
    lookup finds the members that every object inherits from
    [Object.prototype] (functions, and the prototype itself under
    [__proto__]); none of them is nullish, so [?? null] keeps them. *)
Inductive Resolved :=
| Stored (envelope : DecisionEnvelope)
| Inherited (key : string)
| Null.

(** The property names of [Object.prototype]. *)
Definition objectPrototypeKeys : list string :=
  ["constructor"; "hasOwnProperty"; "isPrototypeOf"; "propertyIsEnumerable";
   "toLocaleString"; "toString"; "valueOf"; "__proto__";
   "__defineGetter__"; "__defineSetter__"; "__lookupGetter__"; "__lookupSetter__"].

(** [createEnvelopeResolver(map)]: [map] lists the own properties of
    the mapping object. *)
Definition createEnvelopeResolver (map : JSMap.t DecisionEnvelope)
  : string -> Resolved :=
  fun intent =>
    match JSMap.get intent map with
    | Some envelope => Stored envelope
    | None =>
        if existsb (String.eqb intent) objectPrototypeKeys
        then Inherited intent
        else Null
    end.

(** The resolver read at its declared type
    [resolve(intent): DecisionEnvelope | null]. *)
Definition declared (resolve : string -> Resolved) : EnvelopeResolver :=
  fun intent =>
    match resolve intent with
    | Stored envelope => Some envelope
    | Inherited _ | Null => None
    end.

(** [admit(task)] on the engine [mr] whose [envelopeResolver] is
    [resolve] (so that [mrResolver mr = declared resolve]).  The first
    thing [admit] computes after resolving is
    [envelope.eligibleCandidates.length]: on an inherited member
    [eligibleCandidates] is [undefined] and the host raises a
    [TypeError], before the clock, the pressure or the store is
    touched.  On an envelope or [null] the call runs as [admitTask]. *)
Definition admitResolved (resolve : string -> Resolved) (now : Z) (task : Task)
           (mr : MainRoutine) : Outcome (Decision * MainRoutine) :=
  match resolve (match intent (metadata task) with Some i => i | None => "" end) with
  | Inherited _ =>
      Thrown "TypeError: Cannot read properties of undefined (reading 'length')"
  | Stored _ | Null => Returned (admitTask now task mr)
  end.

End Resolver.

(* ================================================================== *)
(** ** Envelope helper, priority strategy, standard stack *)

(** [createPermissiveEnvelope(id, eligibleCandidates)] *)
Definition createPermissiveEnvelope (id0 : string) (eligible : list string)
  : DecisionEnvelope :=
  createDecisionEnvelope
    {| envId := id0;
       allowDrop := true;
       allowRetry := true;
       allowCooperate := true;
       allowHistoryInfluence := true;
       eligibleCandidates := eligible;
       isFrozen := false |}.

(** [PriorityThreshold]; priorities are integral (0..100 by contract). *)
Record PriorityThreshold := {
  minPriority : Z;
  maxPressure : float;
  subRoutineId : string
}.

Record PriorityBasedConfig := {
  thresholds : list PriorityThreshold;
  fallbackId : option string
}.

(** [Math.min(runtimeState.retryDepth * 5, 20)] *)
Definition retryBoost (runtimeState : TaskRuntimeState) : Z :=
  Z.min (retryDepth runtimeState * 5) 20.

(** [Math.min(taskPriority + retryBoost, 100)], with
    [taskPriority = task.metadata.priority ?? 50]. *)
Definition effectivePriority (task : Task) (runtimeState : TaskRuntimeState) : Z :=
  Z.min
    ((match priority (metadata task) with Some p => p | None => 50 end)
     + retryBoost runtimeState)
    100.

(** The loop over the thresholds: first match wins. *)
Fixpoint matchThreshold (ths : list PriorityThreshold) (effective : Z)
         (avg : float) : option string :=
  match ths with
  | [] => None
  | threshold :: rest =>
      if (effective >=? minPriority threshold)
         && (avg <=? maxPressure threshold)%float
      then Some (subRoutineId threshold)
      else matchThreshold rest effective avg
  end.

Definition createPriorityBasedStrategy (config : PriorityBasedConfig)
  : SpawnStrategy :=
  let fallback :=
    match fallbackId config with Some f => f | None => "default" end in
  {| name := "priority-based";
     select := fun context =>
       if negb (eligible (checkEligibility (ctxTask context) (ctxRuntimeState context)))
       then None
       else
         let chosen :=
           match matchThreshold (thresholds config)
                   (effectivePriority (ctxTask context) (ctxRuntimeState context))
                   (avgPressure (ctxPressure context)) with
           | Some matchedId => matchedId
           | None => fallback
           end in
         Some {| primary := create (ctxFactory context) chosen;
                 cooperatives := [] |} |}.

(** The argument of [createStandardStrategyStack]. *)
Record StandardStrategies := {
  stackIntent : SpawnStrategy;
  stackPriority : SpawnStrategy;
  stackPenalty : SpawnStrategy;
  stackRandom : SpawnStrategy
}.

Definition createStandardStrategyStack (strategies : StandardStrategies)
  : Outcome SpawnStrategy :=
  composeStrategies
    [stackIntent strategies; stackPriority strategies;
     stackPenalty strategies; stackRandom strategies].

(* ================================================================== *)
(** ** Performance penalties ([strategies/performance-penalty.ts]) *)

Module PenaltyTracker.

Record PenaltyRecord := { penalty : float; recordedAt : Z }.

(** The tracker's [Map<string, PenaltyRecord[]>]. *)
Definition t := JSMap.t (list PenaltyRecord).

Definition createPenaltyTracker : t := [].

Definition recordsOf (subRoutineId0 : string) (penalties : t) : list PenaltyRecord :=
  match JSMap.get subRoutineId0 penalties with Some r => r | None => [] end.

(** [penalize(subRoutineId, penalty)]: push, store, then keep the
    records newer than 30 minutes and store again. *)
Definition penalize (now : Z) (subRoutineId0 : string) (p : float) (penalties : t)
  : t :=
  let records :=
    (recordsOf subRoutineId0 penalties ++ [{| penalty := p; recordedAt := now |}])%list in
  let penalties1 := JSMap.set subRoutineId0 records penalties in
  let cutoff := now - 30 * 60 * 1000 in
  let filtered := filter (fun r => recordedAt r >? cutoff) records in
  JSMap.set subRoutineId0 filtered penalties1.

Record PerformancePenaltyConfig := {
  subRoutineIds : list string;
  penaltyThreshold : option float
}.

(** The loop of [select] over the configured ids.  [score id] is what
    [tracker.getEffectivePenalty(id)] answers during the call; the loop
    starts from [bestId = undefined] and [lowestPenalty = Infinity]. *)
Fixpoint scanLowest (score : string -> float) (ids : list string)
         (bestId : option string) (lowestPenalty : float)
  : option string * float :=
  match ids with
  | [] => (bestId, lowestPenalty)
  | id0 :: rest =>
      if (score id0 <? lowestPenalty)%float
      then scanLowest score rest (Some id0) (score id0)
      else scanLowest score rest bestId lowestPenalty
  end.

(** What [select] returns: [null], or the group
    [{ primary: factory.create(bestId), cooperatives: [] }], where
    [bestId] is still [undefined] ([None]) when no id passed the test
    of the loop. *)
Inductive PenaltySelection :=
| SelectNull
| SelectCreate (bestId : option string).

(** [select(context)] of the strategy. *)
Definition selectLowest (config : PerformancePenaltyConfig)
           (score : string -> float) (context : StrategyContext)
  : PenaltySelection :=
  let threshold :=
    match penaltyThreshold config with Some th => th | None => infinity end in
  if negb (eligible (checkEligibility (ctxTask context) (ctxRuntimeState context)))
  then SelectNull
  else
    let '(bestId, lowestPenalty) :=
      scanLowest score (subRoutineIds config) None infinity in
    if (threshold <? lowestPenalty)%float
    then SelectNull
    else SelectCreate bestId.

Record PenaltyStrategy := {
  penaltyName : string;
  penaltySelect : (string -> float) -> StrategyContext -> PenaltySelection
}.

(** [createPerformancePenaltyStrategy(config, tracker)].  The tracker
    enters [select] only through [getEffectivePenalty], which is the
    [score] argument of [penaltySelect]. *)
Definition createPerformancePenaltyStrategy (config : PerformancePenaltyConfig)
  : Outcome PenaltyStrategy :=
  match subRoutineIds config with
  | [] => Thrown "PerformancePenaltyStrategy requires at least one subRoutineId"
  | _ :: _ =>
      Returned {| penaltyName := "performance-penalty";
                  penaltySelect := selectLowest config |}
  end.

End PenaltyTracker.

(* ================================================================== *)
(** ** Candidate registry ([components/candidate-registry.ts]) *)

Module Registry.

Record CandidateProfile := {
  candidateId : string;
  capabilities : list string;
  candidateFactory : unit -> SubRoutine
}.

Record CandidateRegistry := {
  get : string -> option CandidateProfile;
  list : list string;
  count : Z
}.

(** [new Map(candidates.map((c) => [c.id, c]))] *)
Definition fill (candidates : Datatypes.list CandidateProfile)
           (m : JSMap.t CandidateProfile) : JSMap.t CandidateProfile :=
  fold_left (fun m0 c => JSMap.set (candidateId c) c m0) candidates m.

Definition mapOf (candidates : Datatypes.list CandidateProfile)
  : JSMap.t CandidateProfile :=
  fill candidates [].

Definition createCandidateRegistry (candidates : Datatypes.list CandidateProfile)
  : CandidateRegistry :=
  let map0 := mapOf candidates in
  {| get := fun id0 => JSMap.get id0 map0;
     list := JSMap.keys map0;
     count := JSMap.size map0 |}.

End Registry.

(* ================================================================== *)
(** ** Metrics collector ([observability/events.ts]) *)

Module Metrics.

(** An integer-valued host number as a double. *)
Definition ofZ (z : Z) : float :=
  if z <? 0 then (- of_uint63 (Uint63.of_Z (- z)))%float
  else of_uint63 (Uint63.of_Z z).

Record DropsByReason := {
  spawnBudgetExhausted : Z;
  retryDepthExhausted : Z;
  pressureExceeded : Z
}.

(** The closure of [createMetricsCollector]. *)
Record MetricsCollector := {
  admissionCount : Z;
  retryCount : Z;
  escalationCount : Z;
  dropCount : Z;
  dropsByReason : DropsByReason;
  startTime : Z
}.

Definition createMetricsCollector (now : Z) : MetricsCollector :=
  {| admissionCount := 0;
     retryCount := 0;
     escalationCount := 0;
     dropCount := 0;
     dropsByReason :=
       {| spawnBudgetExhausted := 0; retryDepthExhausted := 0; pressureExceeded := 0 |};
     startTime := now |}.

Definition recordAdmission (c : MetricsCollector) : MetricsCollector :=
  {| admissionCount := admissionCount c + 1;
     retryCount := retryCount c;
     escalationCount := escalationCount c;
     dropCount := dropCount c;
     dropsByReason := dropsByReason c;
     startTime := startTime c |}.

Definition recordRetry (c : MetricsCollector) : MetricsCollector :=
  {| admissionCount := admissionCount c;
     retryCount := retryCount c + 1;
     escalationCount := escalationCount c;
     dropCount := dropCount c;
     dropsByReason := dropsByReason c;
     startTime := startTime c |}.

Definition recordEscalation (c : MetricsCollector) : MetricsCollector :=
  {| admissionCount := admissionCount c;
     retryCount := retryCount c;
     escalationCount := escalationCount c + 1;
     dropCount := dropCount c;
     dropsByReason := dropsByReason c;
     startTime := startTime c |}.

(** [dropsByReason[reason]++] *)
Definition bumpReason (r : DropReason) (d : DropsByReason) : DropsByReason :=
  match r with
  | spawn_budget_exhausted =>
      {| spawnBudgetExhausted := spawnBudgetExhausted d + 1;
         retryDepthExhausted := retryDepthExhausted d;
         pressureExceeded := pressureExceeded d |}
  | retry_depth_exhausted =>
      {| spawnBudgetExhausted := spawnBudgetExhausted d;
         retryDepthExhausted := retryDepthExhausted d + 1;
         pressureExceeded := pressureExceeded d |}
  | pressure_exceeded =>
      {| spawnBudgetExhausted := spawnBudgetExhausted d;
         retryDepthExhausted := retryDepthExhausted d;
         pressureExceeded := pressureExceeded d + 1 |}
  end.

Definition recordDrop (r : DropReason) (c : MetricsCollector) : MetricsCollector :=
  {| admissionCount := admissionCount c;
     retryCount := retryCount c;
     escalationCount := escalationCount c;
     dropCount := dropCount c + 1;
     dropsByReason := bumpReason r (dropsByReason c);
     startTime := startTime c |}.

(** What [getMetrics()] returns.  The numbers are copied; the
    per-reason table is the collector's own object, so it is read
    through the collector ([snapshotDropsByReason]). *)
Record MetricsSnapshot := {
  snapAdmissionCount : Z;
  snapRetryCount : Z;
  snapEscalationCount : Z;
  snapDropCount : Z;
  admissionRate : float;
  dropRate : float
}.

(** [(Date.now() - startTime) / 1000 || 1] *)
Definition elapsedSeconds (now : Z) (c : MetricsCollector) : float :=
  let e := (ofZ (now - startTime c) / 1000)%float in
  if (e =? 0)%float || is_nan e then 1%float else e.

Definition getMetrics (now : Z) (c : MetricsCollector) : MetricsSnapshot :=
  {| snapAdmissionCount := admissionCount c;
     snapRetryCount := retryCount c;
     snapEscalationCount := escalationCount c;
     snapDropCount := dropCount c;
     admissionRate := (ofZ (admissionCount c) / elapsedSeconds now c)%float;
     dropRate := (ofZ (dropCount c) / elapsedSeconds now c)%float |}.

(** [snapshot.dropsByReason], read while the collector is in state [c]. *)
Definition snapshotDropsByReason (c : MetricsCollector) (s : MetricsSnapshot)
  : DropsByReason :=
  dropsByReason c.

Definition total (d : DropsByReason) : Z :=
  spawnBudgetExhausted d + retryDepthExhausted d + pressureExceeded d.

(** The recording calls, as data. *)
Inductive RecordCall :=
| RecAdmission
| RecRetry
| RecEscalation
| RecDrop (r : DropReason).

Definition record (c : MetricsCollector) (r : RecordCall) : MetricsCollector :=
  match r with
  | RecAdmission => recordAdmission c
  | RecRetry => recordRetry c
  | RecEscalation => recordEscalation c
  | RecDrop reason0 => recordDrop reason0 c
  end.

Definition isDropRecord (r : RecordCall) : bool :=
  match r with RecDrop _ => true | _ => false end.

End Metrics.

(* ================================================================== *)
(** ** Worker gate ([worker-gate/src/worker-gate.ts])

    The gate over a [MainRoutine] supplied in its configuration
    ([config.maestro]). *)

Module WorkerGate.

Record WorkerPoolSnapshot := { utilization : float; queueDepth : float }.

(** [pool.snapshot()] is read at a clock instant; what [pool.dispatch]
    received is kept in the gate's [poolDispatched]. *)
Record WorkerPool := { snapshot : Z -> WorkerPoolSnapshot }.

Record WorkerGate := {
  pool : WorkerPool;
  maestro : MainRoutine;
  admissionCount : Z;
  dropCount : Z;
  lastSnapshot : WorkerPoolSnapshot;
  poolDispatched : Datatypes.list Task
}.

Definition createWorkerGate (now : Z) (pool0 : WorkerPool) (maestro0 : MainRoutine)
  : WorkerGate :=
  {| pool := pool0;
     maestro := maestro0;
     admissionCount := 0;
     dropCount := 0;
     lastSnapshot := snapshot pool0 now;
     poolDispatched := [] |}.

Definition submit (now : Z) (task : Task) (g : WorkerGate) : Decision * WorkerGate :=
  let lastSnapshot1 := snapshot (pool g) now in
  let '(decision, maestro1) := admitTask now task (maestro g) in
  match decision with
  | Dispatch =>
      (decision,
       {| pool := pool g;
          maestro := maestro1;
          admissionCount := admissionCount g + 1;
          dropCount := dropCount g;
          lastSnapshot := lastSnapshot1;
          poolDispatched := poolDispatched g ++ [task] |})
  | Drop _ _ =>
      (decision,
       {| pool := pool g;
          maestro := maestro1;
          admissionCount := admissionCount g;
          dropCount := dropCount g + 1;
          lastSnapshot := lastSnapshot1;
          poolDispatched := poolDispatched g |})
  | _ =>
      (decision,
       {| pool := pool g;
          maestro := maestro1;
          admissionCount := admissionCount g;
          dropCount := dropCount g;
          lastSnapshot := lastSnapshot1;
          poolDispatched := poolDispatched g |})
  end.

Record WorkerGateMetrics := {
  metricsAdmissionCount : Z;
  metricsDropCount : Z;
  lastPressure : WorkerPoolSnapshot
}.

Definition metrics (g : WorkerGate) : WorkerGateMetrics :=
  {| metricsAdmissionCount := admissionCount g;
     metricsDropCount := dropCount g;
     lastPressure :=
       {| utilization := utilization (lastSnapshot g);
          queueDepth := queueDepth (lastSnapshot g) |} |}.

Fixpoint submitAll (calls : Datatypes.list (Z * Task)) (g : WorkerGate)
  : Datatypes.list Decision * WorkerGate :=
  match calls with
  | [] => ([], g)
  | (now, task) :: rest =>
      let '(d, g1) := submit now task g in
      let '(ds, g2) := submitAll rest g1 in
      (d :: ds, g2)
  end.

End WorkerGate.

(* ================================================================== *)
(** ** Vocabulary of the properties *)

Module TTLMapSpec.
Import TTLMap.
Section Spec.
Variable V : Type.

(** Keys are unique, as in every host [Map]. *)
Definition wf (m : TTLMap.t V) : Prop := NoDup (JSMap.keys (store m)).

Definition accOK (ok : option string) (oe : option Z) : Prop :=
  match ok, oe with
  | None, None | Some _, Some _ => True
  | _, _ => False
  end.

Definition inv (m : TTLMap.t V) : Prop := wf m /\ size m <= maxSize m.

(** The entry written by [set(key, v, ttl)] at instant [now]. *)
Definition written (m : TTLMap.t V) (now : Z) (v : V) (ttl : option Z)
  : TTLEntry V :=
  {| value := v;
     expiresAt := now + match ttl with Some x => x | None => defaultTTL m end |}.

End Spec.
End TTLMapSpec.

Module MainRoutineSpec.

(** The configuration part of an instance never changes. *)
Definition sameConfig (a b : MainRoutine) : Prop :=
  mrAmigdala b = mrAmigdala a /\
  mrDistributor b = mrDistributor a /\
  mrRegistryCount b = mrRegistryCount a /\
  mrResolver b = mrResolver a /\
  mrDefaultEnvelope b = mrDefaultEnvelope a /\
  mrOnDecision b = mrOnDecision a.

(** The decision of [admit] as a function of the runtime state it works
    on: steps 3 to 5 of the source, without the bookkeeping. *)
Definition verdict (mr : MainRoutine) (now : Z) (task : Task)
           (runtimeState : TaskRuntimeState) : Decision :=
  let envelope := resolveEnvelope mr task in
  let pressure := snapshot (mrAmigdala mr) now in
  if spawnCount runtimeState >=? spawnBudget (metadata task) then
    Drop spawn_budget_exhausted (retryDepth runtimeState)
  else if retryDepth runtimeState >=? maxRetryDepth (metadata task) then
    Drop retry_depth_exhausted (retryDepth runtimeState)
  else if allowDrop envelope && (0.9 <? avgPressure pressure)%float then
    Drop pressure_exceeded (retryDepth runtimeState)
  else
    match distSelect (mrDistributor mr) task envelope runtimeState pressure with
    | None => Drop spawn_budget_exhausted (retryDepth runtimeState)
    | Some _ => Dispatch
    end.

Definition isDispatch (d : Decision) : bool :=
  match d with Dispatch => true | _ => false end.

(** Step 7 of [admit] on the state object. *)
Definition bump (now : Z) (rs : TaskRuntimeState) : TaskRuntimeState :=
  {| spawnCount := spawnCount rs + 1;
     retryDepth := retryDepth rs;
     lastAttemptAt := now |}.

(** The task's entry as the store holds it, expired or not. *)
Definition rawEntry (tid : TaskID) (mr : MainRoutine)
  : option (TTLMap.TTLEntry TaskRuntimeState) :=
  JSMap.get tid (TTLMap.store (runtimeStates mr)).

Definition storedState (tid : TaskID) (mr : MainRoutine) : option TaskRuntimeState :=
  option_map (@TTLMap.value _) (rawEntry tid mr).

Definition ttlOf (mr : MainRoutine) : Z := TTLMap.defaultTTL (runtimeStates mr).

Definition initialState (now : Z) : TaskRuntimeState :=
  {| spawnCount := 0; retryDepth := 0; lastAttemptAt := now |}.

Definition entry (rs : TaskRuntimeState) (e : Z) : TTLMap.TTLEntry TaskRuntimeState :=
  {| TTLMap.value := rs; TTLMap.expiresAt := e |}.

(** [admit(task)] called once at each of [times], in order. *)
Fixpoint admitAll (times : list Z) (task : Task) (mr : MainRoutine)
  : list Decision * MainRoutine :=
  match times with
  | [] => ([], mr)
  | now :: rest =>
      let '(d, mr1) := admitTask now task mr in
      let '(ds, mr2) := admitAll rest task mr1 in
      (d :: ds, mr2)
  end.

Definition countDispatch (ds : list Decision) : Z :=
  Z.of_nat (List.length (filter isDispatch ds)).

(** Every admission at one of [times] that finds spawn budget and retry
    depth remaining is dispatched: no pressure drop, and the distributor
    selects. *)
Definition alwaysDispatchable (mr : MainRoutine) (task : Task) (times : list Z) : Prop :=
  forall t rs,
    In t times ->
    spawnCount rs < spawnBudget (metadata task) ->
    retryDepth rs < maxRetryDepth (metadata task) ->
    verdict mr t task rs = Dispatch.

(** What [get] answers for the task at instant [now]. *)
Definition liveState (now : Z) (tid : TaskID) (mr : MainRoutine)
  : option TaskRuntimeState :=
  fst (TTLMap.get now tid (runtimeStates mr)).

(** The state object after [state.retryDepth++]. *)
Definition retried (rs : TaskRuntimeState) : TaskRuntimeState :=
  {| spawnCount := spawnCount rs;
     retryDepth := retryDepth rs + 1;
     lastAttemptAt := lastAttemptAt rs |}.









End MainRoutineSpec.

(** Concrete set-ups in the style of the test suite. *)
Module Demo.

Definition envelopeOf (eligible : list string) (drop : bool) : DecisionEnvelope :=
  createDecisionEnvelope
    {| envId := "test.default.v1";
       allowDrop := drop;
       allowRetry := true;
       allowCooperate := true;
       allowHistoryInfluence := true;
       eligibleCandidates := eligible;
       isFrozen := false |}.

Definition constantSource (x : float) : PressureSource :=
  {| getMemoryPressure := fun _ => x;
     getQueueDepthPressure := fun _ => x;
     getSpawnSaturation := fun _ => x |}.

Definition intentStrategy : SpawnStrategy :=
  createIntentBasedStrategy
    (Some {| intentMap := Some [("fast", "fast"); ("slow", "slow")];
             defaultSubRoutineId := Some "default" |}).

Definition distributorOf (s : SpawnStrategy) : CircuitDistributor :=
  createCircuitDistributor {| strategy := s; factory := createSimpleFactory |}.

Definition configOf (eligible : list string) (drop : bool) (pressure : float)
           (maxTracked : option Z) : MainRoutineConfig :=
  {| amigdala := createAmigdala (Some (constantSource pressure));
     distributor := distributorOf intentStrategy;
     registryCount := 3;
     envelopeResolver := fun _ => None;
     defaultEnvelope := Some (envelopeOf eligible drop);
     stateTTL := None;
     maxTrackedTasks := maxTracked;
     onDecision := true |}.

Definition taskOf (tid : TaskID) (i : option string) (budget depth : Z) : Task :=
  {| id := tid;
     metadata := {| intent := i; priority := None; spawnBudget := budget;
                    maxRetryDepth := depth; createdAt := 0 |} |}.

(** The instance [createMainRoutine] returns for [configOf], written out. *)
Definition engineOf (eligible : list string) (drop : bool) (pressure : float)
           (maxTracked : option Z) : MainRoutine :=
  {| mrAmigdala := createAmigdala (Some (constantSource pressure));
     mrDistributor := distributorOf intentStrategy;
     mrRegistryCount := 3;
     mrResolver := fun _ => None;
     mrDefaultEnvelope := envelopeOf eligible drop;
     mrOnDecision := true;
     runtimeStates :=
       TTLMap.new TaskRuntimeState 300000
         (Some (match maxTracked with Some n => n | None => 10000 end));
     dispatched := [];
     events := [] |}.

End Demo.


(* ================================================================== *)
(** ** Vocabulary of the further properties *)

Module MoreSpec.

(** The entry is live at [now]: what [get] tests, negated. *)
Definition liveAt (V : Type) (now : Z) (ke : string * TTLMap.TTLEntry V) : bool :=
  negb (now >? TTLMap.expiresAt (snd ke)).

(** The calls of the [MainRoutine] interface, as data. *)
Inductive EngineCall :=
| DoAdmit (now : Z) (task : Task)
| DoSignalRetry (now : Z) (taskId : TaskID)
| DoGetRuntimeState (now : Z) (taskId : TaskID).

Definition engineStep (c : EngineCall) (mr : MainRoutine) : MainRoutine :=
  match c with
  | DoAdmit now task => snd (admitTask now task mr)
  | DoSignalRetry now taskId => signalRetry now taskId mr
  | DoGetRuntimeState now taskId => snd (getRuntimeState now taskId mr)
  end.

Definition runEngine (cs : list EngineCall) (mr : MainRoutine) : MainRoutine :=
  fold_left (fun acc c => engineStep c acc) cs mr.

(** The decisions returned along a run, in order. *)
Fixpoint engineDecisions (cs : list EngineCall) (mr : MainRoutine) : list Decision :=
  match cs with
  | [] => []
  | DoAdmit now task :: rest =>
      fst (admitTask now task mr) :: engineDecisions rest (snd (admitTask now task mr))
  | c :: rest => engineDecisions rest (engineStep c mr)
  end.

(** Every admission of the id [tid] in the run declares a spawn budget
    of at most [B]. *)
Definition admitsWithin (tid : TaskID) (B : Z) (cs : list EngineCall) : Prop :=
  forall now task,
    In (DoAdmit now task) cs -> id task = tid -> spawnBudget (metadata task) <= B.

(** The stored counters of [tid], if any, respect the bound [B]. *)
Definition withinBudget (tid : TaskID) (B : Z) (mr : MainRoutine) : Prop :=
  match MainRoutineSpec.storedState tid mr with
  | None => True
  | Some rs => 0 <= spawnCount rs <= B /\ 0 <= retryDepth rs
  end.

(** The event [emitDecision] builds for [decision]. *)
Definition decisionEvent (mr : MainRoutine) (now : Z) (task : Task)
           (decision : Decision) : DecisionEvent :=
  let envelope := resolveEnvelope mr task in
  let pressure := snapshot (mrAmigdala mr) now in
  {| evTaskId := id task;
     evDecision := decision;
     evEnvelopeId := envId envelope;
     evEnvelopeNarrowed :=
       Z.of_nat (List.length (eligibleCandidates envelope)) <? mrRegistryCount mr;
     evEligibleCandidatesCount :=
       Z.of_nat (List.length (eligibleCandidates envelope));
     evPressure := (memory pressure, queueDepth pressure, spawnSaturation pressure);
     evTimestamp := now |}.

(** A strategy that declines exactly the contexts whose budgets are
    exhausted. *)
Definition declinesOnlyExhausted (s : SpawnStrategy) : Prop :=
  forall context,
    select s context = None <->
    eligible (checkEligibility (ctxTask context) (ctxRuntimeState context)) = false.

(** The pressure gate of [admit] is shut. *)
Definition gateShut (mr : MainRoutine) (now : Z) (task : Task) : bool :=
  negb (allowDrop (resolveEnvelope mr task)
        && (0.9 <? avgPressure (snapshot (mrAmigdala mr) now))%float).

(** [dropsByReason[reason]] *)
Definition readReason (r : DropReason) (d : Metrics.DropsByReason) : Z :=
  match r with
  | spawn_budget_exhausted => Metrics.spawnBudgetExhausted d
  | retry_depth_exhausted => Metrics.retryDepthExhausted d
  | pressure_exceeded => Metrics.pressureExceeded d
  end.

(** The recording call is [recordDrop(r)]. *)
Definition isDropOf (r : DropReason) (c : Metrics.RecordCall) : bool :=
  match c, r with
  | Metrics.RecDrop spawn_budget_exhausted, spawn_budget_exhausted
  | Metrics.RecDrop retry_depth_exhausted, retry_depth_exhausted
  | Metrics.RecDrop pressure_exceeded, pressure_exceeded => true
  | _, _ => false
  end.

(** The number of elements of [l] that satisfy [f]. *)
Definition countIf (A : Type) (f : A -> bool) (l : list A) : Z :=
  Z.of_nat (List.length (filter f l)).

(** The submissions of a run as calls of the engine behind the gate. *)
Definition admitCalls (calls : list (Z * Task)) : list EngineCall :=
  map (fun c => DoAdmit (fst c) (snd c)) calls.

(** The tasks of [calls] whose decision, at the same position of
    [decisions], is a dispatch. *)
Fixpoint dispatchedTasks (calls : list (Z * Task)) (decisions : list Decision)
  : list Task :=
  match calls, decisions with
  | (_, task) :: calls', d :: decisions' =>
      if MainRoutineSpec.isDispatch d
      then task :: dispatchedTasks calls' decisions'
      else dispatchedTasks calls' decisions'
  | _, _ => []
  end.

(** A strategy context in the style of the test suite. *)
Definition contextOf (task : Task) (runtimeState : TaskRuntimeState)
  : StrategyContext :=
  {| ctxTask := task;
     ctxEnvelope := Demo.envelopeOf ["default"] true;
     ctxRuntimeState := runtimeState;
     ctxPressure := snapshot (createAmigdala None) 0;
     ctxEligibleCandidates := ["default"];
     ctxFactory := createSimpleFactory |}.

(** The penalty records of the last 30 minutes before [now]. *)
Definition withinWindow (now : Z) (r : PenaltyTracker.PenaltyRecord) : bool :=
  PenaltyTracker.recordedAt r >? now - 30 * 60 * 1000.

End MoreSpec.

(* ================================================================== *)
(** * Properties *)

(** ** The host map *)

Module JSMapFacts.
Section Facts.
Variable E : Type.
Implicit Types (m : JSMap.t E) (k : string) (e : E).

Lemma has_get k m : JSMap.has k m = true <-> exists e, JSMap.get k m = Some e.
Proof.
  unfold JSMap.has. destruct (JSMap.get k m) as [e|].
  - split; [eauto | reflexivity].
  - split; [discriminate | intros [e H]; discriminate].
Qed.

Lemma has_false_get k m : JSMap.has k m = false <-> JSMap.get k m = None.
Proof.
  unfold JSMap.has. destruct (JSMap.get k m); split; congruence.
Qed.

Lemma get_In k m e : JSMap.get k m = Some e -> In (k, e) m.
Proof.
  induction m as [|[k' e'] m IH]; simpl; [discriminate|].
  destruct (String.eqb_spec k k') as [->|Hne].
  - intros [= ->]. now left.
  - intros H. right. auto.
Qed.

Lemma get_None_notin k m : JSMap.get k m = None -> ~ In k (JSMap.keys m).
Proof.
  induction m as [|[k' e'] m IH]; simpl; [tauto|].
  destruct (String.eqb_spec k k') as [->|Hne]; [discriminate|].
  intros H [Heq|Hin]; [congruence | now apply IH].
Qed.

Lemma In_get k m e :
  NoDup (JSMap.keys m) -> In (k, e) m -> JSMap.get k m = Some e.
Proof.
  induction m as [|[k' e'] m IH]; simpl; [tauto|].
  intros Hnd [Heq|Hin].
  - injection Heq as -> ->. now rewrite String.eqb_refl.
  - inversion Hnd as [|? ? Hnotin Hnd']; subst.
    destruct (String.eqb_spec k k') as [->|Hne].
    + exfalso. apply Hnotin. change k' with (fst (k', e)). now apply in_map.
    + auto.
Qed.

Lemma length_set k e m :
  List.length (JSMap.set k e m) =
  if JSMap.has k m then List.length m else S (List.length m).
Proof.
  unfold JSMap.has.
  induction m as [|[k' e'] m IH]; simpl; [reflexivity|].
  destruct (String.eqb k k'); simpl; [reflexivity|].
  rewrite IH. now destruct (JSMap.get k m).
Qed.

Lemma length_delete k m :
  List.length (JSMap.delete k m) =
  if JSMap.has k m then pred (List.length m) else List.length m.
Proof.
  unfold JSMap.has.
  induction m as [|[k' e'] m IH]; simpl; [reflexivity|].
  destruct (String.eqb_spec k k') as [->|Hne]; simpl; [reflexivity|].
  rewrite IH. destruct (JSMap.get k m) eqn:Hg; [|reflexivity].
  apply get_In in Hg. destruct m; [contradiction | reflexivity].
Qed.

Lemma keys_set_has k e m :
  JSMap.has k m = true -> JSMap.keys (JSMap.set k e m) = JSMap.keys m.
Proof.
  unfold JSMap.has.
  induction m as [|[k' e'] m IH]; simpl; [discriminate|].
  destruct (String.eqb k k'); simpl; [reflexivity|].
  intros H. now rewrite IH.
Qed.

Lemma set_new k e m :
  JSMap.has k m = false -> JSMap.set k e m = (m ++ [(k, e)])%list.
Proof.
  unfold JSMap.has.
  induction m as [|[k' e'] m IH]; simpl; [reflexivity|].
  destruct (String.eqb k k'); simpl; [discriminate|].
  intros H. now rewrite IH.
Qed.

Lemma keys_delete_incl k m x :
  In x (JSMap.keys (JSMap.delete k m)) -> In x (JSMap.keys m).
Proof.
  induction m as [|[k' e'] m IH]; simpl; [tauto|].
  destruct (String.eqb k k'); simpl; tauto.
Qed.

Lemma NoDup_delete k m :
  NoDup (JSMap.keys m) -> NoDup (JSMap.keys (JSMap.delete k m)).
Proof.
  induction m as [|[k' e'] m IH]; simpl; [auto|].
  intros Hnd. inversion Hnd as [|? ? Hnotin Hnd']; subst.
  destruct (String.eqb k k'); simpl; [assumption|].
  constructor; [|auto]. intros Hin. apply Hnotin. eapply keys_delete_incl; eauto.
Qed.

Lemma NoDup_set k e m :
  NoDup (JSMap.keys m) -> NoDup (JSMap.keys (JSMap.set k e m)).
Proof.
  intros Hnd. destruct (JSMap.has k m) eqn:Hh.
  - now rewrite keys_set_has.
  - rewrite set_new by assumption. unfold JSMap.keys. rewrite map_app. simpl.
    apply has_false_get, get_None_notin in Hh.
    clear -Hnd Hh. unfold JSMap.keys in *.
    induction (map fst m) as [|x l IH]; simpl.
    + constructor; [tauto | constructor].
    + inversion Hnd; subst. constructor.
      * rewrite in_app_iff. simpl. intros [H|[H|[]]]; [tauto|].
        apply Hh. now left.
      * apply IH; [assumption|]. intros H. apply Hh. now right.
Qed.

Lemma NoDup_filter (f : string * E -> bool) m :
  NoDup (JSMap.keys m) -> NoDup (JSMap.keys (filter f m)).
Proof.
  induction m as [|[k' e'] m IH]; simpl; [auto|].
  intros Hnd. inversion Hnd as [|? ? Hnotin Hnd']; subst.
  destruct (f (k', e')); simpl; [|auto].
  constructor; [|auto]. intros Hin. apply Hnotin.
  unfold JSMap.keys in *. rewrite in_map_iff in *.
  destruct Hin as [x [Hx Hin]]. exists x. split; [assumption|].
  now apply filter_In in Hin.
Qed.

Lemma get_set_same k e m : JSMap.get k (JSMap.set k e m) = Some e.
Proof.
  induction m as [|[k' e'] m IH]; simpl.
  - now rewrite String.eqb_refl.
  - destruct (String.eqb_spec k k') as [->|Hne]; simpl.
    + now rewrite String.eqb_refl.
    + destruct (String.eqb_spec k k'); [contradiction | assumption].
Qed.

Lemma get_set_other k k' e m :
  k' <> k -> JSMap.get k' (JSMap.set k e m) = JSMap.get k' m.
Proof.
  intros Hne.
  induction m as [|[k0 e0] m IH]; simpl.
  - destruct (String.eqb_spec k' k); [contradiction | reflexivity].
  - destruct (String.eqb_spec k k0) as [->|Hne0]; simpl.
    + destruct (String.eqb_spec k' k0); [contradiction | reflexivity].
    + now rewrite IH.
Qed.

Lemma get_delete_same k m :
  NoDup (JSMap.keys m) -> JSMap.get k (JSMap.delete k m) = None.
Proof.
  induction m as [|[k0 e0] m IH]; simpl; [reflexivity|].
  intros Hnd. inversion Hnd as [|? ? Hnotin Hnd']; subst.
  destruct (String.eqb_spec k k0) as [->|Hne]; simpl.
  - destruct (JSMap.get k0 m) eqn:Hg; [|reflexivity].
    exfalso. apply Hnotin. apply get_In in Hg.
    change k0 with (fst (k0, e)). now apply in_map.
  - destruct (String.eqb_spec k k0); [contradiction | auto].
Qed.

Lemma get_delete_other k k' m :
  k' <> k -> JSMap.get k' (JSMap.delete k m) = JSMap.get k' m.
Proof.
  intros Hne.
  induction m as [|[k0 e0] m IH]; simpl; [reflexivity|].
  destruct (String.eqb_spec k k0) as [->|Hne0]; simpl.
  - destruct (String.eqb_spec k' k0); [contradiction | reflexivity].
  - now rewrite IH.
Qed.
End Facts.
End JSMapFacts.

(** ** The TTL map *)

Module TTLMapFacts.
Import TTLMap TTLMapSpec.
Section Facts.
Variable V : Type.
Implicit Types (m : TTLMap.t V) (l : JSMap.t (TTLEntry V)).

Lemma scanOldest_spec l : forall ok oe,
  accOK ok oe ->
  match scanOldest l ok oe with
  | None => l = [] /\ ok = None
  | Some k =>
      (ok = Some k /\
       forall k' e' o, In (k', e') l -> oe = Some o -> o <= expiresAt e')
      \/
      (exists ent,
          In (k, ent) l /\
          (forall k' e', In (k', e') l -> expiresAt ent <= expiresAt e') /\
          (forall o, oe = Some o -> expiresAt ent < o))
  end.
Proof.
  induction l as [|[key entry] rest IH]; intros ok oe Hacc; simpl.
  - destruct ok as [k|]; [left; split; [reflexivity | intros ? ? ? []] | auto].
  - set (below := match oe with None => true | Some o => expiresAt entry <? o end).
    destruct below eqn:Hb; subst below.
    + specialize (IH (Some key) (Some (expiresAt entry)) I).
      destruct (scanOldest rest (Some key) (Some (expiresAt entry))) as [k|].
      * right. destruct IH as [[Hk Hmin]|[ent [Hin [Hmin Hlt]]]].
        -- injection Hk as <-. exists entry. split; [now left|]. split.
           ++ intros k' e' [Heq|Hin]; [injection Heq as <- <-; lia|].
              eapply Hmin; eauto.
           ++ intros o ->. now apply Z.ltb_lt.
        -- exists ent. split; [now right|].
           specialize (Hlt _ eq_refl). split.
           ++ intros k' e' [Heq|Hin']; [injection Heq as <- <-; lia | eauto].
           ++ intros o ->. apply Z.ltb_lt in Hb. lia.
      * destruct IH as [_ Habs]. discriminate.
    + destruct oe as [o|]; [|discriminate].
      destruct ok as [k0|]; [|contradiction].
      apply Z.ltb_ge in Hb.
      specialize (IH (Some k0) (Some o) I).
      destruct (scanOldest rest (Some k0) (Some o)) as [k|].
      * destruct IH as [[Hk Hmin]|[ent [Hin [Hmin Hlt]]]].
        -- left. split; [assumption|].
           intros k' e' o' [Heq|Hin] [= <-];
             [injection Heq as <- <-; lia | eapply Hmin; eauto].
        -- right. exists ent. split; [now right|].
           specialize (Hlt _ eq_refl). split.
           ++ intros k' e' [Heq|Hin']; [injection Heq as <- <-; lia | eauto].
           ++ intros o' [= <-]. assumption.
      * destruct IH as [_ Habs]. discriminate.
Qed.

(** On a non-empty store the scan names an entry of least expiry. *)
Lemma oldestKey_spec m :
  wf m -> store m <> [] ->
  exists k ent,
    oldestKey m = Some k /\
    JSMap.get k (store m) = Some ent /\
    forall k' e', In (k', e') (store m) -> expiresAt ent <= expiresAt e'.
Proof.
  intros Hwf Hne. unfold oldestKey.
  pose proof (scanOldest_spec (store m) None None I) as H.
  destruct (scanOldest (store m) None None) as [k|].
  - destruct H as [[Habs _]|[ent [Hin [Hmin _]]]]; [discriminate|].
    exists k, ent. split; [reflexivity|]. split; [|assumption].
    now apply JSMapFacts.In_get.
  - destruct H as [Habs _]. contradiction.
Qed.

Lemma oldestKey_empty m : store m = [] -> oldestKey m = None.
Proof. unfold oldestKey. now intros ->. Qed.

Lemma size_nonneg m : 0 <= size m.
Proof. unfold size, JSMap.size. lia. Qed.

Lemma size_evictOldest m :
  wf m -> store m <> [] -> size (evictOldest m) = size m - 1.
Proof.
  intros Hwf Hne. unfold evictOldest.
  destruct (oldestKey_spec Hwf Hne) as [k [ent [-> [Hg _]]]].
  unfold size, JSMap.size. simpl. rewrite JSMapFacts.length_delete.
  assert (Hh : JSMap.has k (store m) = true) by (apply JSMapFacts.has_get; eauto).
  rewrite Hh. destruct (store m) as [|x l]; [contradiction | cbn [List.length pred]; lia].
Qed.

Lemma wf_evictOldest m : wf m -> wf (evictOldest m).
Proof.
  unfold wf, evictOldest. intros H.
  destruct (oldestKey m); simpl; [now apply JSMapFacts.NoDup_delete | assumption].
Qed.

Lemma maxSize_evictOldest m : maxSize (evictOldest m) = maxSize m.
Proof. unfold evictOldest. now destruct (oldestKey m). Qed.

Lemma wf_set now key v ttl m : wf m -> wf (set now key v ttl m).
Proof.
  unfold wf, set. intros H. simpl. apply JSMapFacts.NoDup_set.
  destruct (mustEvict key m); [now apply wf_evictOldest | assumption].
Qed.

Lemma wf_get now key m : wf m -> wf (snd (get now key m)).
Proof.
  unfold wf, get. intros H.
  destruct (JSMap.get key (store m)) as [entry|]; [|assumption].
  destruct (now >? expiresAt entry); simpl;
    [now apply JSMapFacts.NoDup_delete | assumption].
Qed.

Lemma has_evictOldest_other key m :
  JSMap.has key (store m) = false ->
  JSMap.has key (store (evictOldest m)) = false.
Proof.
  intros H. unfold evictOldest. destruct (oldestKey m) as [k|]; [|assumption].
  simpl. apply JSMapFacts.has_false_get. apply JSMapFacts.has_false_get in H.
  destruct (JSMap.get key (JSMap.delete k (store m))) eqn:Hg; [|reflexivity].
  apply JSMapFacts.get_In in Hg.
  exfalso. apply (JSMapFacts.get_None_notin _ _ H).
  eapply JSMapFacts.keys_delete_incl. unfold JSMap.keys.
  change key with (fst (key, t0)). apply in_map. eassumption.
Qed.

(** One [set] keeps the store within a capacity of at least one. *)
Lemma size_set now key v ttl m :
  wf m -> 1 <= maxSize m -> size m <= maxSize m ->
  size (set now key v ttl m) <= maxSize m.
Proof.
  intros Hwf Hcap Hsz. unfold set, mustEvict.
  destruct (JSMap.has key (store m)) eqn:Hh.
  - rewrite andb_false_r. unfold size, JSMap.size in *. simpl.
    rewrite JSMapFacts.length_set, Hh. assumption.
  - rewrite andb_true_r.
    destruct (JSMap.size (store m) >=? maxSize m) eqn:Hge.
    + assert (Hne : store m <> []).
      { intros Hnil. rewrite Hnil in Hge. unfold JSMap.size in Hge. simpl in Hge.
        apply Z.geb_le in Hge. lia. }
      pose proof (size_evictOldest Hwf Hne) as Hev.
      pose proof (has_evictOldest_other _ _ Hh) as Hh'.
      unfold size, JSMap.size in *. simpl.
      rewrite JSMapFacts.length_set, Hh'. lia.
    + unfold size, JSMap.size in *. simpl.
      rewrite JSMapFacts.length_set, Hh.
      rewrite Z.geb_leb in Hge. apply Z.leb_gt in Hge. lia.
Qed.

Lemma maxSize_set now key v ttl m : maxSize (set now key v ttl m) = maxSize m.
Proof.
  unfold set. simpl. destruct (mustEvict key m); [apply maxSize_evictOldest | reflexivity].
Qed.

Lemma size_get now key m : size (snd (get now key m)) <= size m.
Proof.
  unfold get, size, JSMap.size.
  destruct (JSMap.get key (store m)) as [entry|]; [|simpl; lia].
  destruct (now >? expiresAt entry); simpl; [|lia].
  rewrite JSMapFacts.length_delete. destruct (JSMap.has key (store m)); lia.
Qed.

Lemma maxSize_get now key m : maxSize (snd (get now key m)) = maxSize m.
Proof.
  unfold get. destruct (JSMap.get key (store m)) as [entry|]; [|reflexivity].
  now destruct (now >? expiresAt entry).
Qed.

Lemma inv_apply (op : Op V) m :
  1 <= maxSize m -> inv m -> inv (apply op m) /\ maxSize (apply op m) = maxSize m.
Proof.
  intros Hcap [Hwf Hsz].
  destruct op as [now key|now key v ttl|now key|key| |now]; unfold TTLMap.apply.
  - split; [split; [now apply wf_get|] | apply maxSize_get].
    rewrite maxSize_get. pose proof (size_get now key m). lia.
  - split; [split; [now apply wf_set|] | apply maxSize_set].
    rewrite maxSize_set. now apply size_set.
  - unfold has. pose proof (wf_get now key Hwf) as Hw.
    pose proof (size_get now key m) as Hs. pose proof (maxSize_get now key m) as Hm.
    destruct (get now key m) as [[x|] m']; simpl in *; (split; [split|]; [assumption | lia | assumption]).
  - split; [split|reflexivity].
    + unfold wf. simpl. now apply JSMapFacts.NoDup_delete.
    + unfold size, JSMap.size in *. simpl. rewrite JSMapFacts.length_delete.
      destruct (JSMap.has key (store m)); lia.
  - split; [split|reflexivity].
    + unfold wf. simpl. constructor.
    + unfold size, JSMap.size. simpl. lia.
  - split; [split|reflexivity].
    + unfold wf. simpl. now apply JSMapFacts.NoDup_filter.
    + unfold size, JSMap.size in *. simpl.
      pose proof (filter_length_le (fun ke => negb (now >? expiresAt (snd ke))) (store m)).
      lia.
Qed.

Lemma inv_run (ops : list (Op V)) : forall m,
  1 <= maxSize m -> inv m -> inv (run ops m) /\ maxSize (run ops m) = maxSize m.
Proof.
  unfold run. induction ops as [|op ops IH]; intros m Hcap Hinv; simpl; [auto|].
  destruct (inv_apply op Hcap Hinv) as [Hinv' Hmax].
  destruct (IH (apply op m)) as [H1 H2]; [lia | assumption |].
  split; [assumption | congruence].
Qed.

Lemma inv_new ttl cap : 0 <= cap -> inv (new V ttl (Some cap)).
Proof.
  intros H. split; [constructor | unfold size, JSMap.size; simpl; lia].
Qed.
(** *** Raw entries under [get] and [set] *)

Lemma defaultTTL_evictOldest m : defaultTTL (evictOldest m) = defaultTTL m.
Proof. unfold evictOldest. now destruct (oldestKey m). Qed.

Lemma defaultTTL_set now key v ttl m : defaultTTL (set now key v ttl m) = defaultTTL m.
Proof.
  unfold set. simpl.
  destruct (mustEvict key m); [apply defaultTTL_evictOldest | reflexivity].
Qed.

Lemma defaultTTL_get now key m : defaultTTL (snd (get now key m)) = defaultTTL m.
Proof.
  unfold get. destruct (JSMap.get key (store m)) as [entry|]; [|reflexivity].
  now destruct (now >? expiresAt entry).
Qed.

Lemma get_live now key m ent :
  JSMap.get key (store m) = Some ent -> now <= expiresAt ent ->
  get now key m = (Some (value ent), m).
Proof.
  intros Hg Hle. unfold get. rewrite Hg.
  destruct (now >? expiresAt ent) eqn:Hgt; [|reflexivity].
  rewrite Z.gtb_ltb in Hgt. apply Z.ltb_lt in Hgt. lia.
Qed.

Lemma get_expired now key m ent :
  JSMap.get key (store m) = Some ent -> expiresAt ent < now ->
  get now key m = (None, with_store m (JSMap.delete key (store m))).
Proof.
  intros Hg Hlt. unfold get. rewrite Hg.
  destruct (now >? expiresAt ent) eqn:Hgt; [reflexivity|].
  rewrite Z.gtb_ltb in Hgt. apply Z.ltb_ge in Hgt. lia.
Qed.

Lemma get_absent now key m :
  JSMap.get key (store m) = None -> get now key m = (None, m).
Proof. intros Hg. unfold get. now rewrite Hg. Qed.

Lemma get_Some_inv now key m v m' :
  get now key m = (Some v, m') ->
  m' = m /\ exists ent,
    JSMap.get key (store m) = Some ent /\ value ent = v /\ now <= expiresAt ent.
Proof.
  unfold get. destruct (JSMap.get key (store m)) as [entry|]; [|discriminate].
  destruct (now >? expiresAt entry) eqn:Hgt; [discriminate|].
  intros [= <- <-]. split; [reflexivity|]. exists entry.
  rewrite Z.gtb_ltb in Hgt. apply Z.ltb_ge in Hgt. auto.
Qed.

Lemma raw_set_same now key v ttl m :
  JSMap.get key (store (set now key v ttl m)) =
  Some {| value := v;
          expiresAt := now + match ttl with Some x => x | None => defaultTTL m end |}.
Proof. unfold set. simpl. apply JSMapFacts.get_set_same. Qed.

Lemma set_existing now key v ttl m :
  JSMap.has key (store m) = true ->
  set now key v ttl m =
  with_store m
    (JSMap.set key
       {| value := v;
          expiresAt := now + match ttl with Some x => x | None => defaultTTL m end |}
       (store m)).
Proof. intros Hh. unfold set, mustEvict. now rewrite Hh, andb_false_r. Qed.

Lemma raw_get_other now key key' m :
  key' <> key ->
  JSMap.get key' (store (snd (get now key m))) = JSMap.get key' (store m).
Proof.
  intros Hne. unfold get.
  destruct (JSMap.get key (store m)) as [entry|]; [|reflexivity].
  destruct (now >? expiresAt entry); [|reflexivity].
  simpl. now apply JSMapFacts.get_delete_other.
Qed.

(** Writing [key] leaves another key's entry as it was, unless the write
    had to evict and that other key held the least expiry. *)
Lemma raw_set_other now key key' v ttl m :
  wf m -> key' <> key ->
  JSMap.get key' (store (set now key v ttl m)) = JSMap.get key' (store m)
  \/
  (mustEvict key m = true /\ oldestKey m = Some key' /\
   JSMap.get key' (store (set now key v ttl m)) = None).
Proof.
  intros Hwf Hne. unfold set.
  destruct (mustEvict key m) eqn:Hev; simpl.
  - rewrite JSMapFacts.get_set_other by assumption.
    unfold evictOldest. destruct (oldestKey m) as [k|] eqn:Hk; simpl; [|now left].
    destruct (String.eqb_spec key' k) as [->|Hnk].
    + right. repeat split. now apply JSMapFacts.get_delete_same.
    + left. now apply JSMapFacts.get_delete_other.
  - left. now apply JSMapFacts.get_set_other.
Qed.

Lemma raw_set_other_noevict now key key' v ttl m :
  key' <> key -> mustEvict key m = false ->
  JSMap.get key' (store (set now key v ttl m)) = JSMap.get key' (store m).
Proof.
  intros Hne Hev. unfold set. rewrite Hev. simpl.
  now apply JSMapFacts.get_set_other.
Qed.
End Facts.
End TTLMapFacts.

Module TTLMapClaims.
Import TTLMap TTLMapSpec.

(** C7, as stated, fails: a store built with capacity 0 holds one entry
    after a single [set], because evicting from the empty store removes
    nothing and the insertion goes ahead. *)
Lemma capacity_zero_is_exceeded :
  let m := run [OpSet 0 "a" 7 None] (new Z 1000 (Some 0)) in
  maxSize m = 0 /\ size m = 1 /\ ~ (size m <= maxSize m).
Proof. vm_compute. repeat split; intros H; now apply H. Qed.

(** C7, amended: with a capacity of at least one, after any sequence of
    public operations on a fresh store (a) the size is within the
    capacity; (b) a [set] of a key that is not stored, at capacity,
    deletes one stored entry whose expiry is least among all stored
    entries and then appends the new entry; (c) a [set] of a stored key
    overwrites that entry in place and removes no key. *)
Theorem capacity_bound_and_nearest_expiry_eviction :
  forall (V : Type) (ttl cap : Z) (ops : list (Op V)),
    1 <= cap ->
    let m := run ops (new V ttl (Some cap)) in
    size m <= cap /\
    (forall now key v t,
        JSMap.has key (store m) = false -> cap <= size m ->
        exists k ent,
          oldestKey m = Some k /\
          JSMap.get k (store m) = Some ent /\
          (forall k' e', In (k', e') (store m) -> expiresAt ent <= expiresAt e') /\
          store (set now key v t m) =
            (JSMap.delete k (store m) ++ [(key, written m now v t)])%list) /\
    (forall now key v t,
        JSMap.has key (store m) = true ->
        store (set now key v t m) = JSMap.set key (written m now v t) (store m) /\
        JSMap.keys (store (set now key v t m)) = JSMap.keys (store m)).
Proof.
  intros V ttl cap ops Hcap m.
  assert (Hnew : inv (new V ttl (Some cap)))
    by (apply TTLMapFacts.inv_new; lia).
  destruct (@TTLMapFacts.inv_run V ops (new V ttl (Some cap)) Hcap Hnew)
    as [[Hwf Hsz] Hmax].
  fold m in Hwf, Hsz, Hmax. simpl in Hmax.
  split; [lia|]. split.
  - intros now key v t Hh Hfull.
    assert (Hne : store m <> []).
    { intros Hnil. unfold size, JSMap.size in Hfull. rewrite Hnil in Hfull.
      simpl in Hfull. lia. }
    destruct (TTLMapFacts.oldestKey_spec Hwf Hne) as [k [ent [Hk [Hg Hmin]]]].
    exists k, ent. repeat split; try assumption.
    unfold set, mustEvict. rewrite Hh, andb_true_r.
    assert (Hge : (JSMap.size (store m) >=? maxSize m) = true).
    { rewrite Z.geb_leb. apply Z.leb_le. unfold size in Hfull. lia. }
    rewrite Hge.
    pose proof (TTLMapFacts.has_evictOldest_other _ _ Hh) as Hh'.
    unfold evictOldest in *. rewrite Hk in *. simpl in *.
    now rewrite JSMapFacts.set_new.
  - intros now key v t Hh.
    unfold set, mustEvict. rewrite Hh, andb_false_r. simpl.
    split; [reflexivity | now apply JSMapFacts.keys_set_has].
Qed.

(** An instance: capacity 3, four distinct keys written 10 ms apart. *)
Lemma capacity_bound_witness :
  size (run [OpSet 0 "a" 1 None; OpSet 10 "b" 2 None;
             OpSet 20 "c" 3 None; OpSet 30 "d" 4 None]
            (new Z 10000 (Some 3))) <= 3.
Proof.
  exact (proj1 (@capacity_bound_and_nearest_expiry_eviction Z 10000 3
           [OpSet 0 "a" 1 None; OpSet 10 "b" 2 None;
            OpSet 20 "c" 3 None; OpSet 30 "d" 4 None]
           ltac:(lia))).
Defined.

(** The test-suite scenario, evaluated: the fourth key evicts ["a"]. *)
Example evicts_oldest_when_full :
  JSMap.keys (store (run [OpSet 0 "a" 1 None; OpSet 10 "b" 2 None;
                          OpSet 20 "c" 3 None; OpSet 30 "d" 4 None]
                         (new Z 10000 (Some 3))))
  = ["b"; "c"; "d"].
Proof. reflexivity. Qed.
End TTLMapClaims.

(* ================================================================== *)
(** ** The admission engine *)

Module MainRoutineFacts.
Import MainRoutineSpec.

Lemma sameConfig_refl a : sameConfig a a.
Proof. repeat split. Qed.

Lemma sameConfig_trans a b c : sameConfig a b -> sameConfig b c -> sameConfig a c.
Proof. unfold sameConfig. intuition congruence. Qed.

Lemma verdict_sameConfig a b now task rs :
  sameConfig a b -> verdict b now task rs = verdict a now task rs.
Proof.
  intros (H1 & H2 & H3 & H4 & H5 & H6).
  unfold verdict, resolveEnvelope. now rewrite H1, H2, H4, H5.
Qed.

Lemma emitDecision_states now tid d env nar mr :
  runtimeStates (emitDecision now tid d env nar mr) = runtimeStates mr.
Proof. unfold emitDecision. now destruct (mrOnDecision mr). Qed.

Lemma emitDecision_dispatched now tid d env nar mr :
  dispatched (emitDecision now tid d env nar mr) = dispatched mr.
Proof. unfold emitDecision. now destruct (mrOnDecision mr). Qed.

Lemma emitDecision_sameConfig now tid d env nar mr :
  sameConfig mr (emitDecision now tid d env nar mr).
Proof. unfold emitDecision. destruct (mrOnDecision mr) eqn:H; repeat split; auto. Qed.

Ltac admitTask_branch :=
  cbn [fst snd isDispatch]; rewrite emitDecision_states;
  split; [reflexivity | split; [reflexivity |]];
  eapply sameConfig_trans; [|apply emitDecision_sameConfig]; repeat split.

(** [admit] decomposed: its decision is [verdict] on the fetched or
    created state; the store is written back on the dispatch path only;
    the configuration is untouched. *)
Lemma admitTask_spec now task mr :
  let rs := fst (getOrCreateRuntimeState now (id task) (runtimeStates mr)) in
  let st1 := snd (getOrCreateRuntimeState now (id task) (runtimeStates mr)) in
  let d := verdict mr now task rs in
  fst (admitTask now task mr) = d /\
  runtimeStates (snd (admitTask now task mr)) =
    (if isDispatch d then TTLMap.set now (id task) (bump now rs) None st1 else st1) /\
  sameConfig mr (snd (admitTask now task mr)).
Proof.
  unfold admitTask, verdict.
  destruct (getOrCreateRuntimeState now (id task) (runtimeStates mr)) as [rs st1].
  cbn [fst snd].
  destruct (spawnCount rs >=? spawnBudget (metadata task)).
  { admitTask_branch. }
  destruct (retryDepth rs >=? maxRetryDepth (metadata task)).
  { admitTask_branch. }
  destruct (allowDrop (resolveEnvelope mr task)
            && (0.9 <? avgPressure (snapshot (mrAmigdala mr) now))%float).
  { admitTask_branch. }
  destruct (distSelect (mrDistributor mr) task (resolveEnvelope mr task) rs
              (snapshot (mrAmigdala mr) now)) as [group|].
  - admitTask_branch.
  - admitTask_branch.
Qed.

Lemma signalRetry_sameConfig now tid mr : sameConfig mr (signalRetry now tid mr).
Proof.
  unfold signalRetry.
  destruct (TTLMap.get now tid (runtimeStates mr)) as [[s|] st]; repeat split.
Qed.

(** *** One call, seen on the task's own entry *)

Lemma goc_live now tid states ent :
  JSMap.get tid (TTLMap.store states) = Some ent -> now <= TTLMap.expiresAt ent ->
  getOrCreateRuntimeState now tid states = (TTLMap.value ent, states).
Proof.
  intros Hg Hle. unfold getOrCreateRuntimeState.
  now rewrite (TTLMapFacts.get_live _ _ Hg Hle).
Qed.

Lemma goc_fresh now tid states :
  fst (TTLMap.get now tid states) = None ->
  getOrCreateRuntimeState now tid states =
  (initialState now,
   TTLMap.set now tid (initialState now) None (snd (TTLMap.get now tid states))).
Proof.
  unfold getOrCreateRuntimeState.
  destruct (TTLMap.get now tid states) as [[x|] st]; simpl; [discriminate|reflexivity].
Qed.

(** After [getOrCreateRuntimeState] the task's key is in the store and
    holds the returned state. *)
Lemma goc_raw now tid states :
  exists e,
    JSMap.get tid (TTLMap.store (snd (getOrCreateRuntimeState now tid states))) =
    Some (entry (fst (getOrCreateRuntimeState now tid states)) e).
Proof.
  unfold getOrCreateRuntimeState.
  destruct (TTLMap.get now tid states) as [[x|] st] eqn:Hget; cbn [fst snd].
  - apply TTLMapFacts.get_Some_inv in Hget.
    destruct Hget as [-> [ent [Hg [Hv _]]]].
    exists (TTLMap.expiresAt ent). rewrite Hg. destruct ent; simpl in *. now subst.
  - eexists. unfold entry. apply TTLMapFacts.raw_set_same.
Qed.

Lemma goc_ttl now tid states :
  TTLMap.defaultTTL (snd (getOrCreateRuntimeState now tid states)) =
  TTLMap.defaultTTL states.
Proof.
  unfold getOrCreateRuntimeState.
  pose proof (TTLMapFacts.defaultTTL_get now tid states) as H.
  destruct (TTLMap.get now tid states) as [[x|] st]; cbn [fst snd] in *; [assumption|].
  now rewrite TTLMapFacts.defaultTTL_set.
Qed.

(** The entry of the admitted task after the call: the state [admit]
    worked on, bumped and re-armed exactly when the decision is
    [Dispatch]. *)
Lemma admitTask_own_entry now task mr :
  let rs := fst (getOrCreateRuntimeState now (id task) (runtimeStates mr)) in
  let d := fst (admitTask now task mr) in
  d = verdict mr now task rs /\
  ttlOf (snd (admitTask now task mr)) = ttlOf mr /\
  sameConfig mr (snd (admitTask now task mr)) /\
  exists e,
    rawEntry (id task) (snd (admitTask now task mr)) =
    Some (if isDispatch d then entry (bump now rs) (now + ttlOf mr) else entry rs e) /\
    JSMap.get (id task)
      (TTLMap.store (snd (getOrCreateRuntimeState now (id task) (runtimeStates mr))))
    = Some (entry rs e).
Proof.
  intros rs d. subst rs d.
  destruct (admitTask_spec now task mr) as [Hd [Hst Hcfg]].
  destruct (goc_raw now (id task) (runtimeStates mr)) as [e He].
  pose proof (goc_ttl now (id task) (runtimeStates mr)) as Httl.
  rewrite Hd in *. split; [reflexivity|]. unfold ttlOf, rawEntry. rewrite Hst.
  destruct (isDispatch _).
  - split; [now rewrite TTLMapFacts.defaultTTL_set|]. split; [assumption|].
    exists e. split; [|assumption].
    rewrite TTLMapFacts.raw_set_same. now rewrite Httl.
  - split; [assumption|]. split; [assumption|]. exists e. split; assumption.
Qed.

(** On a live entry nothing but the dispatch path writes to the store. *)
Lemma admitTask_live now task mr ent :
  rawEntry (id task) mr = Some ent -> now <= TTLMap.expiresAt ent ->
  let d := verdict mr now task (TTLMap.value ent) in
  fst (admitTask now task mr) = d /\
  (isDispatch d = false -> runtimeStates (snd (admitTask now task mr)) = runtimeStates mr) /\
  rawEntry (id task) (snd (admitTask now task mr)) =
    Some (if isDispatch d
          then entry (bump now (TTLMap.value ent)) (now + ttlOf mr)
          else ent) /\
  ttlOf (snd (admitTask now task mr)) = ttlOf mr /\
  sameConfig mr (snd (admitTask now task mr)).
Proof.
  intros Hraw Hle d. subst d.
  destruct (admitTask_spec now task mr) as [Hd [Hst Hcfg]].
  rewrite (goc_live _ _ Hraw Hle) in Hd, Hst. cbn [fst snd] in Hd, Hst.
  split; [assumption|]. unfold rawEntry, ttlOf. rewrite Hst.
  destruct (isDispatch _).
  - split; [discriminate|]. rewrite TTLMapFacts.raw_set_same.
    split; [reflexivity|]. split; [apply TTLMapFacts.defaultTTL_set | assumption].
  - split; [reflexivity|]. split; [exact Hraw|]. split; [reflexivity | assumption].
Qed.

(** A first admission (no live entry) starts from the zero state. *)
Lemma admitTask_fresh now task mr :
  fst (TTLMap.get now (id task) (runtimeStates mr)) = None ->
  let d := verdict mr now task (initialState now) in
  fst (admitTask now task mr) = d /\
  rawEntry (id task) (snd (admitTask now task mr)) =
    Some (entry (if isDispatch d then bump now (initialState now) else initialState now)
                (now + ttlOf mr)) /\
  ttlOf (snd (admitTask now task mr)) = ttlOf mr /\
  sameConfig mr (snd (admitTask now task mr)).
Proof.
  intros Hnone d. subst d.
  destruct (admitTask_spec now task mr) as [Hd [Hst Hcfg]].
  rewrite (goc_fresh _ _ _ Hnone) in Hd, Hst. cbn [fst snd] in Hd, Hst.
  split; [assumption|]. unfold rawEntry, ttlOf. rewrite Hst.
  pose proof (TTLMapFacts.defaultTTL_get now (id task) (runtimeStates mr)) as Hg.
  destruct (isDispatch _).
  - rewrite TTLMapFacts.raw_set_same, !TTLMapFacts.defaultTTL_set, Hg.
    split; [reflexivity|]. split; [reflexivity | assumption].
  - rewrite TTLMapFacts.raw_set_same, !TTLMapFacts.defaultTTL_set, Hg.
    split; [reflexivity|]. split; [reflexivity | assumption].
Qed.

(** *** Repeated admissions of one task *)

Lemma verdict_budget_exhausted mr now task rs :
  spawnBudget (metadata task) <= spawnCount rs ->
  verdict mr now task rs = Drop spawn_budget_exhausted (retryDepth rs).
Proof.
  intros H. unfold verdict.
  destruct (spawnCount rs >=? spawnBudget (metadata task)) eqn:Hge; [reflexivity|].
  rewrite Z.geb_leb in Hge. apply Z.leb_gt in Hge. lia.
Qed.

Lemma verdict_dispatch_budget mr now task rs :
  verdict mr now task rs = Dispatch ->
  spawnCount rs < spawnBudget (metadata task) /\
  retryDepth rs < maxRetryDepth (metadata task).
Proof.
  unfold verdict.
  destruct (spawnCount rs >=? spawnBudget (metadata task)) eqn:H1; [discriminate|].
  destruct (retryDepth rs >=? maxRetryDepth (metadata task)) eqn:H2; [discriminate|].
  intros _. rewrite Z.geb_leb in H1, H2. apply Z.leb_gt in H1, H2. lia.
Qed.

(** Code-level conditions under which every admission with budget left
    is dispatched: the pressure gate stays shut and the distributor
    selects. *)
Lemma alwaysDispatchable_intro mr task times :
  (forall t, In t times ->
     allowDrop (resolveEnvelope mr task)
     && (0.9 <? avgPressure (snapshot (mrAmigdala mr) t))%float = false) ->
  (forall t rs, In t times ->
     spawnCount rs < spawnBudget (metadata task) ->
     retryDepth rs < maxRetryDepth (metadata task) ->
     distSelect (mrDistributor mr) task (resolveEnvelope mr task) rs
                (snapshot (mrAmigdala mr) t) <> None) ->
  alwaysDispatchable mr task times.
Proof.
  intros Hgate Hsel t rs Ht H1 H2. unfold verdict.
  destruct (spawnCount rs >=? spawnBudget (metadata task)) eqn:E1.
  { rewrite Z.geb_leb in E1. apply Z.leb_le in E1. lia. }
  destruct (retryDepth rs >=? maxRetryDepth (metadata task)) eqn:E2.
  { rewrite Z.geb_leb in E2. apply Z.leb_le in E2. lia. }
  rewrite (Hgate t Ht).
  specialize (Hsel t rs Ht H1 H2).
  destruct (distSelect _ _ _ _ _); [reflexivity | contradiction].
Qed.

Lemma admitAll_live task lo hi : forall times mr ent,
  rawEntry (id task) mr = Some ent ->
  hi <= TTLMap.expiresAt ent ->
  hi <= lo + ttlOf mr ->
  (forall t, In t times -> lo <= t <= hi) ->
  exists ent',
    rawEntry (id task) (snd (admitAll times task mr)) = Some ent' /\
    spawnCount (TTLMap.value ent') =
      spawnCount (TTLMap.value ent) + countDispatch (fst (admitAll times task mr)) /\
    (spawnCount (TTLMap.value ent) <= spawnBudget (metadata task) ->
     retryDepth (TTLMap.value ent) < maxRetryDepth (metadata task) ->
     alwaysDispatchable mr task times ->
     spawnCount (TTLMap.value ent') =
       Z.min (spawnCount (TTLMap.value ent) + Z.of_nat (List.length times))
             (spawnBudget (metadata task))).
Proof.
  induction times as [|now rest IH]; intros mr ent Hraw Hhi Httl Hin.
  - exists ent. cbn. unfold countDispatch. cbn.
    split; [assumption|]. split; [lia|]. intros. lia.
  - assert (Hnow : lo <= now <= hi) by (apply Hin; now left).
    destruct (@admitTask_live now task mr ent Hraw ltac:(lia))
      as (Hd & _ & Hraw' & Httl' & Hcfg).
    cbn [admitAll].
    destruct (admitTask now task mr) as [d mr1] eqn:Hadm. cbn [fst snd] in *.
    specialize (IH mr1).
    destruct (admitAll rest task mr1) as [ds mr2] eqn:Hall. cbn [fst snd] in *.
    assert (Hrest : forall t, In t rest -> lo <= t <= hi)
      by (intros t Ht; apply Hin; now right).
    try subst d.
    unfold countDispatch in *. cbn [filter].
    destruct (isDispatch (verdict mr now task (TTLMap.value ent))) eqn:Hdisp.
    + destruct (IH _ Hraw' ltac:(cbn; lia) ltac:(lia) Hrest)
        as (ent' & He' & Hcount & Hmin).
      exists ent'. split; [assumption|].
      cbn [entry bump TTLMap.value spawnCount retryDepth List.length] in *.
      split; [lia|]. intros Hle Hr Hdis.
      assert (Hv : verdict mr now task (TTLMap.value ent) = Dispatch)
        by (destruct (verdict mr now task (TTLMap.value ent));
            try discriminate; reflexivity).
      apply verdict_dispatch_budget in Hv. destruct Hv as [Hlt _].
      rewrite Hmin; [lia | lia | assumption |].
      intros t rs Ht H1 H2. rewrite (verdict_sameConfig _ _ _ Hcfg).
      apply Hdis; [now right | assumption | assumption].
    + destruct (IH _ Hraw' Hhi ltac:(lia) Hrest) as (ent' & He' & Hcount & Hmin).
      exists ent'. split; [assumption|].
      split; [assumption|]. intros Hle Hr Hdis.
      assert (Hfull : spawnCount (TTLMap.value ent) = spawnBudget (metadata task)).
      { destruct (Z.eq_dec (spawnCount (TTLMap.value ent)) (spawnBudget (metadata task)))
          as [|Hne]; [assumption|].
        rewrite (Hdis now (TTLMap.value ent)) in Hdisp;
          [discriminate | now left | lia | assumption]. }
      rewrite Hmin; [cbn [List.length]; lia | assumption | assumption |].
      intros t rs Ht H1 H2. rewrite (verdict_sameConfig _ _ _ Hcfg).
      apply Hdis; [now right | assumption | assumption].
Qed.
(** *** [signalRetry] *)

Lemma with_states_same mr : with_states mr (runtimeStates mr) = mr.
Proof. now destruct mr. Qed.

Lemma signalRetry_live now tid mr ent :
  rawEntry tid mr = Some ent -> now <= TTLMap.expiresAt ent ->
  runtimeStates (signalRetry now tid mr) =
    TTLMap.set now tid (retried (TTLMap.value ent)) None (runtimeStates mr) /\
  rawEntry tid (signalRetry now tid mr) =
    Some (entry (retried (TTLMap.value ent)) (now + ttlOf mr)) /\
  ttlOf (signalRetry now tid mr) = ttlOf mr.
Proof.
  intros Hraw Hle. unfold signalRetry, rawEntry, ttlOf.
  rewrite (@TTLMapFacts.get_live _ now tid _ ent Hraw Hle). cbn [runtimeStates with_states].
  split; [reflexivity|]. split.
  - apply TTLMapFacts.raw_set_same.
  - apply TTLMapFacts.defaultTTL_set.
Qed.

Lemma signalRetry_absent now tid mr :
  rawEntry tid mr = None -> signalRetry now tid mr = mr.
Proof.
  intros Hraw. unfold signalRetry.
  rewrite (@TTLMapFacts.get_absent _ now tid _ Hraw). apply with_states_same.
Qed.

Lemma signalRetry_expired now tid mr ent :
  rawEntry tid mr = Some ent -> TTLMap.expiresAt ent < now ->
  runtimeStates (signalRetry now tid mr) =
    TTLMap.with_store (runtimeStates mr)
      (JSMap.delete tid (TTLMap.store (runtimeStates mr))) /\
  ttlOf (signalRetry now tid mr) = ttlOf mr.
Proof.
  intros Hraw Hlt. unfold signalRetry, ttlOf.
  rewrite (@TTLMapFacts.get_expired _ now tid _ ent Hraw Hlt). split; reflexivity.
Qed.

(** What [get] answers depends on the key's own entry only. *)
Lemma liveState_raw now tid a b :
  rawEntry tid a = rawEntry tid b -> liveState now tid a = liveState now tid b.
Proof.
  unfold rawEntry, liveState, TTLMap.get. intros ->.
  destruct (JSMap.get tid (TTLMap.store (runtimeStates b))) as [e|]; [|reflexivity].
  now destruct (now >? TTLMap.expiresAt e).
Qed.

Lemma liveState_expired now tid mr ent :
  rawEntry tid mr = Some ent -> TTLMap.expiresAt ent < now ->
  liveState now tid mr = None.
Proof.
  intros Hraw Hlt. unfold liveState.
  now rewrite (@TTLMapFacts.get_expired _ now tid _ ent Hraw Hlt).
Qed.

Lemma liveState_absent now tid mr :
  rawEntry tid mr = None -> liveState now tid mr = None.
Proof.
  intros Hraw. unfold liveState. now rewrite (@TTLMapFacts.get_absent _ now tid _ Hraw).
Qed.

(** *** Histories of dispatches and retry signals *)

(** *** Other tasks' entries *)

Lemma goc_fst_raw now tid s1 s2 :
  JSMap.get tid (TTLMap.store s1) = JSMap.get tid (TTLMap.store s2) ->
  fst (getOrCreateRuntimeState now tid s1) = fst (getOrCreateRuntimeState now tid s2).
Proof.
  unfold getOrCreateRuntimeState, TTLMap.get. intros ->.
  destruct (JSMap.get tid (TTLMap.store s2)) as [e|]; [|reflexivity].
  now destruct (now >? TTLMap.expiresAt e).
Qed.

(** The decision for a task is a function of the configuration and of
    that task's own entry. *)
Lemma decision_depends_on_own_entry now task a b :
  sameConfig a b ->
  rawEntry (id task) a = rawEntry (id task) b ->
  fst (admitTask now task a) = fst (admitTask now task b).
Proof.
  intros Hcfg Hraw.
  destruct (admitTask_spec now task a) as [Ha _].
  destruct (admitTask_spec now task b) as [Hb _].
  rewrite Ha, Hb, (@goc_fst_raw now (id task) _ _ Hraw).
  symmetry. now apply verdict_sameConfig.
Qed.

Lemma goc_has now tid states :
  JSMap.has tid (TTLMap.store (snd (getOrCreateRuntimeState now tid states))) = true.
Proof.
  destruct (goc_raw now tid states) as [e He].
  apply JSMapFacts.has_get. eauto.
Qed.

(** [getOrCreateRuntimeState] for one key against another key's entry. *)
Lemma goc_other now tid other states :
  TTLMapSpec.wf states -> other <> tid ->
  let st0 := snd (TTLMap.get now tid states) in
  let st1 := snd (getOrCreateRuntimeState now tid states) in
  JSMap.get other (TTLMap.store st1) = JSMap.get other (TTLMap.store states)
  \/
  (fst (TTLMap.get now tid states) = None /\
   TTLMap.mustEvict tid st0 = true /\
   TTLMap.oldestKey st0 = Some other /\
   JSMap.get other (TTLMap.store st1) = None).
Proof.
  intros Hwf Hne st0 st1. subst st0 st1. unfold getOrCreateRuntimeState.
  pose proof (@TTLMapFacts.raw_get_other _ now tid other states Hne) as Hget.
  pose proof (@TTLMapFacts.wf_get _ now tid states Hwf) as Hwf'.
  destruct (TTLMap.get now tid states) as [[x|] st]; cbn [fst snd] in *.
  - now left.
  - destruct (@TTLMapFacts.raw_set_other _ now tid other
                (initialState now) None st Hwf' Hne) as [H|(H1 & H2 & H3)].
    + left. unfold initialState in H. now rewrite H.
    + right. unfold initialState in H3. auto.
Qed.

Lemma admitTask_other now task other mr :
  TTLMapSpec.wf (runtimeStates mr) -> other <> id task ->
  let st0 := snd (TTLMap.get now (id task) (runtimeStates mr)) in
  rawEntry other (snd (admitTask now task mr)) = rawEntry other mr
  \/
  (liveState now (id task) mr = None /\
   TTLMap.mustEvict (id task) st0 = true /\
   TTLMap.oldestKey st0 = Some other /\
   rawEntry other (snd (admitTask now task mr)) = None).
Proof.
  intros Hwf Hne st0.
  destruct (admitTask_spec now task mr) as (_ & Hst & _).
  assert (Hsame :
            rawEntry other (snd (admitTask now task mr)) =
            JSMap.get other
              (TTLMap.store (snd (getOrCreateRuntimeState now (id task) (runtimeStates mr))))).
  { unfold rawEntry. rewrite Hst.
    destruct (isDispatch _); [|reflexivity].
    apply TTLMapFacts.raw_set_other_noevict; [assumption|].
    unfold TTLMap.mustEvict. now rewrite goc_has, andb_false_r. }
  rewrite Hsame.
  destruct (@goc_other now (id task) other (runtimeStates mr) Hwf Hne)
    as [H|(H1 & H2 & H3 & H4)]; [now left | right; auto].
Qed.

Lemma wf_admitTask now task mr :
  TTLMapSpec.wf (runtimeStates mr) ->
  TTLMapSpec.wf (runtimeStates (snd (admitTask now task mr))).
Proof.
  intros Hwf. destruct (admitTask_spec now task mr) as (_ & Hst & _).
  rewrite Hst.
  assert (Hwf1 : TTLMapSpec.wf
                   (snd (getOrCreateRuntimeState now (id task) (runtimeStates mr)))).
  { unfold getOrCreateRuntimeState.
    pose proof (@TTLMapFacts.wf_get _ now (id task) (runtimeStates mr) Hwf) as H.
    destruct (TTLMap.get now (id task) (runtimeStates mr)) as [[x|] st];
      cbn [fst snd] in *; [assumption | now apply TTLMapFacts.wf_set]. }
  destruct (isDispatch _); [now apply TTLMapFacts.wf_set | assumption].
Qed.
(** *** Key uniqueness is an invariant of every instance *)

Lemma wf_created config mr :
  createMainRoutine config = Returned mr -> TTLMapSpec.wf (runtimeStates mr).
Proof.
  unfold createMainRoutine.
  destruct (defaultEnvelope config) as [env|]; [|discriminate].
  destruct (negb (isFrozen env)); [discriminate|].
  intros [= <-]. constructor.
Qed.

Lemma wf_signalRetry now tid mr :
  TTLMapSpec.wf (runtimeStates mr) ->
  TTLMapSpec.wf (runtimeStates (signalRetry now tid mr)).
Proof.
  intros Hwf. unfold signalRetry.
  pose proof (@TTLMapFacts.wf_get _ now tid (runtimeStates mr) Hwf) as H.
  destruct (TTLMap.get now tid (runtimeStates mr)) as [[x|] st];
    cbn [fst snd runtimeStates with_states] in *;
    [now apply TTLMapFacts.wf_set | assumption].
Qed.
End MainRoutineFacts.

Module DemoFacts.
Import Demo.

Lemma engineOf_created eligible drop pressure maxTracked :
  createMainRoutine (configOf eligible drop pressure maxTracked)
  = Returned (engineOf eligible drop pressure maxTracked).
Proof. reflexivity. Qed.
End DemoFacts.

Module AdmissionClaims.
Import MainRoutineSpec MainRoutineFacts Demo.

Lemma geb_false_lt a b : a < b -> (a >=? b) = false.
Proof. intros H. rewrite Z.geb_leb. apply Z.leb_gt. lia. Qed.

Lemma geb_true_le a b : b <= a -> (a >=? b) = true.
Proof. intros H. rewrite Z.geb_leb. apply Z.leb_le. lia. Qed.

(** With a non-empty candidate list and [allowDrop = false], the demo
    engine dispatches whatever has budget left. *)
Lemma demo_alwaysDispatchable eligible p cap task times :
  eligible <> [] ->
  alwaysDispatchable (engineOf eligible false p cap) task times.
Proof.
  intros Hne t rs _ H1 H2. unfold verdict.
  rewrite (@geb_false_lt _ _ H1), (@geb_false_lt _ _ H2).
  destruct eligible as [|c cs]; [contradiction|].
  cbn. unfold checkEligibility.
  rewrite (@geb_false_lt _ _ H1), (@geb_false_lt _ _ H2). cbn.
  reflexivity.
Qed.

(** C1, as stated, fails: one admission under pressure 0.95 with
    [allowDrop = true] is dropped, so after N = 1 call the stored
    [spawnCount] is 0 and not [min(1, spawnBudget) = 1]. *)
Lemma spawnCount_is_not_min_of_calls_and_budget :
  let mr := engineOf ["default"] true 0.95 None in
  let task := taskOf "task-1" None 5 3 in
  let r := admitAll [0] task mr in
  fst r = [Drop pressure_exceeded 0] /\
  option_map spawnCount (storedState "task-1" (snd r)) = Some 0 /\
  option_map spawnCount (storedState "task-1" (snd r)) <>
    Some (Z.min (Z.of_nat (List.length [0])) (spawnBudget (metadata task))).
Proof. vm_compute. repeat split. discriminate. Qed.

(** C1, amended.  For every task: (a) one call of [admit] stores the
    state it worked on, with [spawnCount] one higher exactly when the
    decision is dispatch; (b) on a live entry with
    [spawnCount >= spawnBudget] the decision is
    drop([spawn_budget_exhausted]) and the store is left as it was;
    (c) after N admissions that start without a live entry and all fall
    within the state TTL of the first, the stored [spawnCount] is the
    number of dispatch decisions among them, and it is
    [min(N, spawnBudget)] when the budget is not negative, the retry
    limit is positive and every admission that finds budget remaining is
    dispatched. *)
Theorem spawnCount_accounting :
  forall (mr : MainRoutine) (task : Task),
    (forall now,
        let rs := fst (getOrCreateRuntimeState now (id task) (runtimeStates mr)) in
        let r := admitTask now task mr in
        storedState (id task) (snd r) =
        Some (if isDispatch (fst r) then bump now rs else rs)) /\
    (forall now ent,
        rawEntry (id task) mr = Some ent ->
        now <= TTLMap.expiresAt ent ->
        spawnBudget (metadata task) <= spawnCount (TTLMap.value ent) ->
        fst (admitTask now task mr) =
          Drop spawn_budget_exhausted (retryDepth (TTLMap.value ent)) /\
        runtimeStates (snd (admitTask now task mr)) = runtimeStates mr) /\
    (forall t0 rest,
        liveState t0 (id task) mr = None ->
        (forall t, In t rest -> t0 <= t <= t0 + ttlOf mr) ->
        let r := admitAll (t0 :: rest) task mr in
        exists rs,
          storedState (id task) (snd r) = Some rs /\
          spawnCount rs = countDispatch (fst r) /\
          (0 <= spawnBudget (metadata task) ->
           0 < maxRetryDepth (metadata task) ->
           alwaysDispatchable mr task (t0 :: rest) ->
           spawnCount rs =
           Z.min (Z.of_nat (List.length (t0 :: rest))) (spawnBudget (metadata task)))).
Proof.
  intros mr task. split; [|split].
  - intros now rs r. subst rs r.
    destruct (admitTask_own_entry now task mr) as (_ & _ & _ & e & Hraw & _).
    unfold storedState. rewrite Hraw.
    now destruct (isDispatch (fst (admitTask now task mr))).
  - intros now ent Hraw Hle Hfull.
    destruct (@admitTask_live now task mr ent Hraw Hle) as (Hd & Hst & _).
    rewrite (@verdict_budget_exhausted mr now task _ Hfull) in Hd, Hst.
    split; [assumption | now apply Hst].
  - intros t0 rest Hnone Hin r. subst r. cbn [admitAll].
    destruct (@admitTask_fresh t0 task mr Hnone) as (Hd & Hraw & Httl & Hcfg).
    destruct (admitTask t0 task mr) as [d mr1]. cbn [fst snd] in *.
    destruct (@admitAll_live task t0 (t0 + ttlOf mr) rest mr1 _ Hraw
                ltac:(cbn; lia) ltac:(lia) Hin) as (ent' & He' & Hcount & Hmin).
    destruct (admitAll rest task mr1) as [ds mr2]. cbn [fst snd] in *.
    exists (TTLMap.value ent'). unfold storedState. rewrite He'.
    split; [reflexivity|].
    unfold countDispatch in *. cbn [filter]. rewrite <- Hd in *.
    assert (Hdis_rest : alwaysDispatchable mr task (t0 :: rest) ->
                        alwaysDispatchable mr1 task rest).
    { intros Hdis t rs Ht H1 H2. rewrite (verdict_sameConfig _ _ _ Hcfg).
      apply Hdis; [now right | assumption | assumption]. }
    destruct (isDispatch d) eqn:Hdisp;
      cbn [entry bump initialState TTLMap.value spawnCount retryDepth List.length] in *.
    + split; [lia|]. intros Hb Hr Hdis.
      assert (Hv : verdict mr t0 task (initialState t0) = Dispatch)
        by (rewrite <- Hd; destruct d; try discriminate; reflexivity).
      apply verdict_dispatch_budget in Hv. cbn in Hv.
      rewrite Hmin; [lia | lia | lia | auto].
    + split; [lia|]. intros Hb Hr Hdis.
      assert (Hzero : spawnBudget (metadata task) = 0).
      { destruct (Z.eq_dec (spawnBudget (metadata task)) 0) as [|Hne]; [assumption|].
        rewrite Hd, (Hdis t0 (initialState t0)) in Hdisp;
          [discriminate | now left | cbn; lia | cbn; lia]. }
      rewrite Hmin; [lia | lia | lia | auto].
Qed.

(** An instance: budget 2, three admissions 10 ms apart, no pressure. *)
Lemma spawnCount_accounting_witness :
  exists rs,
    storedState "task-1"
      (snd (admitAll [0; 10; 20] (taskOf "task-1" None 2 3)
                     (engineOf ["default"] false 0 None))) = Some rs /\
    spawnCount rs = Z.min 3 2.
Proof.
  destruct (spawnCount_accounting (engineOf ["default"] false 0 None)
                                  (taskOf "task-1" None 2 3)) as (_ & _ & Hc).
  destruct (Hc 0 [10; 20]) as (rs & H1 & _ & H3).
  - reflexivity.
  - intros t [<-|[<-|[]]]; cbn; lia.
  - exists rs. split; [exact H1|].
    apply H3; [cbn; lia | cbn; lia |].
    apply demo_alwaysDispatchable. discriminate.
Defined.
(** C2, as stated, fails in its last part: with budget 1 and retry limit
    1, after one dispatch and one retry signal the retry depth has
    reached its limit, yet the next admission is dropped with
    [spawn_budget_exhausted], because the spawn check comes first. *)
Lemma exhausted_retry_depth_reported_as_spawn_budget :
  let task := taskOf "task-1" None 1 1 in
  let mr1 := snd (admitTask 0 task (engineOf ["default"] true 0 None)) in
  let mr2 := signalRetry 1 "task-1" mr1 in
  option_map retryDepth (liveState 2 "task-1" mr2) = Some 1 /\
  maxRetryDepth (metadata task) = 1 /\
  fst (admitTask 2 task mr2) = Drop spawn_budget_exhausted 1 /\
  fst (admitTask 2 task mr2) <> Drop retry_depth_exhausted 1.
Proof. vm_compute. repeat split. discriminate. Qed.

(** C2, amended.  (a) [signalRetry] on a live entry stores the state
    with [retryDepth] one higher, everything else kept, and a fresh
    expiry; (b) on an id that is not stored it changes nothing; (c) on
    an expired id it only removes the dead entry: no counter changes and
    what [get] answers, for any id at any later instant, is unchanged;
    (d) on a live entry with [retryDepth >= maxRetryDepth] the next
    [admit] returns drop, with reason [retry_depth_exhausted] when
    [spawnCount < spawnBudget] and [spawn_budget_exhausted] otherwise. *)
Theorem retryDepth_accounting :
  forall (mr : MainRoutine) (tid : TaskID) (now : Z),
    (forall ent,
        rawEntry tid mr = Some ent -> now <= TTLMap.expiresAt ent ->
        rawEntry tid (signalRetry now tid mr) =
          Some (entry (retried (TTLMap.value ent)) (now + ttlOf mr)) /\
        retryDepth (retried (TTLMap.value ent)) = retryDepth (TTLMap.value ent) + 1 /\
        spawnCount (retried (TTLMap.value ent)) = spawnCount (TTLMap.value ent)) /\
    (rawEntry tid mr = None -> signalRetry now tid mr = mr) /\
    (forall ent,
        TTLMapSpec.wf (runtimeStates mr) ->
        rawEntry tid mr = Some ent -> TTLMap.expiresAt ent < now ->
        rawEntry tid (signalRetry now tid mr) = None /\
        (forall tid', tid' <> tid ->
                      rawEntry tid' (signalRetry now tid mr) = rawEntry tid' mr) /\
        (forall tid' now', now <= now' ->
                           liveState now' tid' (signalRetry now tid mr) =
                           liveState now' tid' mr)) /\
    (forall task ent,
        id task = tid ->
        rawEntry tid mr = Some ent -> now <= TTLMap.expiresAt ent ->
        maxRetryDepth (metadata task) <= retryDepth (TTLMap.value ent) ->
        fst (admitTask now task mr) =
          Drop (if spawnCount (TTLMap.value ent) >=? spawnBudget (metadata task)
                then spawn_budget_exhausted else retry_depth_exhausted)
               (retryDepth (TTLMap.value ent))).
Proof.
  intros mr tid now. repeat split.
  - now destruct (@signalRetry_live now tid mr ent H H0) as (_ & Hraw & _).
  - apply signalRetry_absent.
  - destruct (@signalRetry_expired now tid mr ent H0 H1) as [Hst _].
    unfold rawEntry. rewrite Hst. cbn.
    now apply JSMapFacts.get_delete_same.
  - intros tid' Hne.
    destruct (@signalRetry_expired now tid mr ent H0 H1) as [Hst _].
    unfold rawEntry. rewrite Hst. cbn.
    now apply JSMapFacts.get_delete_other.
  - intros tid' now' Hle.
    destruct (@signalRetry_expired now tid mr ent H0 H1) as [Hst _].
    destruct (String.eqb_spec tid' tid) as [->|Hne].
    + rewrite (@liveState_expired now' tid mr ent H0 ltac:(lia)).
      apply liveState_absent. unfold rawEntry. rewrite Hst. cbn.
      now apply JSMapFacts.get_delete_same.
    + apply liveState_raw. unfold rawEntry. rewrite Hst. cbn.
      now apply JSMapFacts.get_delete_other.
  - intros task ent <- Hraw Hle Hmax.
    destruct (@admitTask_live now task mr ent Hraw Hle) as (Hd & _).
    rewrite Hd. unfold verdict.
    destruct (spawnCount (TTLMap.value ent) >=? spawnBudget (metadata task));
      [reflexivity|].
    now rewrite (@geb_true_le _ _ Hmax).
Qed.

(** An instance of (d): budget 5, retry limit 1, one dispatch, one
    retry signal, then the admission is dropped for retry depth. *)
Lemma retryDepth_accounting_witness :
  fst (admitTask 2 (taskOf "task-1" None 5 1)
         (signalRetry 1 "task-1"
            (snd (admitTask 0 (taskOf "task-1" None 5 1)
                    (engineOf ["default"] true 0 None)))))
  = Drop retry_depth_exhausted 1.
Proof.
  pose (mr2 := signalRetry 1 "task-1"
                 (snd (admitTask 0 (taskOf "task-1" None 5 1)
                         (engineOf ["default"] true 0 None)))).
  destruct (retryDepth_accounting mr2 "task-1" 2) as (_ & _ & _ & Hd).
  exact (Hd (taskOf "task-1" None 5 1)
            (entry {| spawnCount := 1; retryDepth := 1; lastAttemptAt := 0 |} 300001)
            eq_refl eq_refl ltac:(cbn; lia) ltac:(cbn; lia)).
Defined.

(** C3, as stated, fails at the boundary: with [allowDrop = true] and
    all three metrics at 0.9 the mean is 0.9, which is [>= 0.9], and
    the task is dispatched: the gate is the strict [avgPressure > 0.9]. *)
Lemma mean_pressure_at_threshold_is_dispatched :
  let mr := engineOf ["default"] true 0.9 None in
  let task := taskOf "task-1" None 5 3 in
  allowDrop (resolveEnvelope mr task) = true /\
  avgPressure (snapshot (mrAmigdala mr) 0) = 0.9%float /\
  (0.9 <=? avgPressure (snapshot (mrAmigdala mr) 0))%float = true /\
  fst (admitTask 0 task mr) = Dispatch /\
  fst (admitTask 0 task mr) <> Drop pressure_exceeded 0.
Proof. vm_compute. repeat split. discriminate. Qed.

(** C3, amended.  Let [rs] be the state [admit] works on.  (a) With
    [allowDrop = false], [admit] never returns
    drop([pressure_exceeded]), and when budget and retry depth remain
    and the distributor selects a group it returns dispatch, whatever
    the pressure; (b) with [allowDrop = true], budget and retry depth
    remaining and a mean pressure strictly above 0.9, it returns
    drop([pressure_exceeded]); (c) when the mean is not strictly above
    0.9 it never returns drop([pressure_exceeded]). *)
Theorem pressure_gate_mask_semantics :
  forall (mr : MainRoutine) (now : Z) (task : Task),
    let envelope := resolveEnvelope mr task in
    let rs := fst (getOrCreateRuntimeState now (id task) (runtimeStates mr)) in
    let pressure := snapshot (mrAmigdala mr) now in
    (allowDrop envelope = false ->
     (forall depth, fst (admitTask now task mr) <> Drop pressure_exceeded depth) /\
     (spawnCount rs < spawnBudget (metadata task) ->
      retryDepth rs < maxRetryDepth (metadata task) ->
      distSelect (mrDistributor mr) task envelope rs pressure <> None ->
      fst (admitTask now task mr) = Dispatch)) /\
    (allowDrop envelope = true ->
     spawnCount rs < spawnBudget (metadata task) ->
     retryDepth rs < maxRetryDepth (metadata task) ->
     (0.9 <? avgPressure pressure)%float = true ->
     fst (admitTask now task mr) = Drop pressure_exceeded (retryDepth rs)) /\
    ((0.9 <? avgPressure pressure)%float = false ->
     forall depth, fst (admitTask now task mr) <> Drop pressure_exceeded depth).
Proof.
  intros mr now task envelope rs pressure.
  destruct (admitTask_spec now task mr) as [Hd _]. fold rs in Hd.
  rewrite Hd. unfold verdict. fold envelope pressure.
  split; [|split].
  - intros Hmask. rewrite Hmask. cbn [andb]. split.
    + intros depth.
      destruct (spawnCount rs >=? spawnBudget (metadata task)); [discriminate|].
      destruct (retryDepth rs >=? maxRetryDepth (metadata task)); [discriminate|].
      destruct (distSelect (mrDistributor mr) task envelope rs pressure); discriminate.
    + intros H1 H2 Hsel.
      rewrite (@geb_false_lt _ _ H1), (@geb_false_lt _ _ H2).
      destruct (distSelect (mrDistributor mr) task envelope rs pressure);
        [reflexivity | contradiction].
  - intros Hmask H1 H2 Hp.
    now rewrite (@geb_false_lt _ _ H1), (@geb_false_lt _ _ H2), Hmask, Hp.
  - intros Hp depth. rewrite Hp, andb_false_r.
    destruct (spawnCount rs >=? spawnBudget (metadata task)); [discriminate|].
    destruct (retryDepth rs >=? maxRetryDepth (metadata task)); [discriminate|].
    destruct (distSelect (mrDistributor mr) task envelope rs pressure); discriminate.
Qed.

(** Instances: the two drop-gate tests of the suite, at pressure 0.95. *)
Lemma pressure_gate_witness :
  fst (admitTask 0 (taskOf "task-1" None 5 3) (engineOf ["default"] false 0.95 None))
    = Dispatch /\
  fst (admitTask 0 (taskOf "task-1" None 5 3) (engineOf ["default"] true 0.95 None))
    = Drop pressure_exceeded 0.
Proof.
  split.
  - destruct (pressure_gate_mask_semantics
                (engineOf ["default"] false 0.95 None) 0 (taskOf "task-1" None 5 3))
      as (Ha & _ & _).
    destruct (Ha eq_refl) as [_ Hdisp].
    apply Hdisp; [cbn; lia | cbn; lia | discriminate].
  - destruct (pressure_gate_mask_semantics
                (engineOf ["default"] true 0.95 None) 0 (taskOf "task-1" None 5 3))
      as (_ & Hb & _).
    apply Hb; [reflexivity | cbn; lia | cbn; lia | vm_compute; reflexivity].
Defined.

(** Once the envelope is resolved, every path of [admit] ends in a
    dispatch or a drop; retry and escalate are never produced. *)
Lemma admit_returns_dispatch_or_drop :
  forall (now : Z) (task : Task) (mr : MainRoutine),
  exists d mr',
    admitTask now task mr = (d, mr') /\
    (d = Dispatch \/ exists reason depth, d = Drop reason depth) /\
    (forall depth, d <> Retry depth /\ d <> Escalate depth).
Proof.
  intros now task mr.
  exists (fst (admitTask now task mr)), (snd (admitTask now task mr)).
  split; [now destruct (admitTask now task mr)|].
  destruct (admitTask_spec now task mr) as [Hd _]. rewrite Hd. unfold verdict.
  set (rs := fst (getOrCreateRuntimeState now (id task) (runtimeStates mr))).
  destruct (spawnCount rs >=? spawnBudget (metadata task));
    [split; [right; eauto | split; discriminate]|].
  destruct (retryDepth rs >=? maxRetryDepth (metadata task));
    [split; [right; eauto | split; discriminate]|].
  destruct (allowDrop (resolveEnvelope mr task) && _);
    [split; [right; eauto | split; discriminate]|].
  destruct (distSelect _ _ _ _ _);
    split; try (split; discriminate); [now left | right; eauto].
Qed.

(** C9, as stated, fails: with room for one tracked task, admitting B
    evicts A's entry.  A had exhausted its budget of 1 and would have
    been dropped; after B's admission A's counters are gone and A is
    dispatched again. *)
Lemma admission_of_another_task_evicts_and_changes_decision :
  let taskA := taskOf "A" None 1 3 in
  let taskB := taskOf "B" None 1 3 in
  let mrA := snd (admitTask 0 taskA (engineOf ["default"] true 0 (Some 1))) in
  let mrAB := snd (admitTask 1 taskB mrA) in
  option_map spawnCount (storedState "A" mrA) = Some 1 /\
  storedState "A" mrAB = None /\
  fst (admitTask 2 taskA mrA) = Drop spawn_budget_exhausted 0 /\
  fst (admitTask 2 taskA mrAB) = Dispatch /\
  storedState "A" mrAB <> storedState "A" mrA /\
  fst (admitTask 2 taskA mrAB) <> fst (admitTask 2 taskA mrA).
Proof. vm_compute. repeat split; discriminate. Qed.

(** C9, amended.  For distinct ids A and B: (a) an [admit] for B leaves
    A's stored entry exactly as it was, or else removes it whole, and
    the latter only when B has no live entry, the store is at capacity
    and A holds the least expiry; A's counters are never rewritten;
    (b) when B has a live entry or the store is below capacity, A's
    entry is untouched; (c) while A's entry is untouched, so is the
    decision A receives at any instant; (d) the decision for B depends
    on the configuration and on B's own entry only. *)
Theorem admission_isolation_up_to_eviction :
  forall (mr : MainRoutine) (now : Z) (taskB : Task) (A : TaskID),
    TTLMapSpec.wf (runtimeStates mr) ->
    A <> id taskB ->
    let mr' := snd (admitTask now taskB mr) in
    let st0 := snd (TTLMap.get now (id taskB) (runtimeStates mr)) in
    (rawEntry A mr' = rawEntry A mr \/
     (rawEntry A mr' = None /\
      liveState now (id taskB) mr = None /\
      TTLMap.maxSize st0 <= TTLMap.size st0 /\
      TTLMap.oldestKey st0 = Some A)) /\
    (liveState now (id taskB) mr <> None \/
     TTLMap.size (runtimeStates mr) < TTLMap.maxSize (runtimeStates mr) ->
     rawEntry A mr' = rawEntry A mr) /\
    (rawEntry A mr' = rawEntry A mr ->
     forall now' taskA,
       id taskA = A ->
       fst (admitTask now' taskA mr') = fst (admitTask now' taskA mr)) /\
    (forall other,
        sameConfig mr other ->
        rawEntry (id taskB) other = rawEntry (id taskB) mr ->
        fst (admitTask now taskB other) = fst (admitTask now taskB mr)).
Proof.
  intros mr now taskB A Hwf Hne mr' st0. subst mr' st0.
  pose proof (@admitTask_other now taskB A mr Hwf Hne) as Hother.
  cbn zeta in Hother.
  assert (Hguard :
            TTLMap.mustEvict (id taskB)
              (snd (TTLMap.get now (id taskB) (runtimeStates mr))) = true ->
            TTLMap.maxSize (snd (TTLMap.get now (id taskB) (runtimeStates mr)))
            <= TTLMap.size (snd (TTLMap.get now (id taskB) (runtimeStates mr)))).
  { unfold TTLMap.mustEvict, TTLMap.size. intros H.
    apply andb_prop in H. destruct H as [H _].
    rewrite Z.geb_leb in H. now apply Z.leb_le in H. }
  split; [|split; [|split]].
  - destruct Hother as [H|(H1 & H2 & H3 & H4)]; [now left|].
    right. auto.
  - intros Hroom.
    destruct Hother as [H|(H1 & H2 & H3 & H4)]; [assumption|].
    exfalso. destruct Hroom as [Hlive|Hsize]; [contradiction|].
    apply Hguard in H2.
    pose proof (TTLMapFacts.size_get now (id taskB) (runtimeStates mr)).
    pose proof (TTLMapFacts.maxSize_get now (id taskB) (runtimeStates mr)).
    lia.
  - intros Hsame now' taskA <-.
    apply decision_depends_on_own_entry; [|assumption].
    unfold sameConfig.
    destruct (admitTask_spec now taskB mr) as (_ & _ & Hcfg).
    unfold sameConfig in Hcfg. intuition congruence.
  - intros other Hcfg Hraw.
    apply decision_depends_on_own_entry; [|assumption].
    unfold sameConfig in *. intuition congruence.
Qed.

(** An instance of (b) and (c): with the default capacity of 10000,
    admitting B leaves A's exhausted budget in force. *)
Lemma admission_isolation_witness :
  let taskA := taskOf "A" None 1 3 in
  let taskB := taskOf "B" None 1 3 in
  let mrA := snd (admitTask 0 taskA (engineOf ["default"] true 0 None)) in
  let mrAB := snd (admitTask 1 taskB mrA) in
  rawEntry "A" mrAB = rawEntry "A" mrA /\
  fst (admitTask 2 taskA mrAB) = fst (admitTask 2 taskA mrA).
Proof.
  intros taskA taskB mrA mrAB.
  assert (Hwf : TTLMapSpec.wf (runtimeStates mrA)).
  { unfold TTLMapSpec.wf. cbn. repeat constructor. intros []. }
  destruct (@admission_isolation_up_to_eviction mrA 1 taskB "A" Hwf
              ltac:(discriminate)) as (_ & Hb & Hc & _).
  assert (Hraw : rawEntry "A" mrAB = rawEntry "A" mrA).
  { apply Hb. right. cbn. lia. }
  split; [exact Hraw|].
  exact (Hc Hraw 2 taskA eq_refl).
Defined.
End AdmissionClaims.

Module SelectionClaims.
Import MainRoutineSpec Demo.

(** The policy-level short-circuit: no candidate, no selection, whatever
    the strategy. *)
Lemma empty_candidates_select_null config task envelope runtimeState pressure :
  eligibleCandidates envelope = [] ->
  distSelect (createCircuitDistributor config) task envelope runtimeState pressure
  = None.
Proof. intros H. cbn. now rewrite H. Qed.

Lemma composed_select strategies :
  exists s, composeStrategies strategies = Returned s /\
            select s = firstSelected strategies.
Proof. eexists. split; reflexivity. Qed.

(** C4, on the code: the envelope lists only ["fast"], the task's intent
    maps to ["slow"]; the distributor returns a group whose primary was
    created for ["slow"], and [admit] dispatches there.  (An envelope
    with no candidate at all does yield [null], first conjunct.) *)
Theorem ineligible_destination_is_selected :
  let envelope := envelopeOf ["fast"] true in
  let task := taskOf "task-1" (Some "slow") 5 3 in
  let mr := engineOf ["fast"] true 0 None in
  distSelect (distributorOf intentStrategy) task (envelopeOf [] true)
             (initialState 0) (snapshot (mrAmigdala mr) 0) = None /\
  (exists group,
      distSelect (distributorOf intentStrategy) task envelope
                 (initialState 0) (snapshot (mrAmigdala mr) 0) = Some group /\
      routeId (dispatch (primary group) task) = "slow") /\
  ~ In "slow" (eligibleCandidates envelope) /\
  fst (admitTask 0 task mr) = Dispatch /\
  map routeId (dispatched (snd (admitTask 0 task mr))) = ["slow"].
Proof.
  cbv zeta. split; [reflexivity|]. split; [eexists; split; reflexivity|].
  split; [|split; vm_compute; reflexivity].
  cbn. intros [H|[]]. discriminate.
Qed.
End SelectionClaims.

Module ConstructionClaims.
Import MainRoutineSpec MainRoutineFacts Demo.



End ConstructionClaims.

Module ResolverClaims.
Import MainRoutineSpec Demo Resolver.

(** [resolve] answers with an inherited member exactly for the names of
    [Object.prototype] that the mapping does not store itself. *)
Lemma createEnvelopeResolver_inherited map intent key :
  createEnvelopeResolver map intent = Inherited key <->
  JSMap.get intent map = None /\ In intent objectPrototypeKeys /\ key = intent.
Proof.
  unfold createEnvelopeResolver.
  destruct (JSMap.get intent map) as [envelope|].
  - split; [discriminate | intros [H _]; discriminate].
  - destruct (existsb (String.eqb intent) objectPrototypeKeys) eqn:Hex.
    + apply existsb_exists in Hex. destruct Hex as (k & Hin & Hk).
      apply String.eqb_eq in Hk. subst k.
      split; [intros [= <-]; auto | intros (_ & _ & ->); reflexivity].
    + split; [discriminate|]. intros (_ & Hin & _).
      assert (Hex' : existsb (String.eqb intent) objectPrototypeKeys = true)
        by (apply existsb_exists; exists intent; split;
            [assumption | apply String.eqb_refl]).
      congruence.
Qed.

(** The resolver keeps to its declared type exactly on the other
    intents: a stored envelope, or [null]. *)
Lemma createEnvelopeResolver_declared map intent :
  ~ In intent objectPrototypeKeys ->
  createEnvelopeResolver map intent
  = match JSMap.get intent map with Some envelope => Stored envelope | None => Null end.
Proof.
  intros Hn. unfold createEnvelopeResolver.
  destruct (JSMap.get intent map); [reflexivity|].
  destruct (existsb (String.eqb intent) objectPrototypeKeys) eqn:Hex; [|reflexivity].
  apply existsb_exists in Hex. destruct Hex as (k & Hin & Hk).
  apply String.eqb_eq in Hk. subst k. contradiction.
Qed.

(** [admit] throws exactly when the resolver answers with an inherited
    member; otherwise it returns a dispatch or a drop. *)
Lemma admitResolved_cases resolve now task mr :
  let i := match intent (metadata task) with Some i => i | None => "" end in
  ((exists key, resolve i = Inherited key) ->
   exists message, admitResolved resolve now task mr = Thrown message) /\
  ((forall key, resolve i <> Inherited key) ->
   exists d mr',
     admitResolved resolve now task mr = Returned (d, mr') /\
     (d = Dispatch \/ exists reason depth, d = Drop reason depth)).
Proof.
  intros i. unfold admitResolved. fold i. split.
  - intros [key ->]. eauto.
  - intros Hn.
    destruct (AdmissionClaims.admit_returns_dispatch_or_drop now task mr)
      as (d & mr' & Heq & Hd & _).
    exists d, mr'. rewrite Heq.
    destruct (resolve i) as [envelope|key|];
      [auto | exfalso; now apply (Hn key) | auto].
Qed.

(** C5, on the code: the resolver is built by [createEnvelopeResolver]
    over an empty mapping and the task's intent is ["constructor"].
    The lookup [frozen[intent]] finds the inherited [constructor], the
    fallback to the default envelope is skipped, and [admit] throws a
    [TypeError] on [envelope.eligibleCandidates.length] instead of
    returning a decision. *)
Theorem admit_throws_on_an_inherited_intent :
  createEnvelopeResolver [] "constructor" = Inherited "constructor" /\
  match createMainRoutine
          {| amigdala := createAmigdala None;
             distributor := distributorOf intentStrategy;
             registryCount := 3;
             envelopeResolver := declared (createEnvelopeResolver []);
             defaultEnvelope := Some (envelopeOf ["default"] true);
             stateTTL := None;
             maxTrackedTasks := None;
             onDecision := false |} with
  | Returned mr =>
      admitResolved (createEnvelopeResolver []) 0
                    (taskOf "task-1" (Some "constructor") 5 3) mr
      = Thrown "TypeError: Cannot read properties of undefined (reading 'length')"
  | Thrown _ => False
  end.
Proof.
  split; reflexivity.
Qed.
End ResolverClaims.


(* ================================================================== *)
(** * Further properties of the code *)

(** ** The TTL map: round trip, lazy expiry, pruning, eviction order *)

Module TTLMapMore.
Import TTLMap TTLMapSpec MoreSpec.
Section More.
Variable V : Type.
Implicit Types (m : TTLMap.t V) (l : JSMap.t (TTLEntry V)).

Lemma notin_get_None (E : Type) (k : string) (l0 : JSMap.t E) :
  ~ In k (JSMap.keys l0) -> JSMap.get k l0 = None.
Proof.
  induction l0 as [|[k' e'] l0 IH]; simpl; [reflexivity|].
  intros Hn. destruct (String.eqb_spec k k') as [->|Hne]; [tauto|].
  apply IH. tauto.
Qed.

Lemma keys_filter_incl (E : Type) (f : string * E -> bool) (l0 : JSMap.t E) x :
  In x (JSMap.keys (filter f l0)) -> In x (JSMap.keys l0).
Proof.
  unfold JSMap.keys. rewrite !in_map_iff. intros [y [Hy Hin]].
  exists y. split; [assumption|]. now apply filter_In in Hin.
Qed.

Lemma length_filter_split (A : Type) (f : A -> bool) (l0 : Datatypes.list A) :
  (List.length l0 =
   List.length (filter f l0) + List.length (filter (fun x => negb (f x)) l0))%nat.
Proof.
  induction l0 as [|x l0 IH]; [reflexivity|].
  cbn [filter]. destruct (f x); cbn [negb List.length]; lia.
Qed.

Lemma filter_idem (A : Type) (f : A -> bool) (l0 : Datatypes.list A) :
  filter f (filter f l0) = filter f l0.
Proof.
  induction l0 as [|x l0 IH]; [reflexivity|].
  cbn [filter]. destruct (f x) eqn:Hx; [|assumption].
  cbn [filter]. now rewrite Hx, IH.
Qed.

(** Looking a key up after filtering on the entries. *)
Lemma get_filter (E : Type) (f : E -> bool) (k : string) (l0 : JSMap.t E) :
  NoDup (JSMap.keys l0) ->
  JSMap.get k (filter (fun ke => f (snd ke)) l0) =
  match JSMap.get k l0 with
  | Some e => if f e then Some e else None
  | None => None
  end.
Proof.
  induction l0 as [|[k' e'] l0 IH]; simpl; [reflexivity|].
  intros Hnd. inversion Hnd as [|? ? Hnotin Hnd']; subst.
  destruct (f e') eqn:Hf; simpl.
  - destruct (String.eqb_spec k k') as [->|Hne]; [now rewrite Hf | auto].
  - destruct (String.eqb_spec k k') as [->|Hne]; [|auto].
    rewrite Hf. apply notin_get_None. intros Hin. apply Hnotin.
    eapply keys_filter_incl. exact Hin.
Qed.

(** X1.  [set] then [get] of the same key: until the expiry that the
    [set] computed ([now] plus the given TTL, or the default one) [get]
    answers the value just written and leaves the store alone; after it
    [get] answers [undefined]. *)
Theorem set_then_get :
  forall (now now' : Z) (key : string) (v : V) (ttl : option Z) m,
    let m' := set now key v ttl m in
    let expiry := now + match ttl with Some x => x | None => defaultTTL m end in
    JSMap.has key (store m') = true /\
    (now' <= expiry -> get now' key m' = (Some v, m')) /\
    (expiry < now' -> fst (get now' key m') = None).
Proof.
  intros now now' key v ttl m m' expiry. subst m' expiry.
  pose proof (TTLMapFacts.raw_set_same now key v ttl m) as Hraw.
  split; [apply JSMapFacts.has_get; eauto|]. split.
  - intros Hle.
    exact (@TTLMapFacts.get_live V now' key _ _ Hraw Hle).
  - intros Hlt.
    now rewrite (@TTLMapFacts.get_expired V now' key _ _ Hraw Hlt).
Qed.

(** X2.  An expired entry stays in the store, and in [size], until it
    is touched: [has] denies it while [delete] still reports a removal;
    a [get] (or [has]) removes exactly that entry and no other. *)
Theorem expired_entry_is_removed_on_access :
  forall (now : Z) (key : string) m ent,
    wf m ->
    JSMap.get key (store m) = Some ent ->
    expiresAt ent < now ->
    fst (has now key m) = false /\
    fst (delete key m) = true /\
    snd (has now key m) = snd (get now key m) /\
    size (snd (get now key m)) = size m - 1 /\
    JSMap.get key (store (snd (get now key m))) = None /\
    (forall key', key' <> key ->
       JSMap.get key' (store (snd (get now key m))) = JSMap.get key' (store m)).
Proof.
  intros now key m ent Hwf Hg Hlt.
  assert (Hh : JSMap.has key (store m) = true) by (apply JSMapFacts.has_get; eauto).
  unfold has. rewrite (@TTLMapFacts.get_expired V now key m ent Hg Hlt). cbn.
  repeat split.
  - exact Hh.
  - unfold size, JSMap.size. cbn. rewrite JSMapFacts.length_delete, Hh.
    apply JSMapFacts.get_In in Hg. destruct (store m); [contradiction|].
    cbn [List.length pred]. lia.
  - now apply JSMapFacts.get_delete_same.
  - intros key' Hne. now apply JSMapFacts.get_delete_other.
Qed.

Lemma fst_get_raw now key m :
  fst (get now key m) =
  match JSMap.get key (store m) with
  | Some e => if now >? expiresAt e then None else Some (value e)
  | None => None
  end.
Proof.
  unfold get. destruct (JSMap.get key (store m)) as [e|]; [|reflexivity].
  now destruct (now >? expiresAt e).
Qed.

(** X3.  [prune()] returns the number of expired entries, keeps the
    live ones in their order, changes no answer of [get] at that
    instant or later, and pruning again removes nothing. *)
Theorem prune_removes_exactly_the_expired :
  forall (now : Z) m,
    wf m ->
    let n := fst (prune now m) in
    let m' := snd (prune now m) in
    store m' = filter (@liveAt V now) (store m) /\
    n = Z.of_nat (List.length (filter (fun ke => negb (liveAt now ke)) (store m))) /\
    size m' = size m - n /\
    (forall key now', now <= now' -> fst (get now' key m') = fst (get now' key m)) /\
    prune now m' = (0, m').
Proof.
  intros now m Hwf n m'. subst n m'. unfold prune. cbn [fst snd store with_store].
  change (fun ke : string * TTLEntry V => negb (now >? expiresAt (snd ke)))
    with (@liveAt V now).
  pose proof (length_filter_split (@liveAt V now) (store m)) as Hlen.
  split; [reflexivity|]. unfold size, JSMap.size. cbn [store with_store].
  split; [lia|]. split; [lia|]. split.
  - intros key now' Hle. rewrite !fst_get_raw. cbn [store with_store].
    unfold liveAt.
    rewrite (@get_filter _ (fun e => negb (now >? expiresAt e)) key (store m) Hwf).
    destruct (JSMap.get key (store m)) as [e|]; [|reflexivity].
    destruct (now >? expiresAt e) eqn:Hx; cbn [negb]; [|reflexivity].
    destruct (now' >? expiresAt e) eqn:Hy; [reflexivity|].
    rewrite Z.gtb_ltb in Hx, Hy. apply Z.ltb_lt in Hx. apply Z.ltb_ge in Hy. lia.
  - rewrite filter_idem. f_equal. lia.
Qed.

(** The scan of [evictOldest], with the position of the chosen entry. *)
Lemma scanOldest_position l : forall ok oe,
  accOK ok oe ->
  match scanOldest l ok oe with
  | None => l = [] /\ ok = None
  | Some k =>
      (ok = Some k /\
       forall k' e' o, In (k', e') l -> oe = Some o -> o <= expiresAt e')
      \/
      (exists l1 ent l2,
          l = (l1 ++ (k, ent) :: l2)%list /\
          (forall k' e', In (k', e') l1 -> expiresAt ent < expiresAt e') /\
          (forall k' e', In (k', e') l2 -> expiresAt ent <= expiresAt e') /\
          (forall o, oe = Some o -> expiresAt ent < o))
  end.
Proof.
  induction l as [|[key entry] rest IH]; intros ok oe Hacc; simpl.
  - destruct ok as [k|]; [left; split; [reflexivity | intros ? ? ? []] | auto].
  - set (below := match oe with None => true | Some o => expiresAt entry <? o end).
    destruct below eqn:Hb; subst below.
    + specialize (IH (Some key) (Some (expiresAt entry)) I).
      destruct (scanOldest rest (Some key) (Some (expiresAt entry))) as [k|].
      * right. destruct IH as [[Hk Hmin]|(l1 & ent & l2 & Heq & H1 & H2 & Hlt)].
        -- injection Hk as <-. exists [], entry, rest. split; [reflexivity|].
           split; [intros ? ? []|]. split.
           ++ intros k' e' Hin. eapply Hmin; eauto.
           ++ intros o ->. now apply Z.ltb_lt.
        -- exists ((key, entry) :: l1), ent, l2. subst rest.
           specialize (Hlt _ eq_refl). split; [reflexivity|]. split.
           ++ intros k' e' [Heq|Hin]; [injection Heq as <- <-; lia | eauto].
           ++ split; [assumption|]. intros o ->. apply Z.ltb_lt in Hb. lia.
      * destruct IH as [_ Habs]. discriminate.
    + destruct oe as [o|]; [|discriminate].
      destruct ok as [k0|]; [|contradiction].
      apply Z.ltb_ge in Hb.
      specialize (IH (Some k0) (Some o) I).
      destruct (scanOldest rest (Some k0) (Some o)) as [k|].
      * destruct IH as [[Hk Hmin]|(l1 & ent & l2 & Heq & H1 & H2 & Hlt)].
        -- left. split; [assumption|].
           intros k' e' o' [Heq|Hin] [= <-];
             [injection Heq as <- <-; lia | eapply Hmin; eauto].
        -- right. exists ((key, entry) :: l1), ent, l2. subst rest.
           specialize (Hlt _ eq_refl). split; [reflexivity|]. split.
           ++ intros k' e' [Heq|Hin]; [injection Heq as <- <-; lia | eauto].
           ++ split; [assumption|]. intros o' [= <-]. assumption.
      * destruct IH as [_ Habs]. discriminate.
Qed.

(** X4.  Ties are not broken arbitrarily: when a [set] has to evict,
    the entry removed is the first, in insertion order, among those of
    least expiry; every entry inserted before it expires strictly
    later. *)
Theorem eviction_takes_the_earliest_inserted_of_least_expiry :
  forall (now : Z) (key : string) (v : V) (ttl : option Z) m,
    mustEvict key m = true ->
    store m <> [] ->
    exists l1 k ent l2,
      store m = (l1 ++ (k, ent) :: l2)%list /\
      (forall k' e', In (k', e') l1 -> expiresAt ent < expiresAt e') /\
      (forall k' e', In (k', e') l2 -> expiresAt ent <= expiresAt e') /\
      oldestKey m = Some k /\
      (wf m ->
       store (set now key v ttl m) =
       (l1 ++ l2 ++ [(key, written m now v ttl)])%list).
Proof.
  intros now key v ttl m Hev Hne.
  pose proof (scanOldest_position (store m) None None I) as H.
  unfold set, evictOldest, oldestKey. rewrite Hev.
  destruct (scanOldest (store m) None None) as [k|];
    [|destruct H as [Habs _]; contradiction].
  destruct H as [[Habs _]|(l1 & ent & l2 & Heq & H1 & H2 & _)]; [discriminate|].
  exists l1, k, ent, l2. repeat split; try assumption.
  intros Hwf. cbn [store with_store].
  assert (Hdel : JSMap.delete k (store m) = (l1 ++ l2)%list).
  { unfold wf in Hwf. rewrite Heq in *. clear -Hwf.
    induction l1 as [|[k1 e1] l1 IH]; cbn.
    - now rewrite String.eqb_refl.
    - cbn in Hwf. inversion Hwf as [|? ? Hnotin Hnd]; subst.
      destruct (String.eqb_spec k k1) as [->|Hnk].
      + exfalso. apply Hnotin. unfold JSMap.keys. rewrite map_app, in_app_iff.
        right. now left.
      + f_equal. now apply IH. }
  rewrite Hdel.
  assert (Hnew : JSMap.has key (l1 ++ l2)%list = false).
  { unfold mustEvict in Hev. apply andb_prop in Hev. destruct Hev as [_ Hh].
    apply negb_true_iff in Hh. rewrite <- Hdel.
    apply JSMapFacts.has_false_get. apply JSMapFacts.has_false_get in Hh.
    apply notin_get_None. intros Hin.
    apply (JSMapFacts.get_None_notin _ _ Hh).
    eapply JSMapFacts.keys_delete_incl. exact Hin. }
  rewrite JSMapFacts.set_new by assumption. now rewrite <- app_assoc.
Qed.

(** X5.  Eviction never costs a live entry while an expired one is
    stored: if some stored entry is already expired at [now], a [set]
    at [now] that evicts leaves every entry that is live at [now] as it
    was. *)
Theorem eviction_spares_live_entries_while_expired_ones_remain :
  forall (now : Z) (key : string) (v : V) (ttl : option Z) m k0 e0,
    wf m ->
    In (k0, e0) (store m) -> expiresAt e0 < now ->
    forall k e,
      JSMap.get k (store m) = Some e -> now <= expiresAt e -> k <> key ->
      JSMap.get k (store (set now key v ttl m)) = Some e.
Proof.
  intros now key v ttl m k0 e0 Hwf Hin0 Hexp k e Hg Hlive Hne.
  destruct (@TTLMapFacts.raw_set_other V now key k v ttl m Hwf Hne)
    as [H|(Hev & Hold & _)]; [now rewrite H|].
  exfalso.
  assert (Hnonempty : store m <> []) by (intros Hnil; rewrite Hnil in Hin0; contradiction).
  destruct (TTLMapFacts.oldestKey_spec Hwf Hnonempty) as (k1 & ent & Hk1 & Hg1 & Hmin).
  rewrite Hold in Hk1. injection Hk1 as <-.
  rewrite Hg in Hg1. injection Hg1 as <-.
  specialize (Hmin _ _ Hin0). lia.
Qed.

(** X6.  Operations on one key and the entries of the others: [get],
    [has] and [delete] never change another key's entry; [set] leaves
    it as it was when the written key is already stored or the store is
    below capacity, and otherwise either leaves it or removes it whole
    (the eviction), never alters it. *)
Theorem other_keys_are_left_alone :
  forall (now : Z) (key key' : string) (v : V) (ttl : option Z) m,
    wf m -> key' <> key ->
    JSMap.get key' (store (snd (get now key m))) = JSMap.get key' (store m) /\
    JSMap.get key' (store (snd (has now key m))) = JSMap.get key' (store m) /\
    JSMap.get key' (store (snd (delete key m))) = JSMap.get key' (store m) /\
    (JSMap.has key (store m) = true \/ size m < maxSize m ->
     JSMap.get key' (store (set now key v ttl m)) = JSMap.get key' (store m)) /\
    (JSMap.get key' (store (set now key v ttl m)) = JSMap.get key' (store m) \/
     JSMap.get key' (store (set now key v ttl m)) = None).
Proof.
  intros now key key' v ttl m Hwf Hne.
  pose proof (@TTLMapFacts.raw_get_other V now key key' m Hne) as Hget.
  split; [exact Hget|]. split.
  { unfold has. destruct (get now key m) as [[x|] m1]; exact Hget. }
  split; [cbn; now apply JSMapFacts.get_delete_other|]. split.
  - intros Hroom. apply TTLMapFacts.raw_set_other_noevict; [assumption|].
    unfold mustEvict. destruct Hroom as [Hh|Hlt].
    + now rewrite Hh, andb_false_r.
    + unfold size in Hlt. rewrite Z.geb_leb.
      destruct (maxSize m <=? JSMap.size (store m)) eqn:Hle; [|reflexivity].
      apply Z.leb_le in Hle. lia.
  - destruct (@TTLMapFacts.raw_set_other V now key key' v ttl m Hwf Hne)
      as [H|(_ & _ & H)]; [now left | now right].
Qed.
End More.

(** Instances for the properties that carry hypotheses. *)

Lemma set_then_get_witness :
  get 500 "a" (set 0 "a" 7 None (new Z 1000 None))
  = (Some 7, set 0 "a" 7 None (new Z 1000 None)).
Proof.
  destruct (@set_then_get Z 0 500 "a" 7 None (new Z 1000 None)) as (_ & H & _).
  apply H. cbn. lia.
Defined.

Lemma expired_entry_witness :
  fst (has 1001 "a" (set 0 "a" 7 None (new Z 1000 None))) = false /\
  fst (delete "a" (set 0 "a" 7 None (new Z 1000 None))) = true.
Proof.
  destruct (@expired_entry_is_removed_on_access Z 1001 "a"
              (set 0 "a" 7 None (new Z 1000 None))
              {| value := 7; expiresAt := 1000 |}) as (H1 & H2 & _).
  - unfold wf. cbn. repeat constructor. intros [].
  - reflexivity.
  - cbn. lia.
  - split; assumption.
Defined.

Lemma prune_witness :
  fst (prune 1000 (run [OpSet 0 "a" 1 (Some 500); OpSet 0 "b" 2 (Some 1500);
                        OpSet 0 "c" 3 (Some 2500)] (new Z 1000 None)))
  = 1.
Proof.
  destruct (@prune_removes_exactly_the_expired Z 1000
              (run [OpSet 0 "a" 1 (Some 500); OpSet 0 "b" 2 (Some 1500);
                    OpSet 0 "c" 3 (Some 2500)] (new Z 1000 None)))
    as (_ & Hn & _).
  - unfold wf. cbn. repeat constructor; cbn; intuition discriminate.
  - exact Hn.
Defined.

Lemma eviction_order_witness :
  exists l1 k ent l2,
    store (run [OpSet 0 "a" 1 (Some 50); OpSet 0 "b" 2 (Some 10);
                OpSet 0 "c" 3 (Some 10)] (new Z 1000 (Some 3)))
    = (l1 ++ (k, ent) :: l2)%list /\
    k = "b".
Proof.
  destruct (@eviction_takes_the_earliest_inserted_of_least_expiry Z 5 "d" 4 None
              (run [OpSet 0 "a" 1 (Some 50); OpSet 0 "b" 2 (Some 10);
                    OpSet 0 "c" 3 (Some 10)] (new Z 1000 (Some 3))))
    as (l1 & k & ent & l2 & Heq & _ & _ & Hk & _).
  - reflexivity.
  - discriminate.
  - exists l1, k, ent, l2. split; [exact Heq|].
    vm_compute in Hk. now injection Hk as <-.
Defined.

Lemma eviction_spares_live_witness :
  JSMap.get "b"
    (store (set 20 "c" 3 None
              (run [OpSet 0 "a" 1 (Some 10); OpSet 0 "b" 2 (Some 100)]
                   (new Z 1000 (Some 2)))))
  = Some {| value := 2; expiresAt := 100 |}.
Proof.
  apply (@eviction_spares_live_entries_while_expired_ones_remain Z 20 "c" 3 None
           (run [OpSet 0 "a" 1 (Some 10); OpSet 0 "b" 2 (Some 100)]
                (new Z 1000 (Some 2)))
           "a" {| value := 1; expiresAt := 10 |}).
  - unfold wf. cbn. repeat constructor; cbn; intuition discriminate.
  - cbn. now left.
  - cbn. lia.
  - reflexivity.
  - cbn. lia.
  - discriminate.
Defined.

Lemma other_keys_witness :
  JSMap.get "a" (store (set 5 "b" 2 None (set 0 "a" 1 None (new Z 1000 None))))
  = JSMap.get "a" (store (set 0 "a" 1 None (new Z 1000 None))).
Proof.
  destruct (@other_keys_are_left_alone Z 5 "b" "a" 2 None
              (set 0 "a" 1 None (new Z 1000 None))) as (_ & _ & _ & H & _).
  - unfold wf. cbn. repeat constructor. intros [].
  - discriminate.
  - apply H. right. cbn. lia.
Defined.
End TTLMapMore.

(** ** The engine: events, dispatch calls, budget invariant, read-only
    accessor *)

Module EngineMore.
Import MainRoutineSpec MainRoutineFacts MoreSpec Demo.

Lemma emitDecision_events now tid d env nar mr :
  events (emitDecision now tid d env nar mr) =
  (events mr ++
   if mrOnDecision mr
   then [{| evTaskId := tid;
            evDecision := d;
            evEnvelopeId := envId env;
            evEnvelopeNarrowed := nar;
            evEligibleCandidatesCount :=
              Z.of_nat (List.length (eligibleCandidates env));
            evPressure :=
              (memory (snapshot (mrAmigdala mr) now),
               queueDepth (snapshot (mrAmigdala mr) now),
               spawnSaturation (snapshot (mrAmigdala mr) now));
            evTimestamp := now |}]
   else [])%list.
Proof.
  unfold emitDecision. destruct (mrOnDecision mr); cbn; [reflexivity|].
  now rewrite app_nil_r.
Qed.

Lemma admitTask_events now task mr :
  events (snd (admitTask now task mr)) =
  (events mr ++
   if mrOnDecision mr
   then [decisionEvent mr now task (fst (admitTask now task mr))]
   else [])%list.
Proof.
  unfold admitTask, decisionEvent.
  destruct (getOrCreateRuntimeState now (id task) (runtimeStates mr)) as [rs st1].
  destruct (spawnCount rs >=? spawnBudget (metadata task));
    [cbn [fst snd]; now rewrite emitDecision_events|].
  destruct (retryDepth rs >=? maxRetryDepth (metadata task));
    [cbn [fst snd]; now rewrite emitDecision_events|].
  destruct (allowDrop (resolveEnvelope mr task) && _);
    [cbn [fst snd]; now rewrite emitDecision_events|].
  destruct (distSelect _ _ _ _ _);
    cbn [fst snd]; now rewrite emitDecision_events.
Qed.

(** X7.  No decision is silent and none is reported twice: with a
    handler installed, each [admit] emits exactly one event, carrying
    the decision it returns, the task id, the id and the candidate count
    of the resolved envelope, the narrowing flag (candidate count below
    [registry.count()]), the pressure snapshot and the clock; without a
    handler it emits none.  [signalRetry] and [getRuntimeState] never
    emit. *)
Theorem every_admission_emits_its_decision :
  forall (now : Z) (task : Task) (mr : MainRoutine),
    events (snd (admitTask now task mr)) =
      (events mr ++
       if mrOnDecision mr
       then [decisionEvent mr now task (fst (admitTask now task mr))]
       else [])%list /\
    (forall tid, events (signalRetry now tid mr) = events mr) /\
    (forall tid, events (snd (getRuntimeState now tid mr)) = events mr).
Proof.
  intros now task mr. split; [apply admitTask_events|]. split.
  - intros tid. unfold signalRetry.
    now destruct (TTLMap.get now tid (runtimeStates mr)) as [[x|] st].
  - intros tid. unfold getRuntimeState.
    now destruct (TTLMap.get now tid (runtimeStates mr)) as [x st].
Qed.

Lemma admitTask_dispatched now task mr :
  let rs := fst (getOrCreateRuntimeState now (id task) (runtimeStates mr)) in
  let sel := distSelect (mrDistributor mr) task (resolveEnvelope mr task) rs
                        (snapshot (mrAmigdala mr) now) in
  dispatched (snd (admitTask now task mr)) =
  (dispatched mr ++
   match fst (admitTask now task mr), sel with
   | Dispatch, Some group => [dispatch (primary group) task]
   | _, _ => []
   end)%list /\
  (fst (admitTask now task mr) = Dispatch -> sel <> None).
Proof.
  unfold admitTask.
  destruct (getOrCreateRuntimeState now (id task) (runtimeStates mr)) as [rs st1].
  cbn [fst snd].
  destruct (spawnCount rs >=? spawnBudget (metadata task));
    [cbn [fst snd]; rewrite emitDecision_dispatched; cbn;
     rewrite app_nil_r; split; [reflexivity | discriminate]|].
  destruct (retryDepth rs >=? maxRetryDepth (metadata task));
    [cbn [fst snd]; rewrite emitDecision_dispatched; cbn;
     rewrite app_nil_r; split; [reflexivity | discriminate]|].
  destruct (allowDrop (resolveEnvelope mr task) && _);
    [cbn [fst snd]; rewrite emitDecision_dispatched; cbn;
     rewrite app_nil_r; split; [reflexivity | discriminate]|].
  destruct (distSelect _ _ _ _ _) as [group|];
    cbn [fst snd]; rewrite emitDecision_dispatched; cbn.
  - split; [reflexivity | discriminate].
  - rewrite app_nil_r. split; [reflexivity | discriminate].
Qed.

Lemma engineStep_dispatched c mr :
  List.length (dispatched (engineStep c mr)) =
  (List.length (dispatched mr) +
   match c with
   | DoAdmit now task => if isDispatch (fst (admitTask now task mr)) then 1 else 0
   | _ => 0
   end)%nat.
Proof.
  destruct c as [now task|now tid|now tid]; cbn [engineStep].
  - destruct (admitTask_dispatched now task mr) as [Hd Hsel]. rewrite Hd.
    rewrite length_app.
    destruct (fst (admitTask now task mr)); cbn; try lia.
    destruct (distSelect _ _ _ _ _); [reflexivity|].
    exfalso. now apply Hsel.
  - unfold signalRetry.
    destruct (TTLMap.get now tid (runtimeStates mr)) as [[x|] st]; cbn; lia.
  - unfold getRuntimeState.
    destruct (TTLMap.get now tid (runtimeStates mr)) as [x st]; cbn; lia.
Qed.

(** X8.  The primary's [dispatch] is called exactly when [admit]
    returns dispatch: once, with the admitted task, on the primary of
    the selected group; a drop calls nothing, and neither do
    [signalRetry] and [getRuntimeState].  Along any run of the engine
    the number of dispatch calls made is the number of dispatch
    decisions returned. *)
Theorem dispatch_is_called_exactly_on_dispatch_decisions :
  forall (now : Z) (task : Task) (mr : MainRoutine),
    let rs := fst (getOrCreateRuntimeState now (id task) (runtimeStates mr)) in
    let sel := distSelect (mrDistributor mr) task (resolveEnvelope mr task) rs
                          (snapshot (mrAmigdala mr) now) in
    (fst (admitTask now task mr) = Dispatch ->
     exists group,
       sel = Some group /\
       dispatched (snd (admitTask now task mr)) =
       (dispatched mr ++ [dispatch (primary group) task])%list) /\
    (fst (admitTask now task mr) <> Dispatch ->
     dispatched (snd (admitTask now task mr)) = dispatched mr) /\
    (forall cs,
        Z.of_nat (List.length (dispatched (runEngine cs mr))) =
        Z.of_nat (List.length (dispatched mr)) + countDispatch (engineDecisions cs mr)).
Proof.
  intros now task mr rs sel.
  destruct (admitTask_dispatched now task mr) as [Hd Hsel]. fold rs sel in Hd, Hsel.
  split; [|split].
  - intros Hdisp. specialize (Hsel Hdisp). rewrite Hdisp in Hd.
    destruct sel as [group|]; [|contradiction]. eauto.
  - intros Hnd. rewrite Hd.
    destruct (fst (admitTask now task mr)); try apply app_nil_r. contradiction.
  - intros cs. clear. revert mr. unfold runEngine, countDispatch.
    induction cs as [|c cs IH]; intros mr; cbn [fold_left engineDecisions].
    + cbn. lia.
    + rewrite IH. pose proof (engineStep_dispatched c mr) as Hs.
      destruct c as [now task|now tid|now tid]; cbn [engineStep] in *.
      * cbn [filter]. destruct (isDispatch (fst (admitTask now task mr)));
          cbn [List.length]; lia.
      * lia.
      * lia.
Qed.

(** An instance: the dispatched admission of the demo engine. *)
Lemma dispatch_call_witness :
  map routeId
      (dispatched (snd (admitTask 0 (taskOf "task-1" None 5 3)
                          (engineOf ["default"] true 0 None))))
  = ["default"].
Proof.
  destruct (dispatch_is_called_exactly_on_dispatch_decisions
              0 (taskOf "task-1" None 5 3) (engineOf ["default"] true 0 None))
    as (H & _ & _).
  destruct (H eq_refl) as (group & Hsel & Hd).
  rewrite Hd. cbn in Hsel. injection Hsel as <-. reflexivity.
Defined.
(** *** The spawn budget as an invariant of every run *)

Lemma goc_fst_cases now tid states :
  fst (getOrCreateRuntimeState now tid states) = initialState now \/
  exists ent,
    JSMap.get tid (TTLMap.store states) = Some ent /\
    TTLMap.value ent = fst (getOrCreateRuntimeState now tid states) /\
    now <= TTLMap.expiresAt ent.
Proof.
  unfold getOrCreateRuntimeState.
  destruct (TTLMap.get now tid states) as [[x|] st] eqn:Hget; cbn [fst].
  - right. apply TTLMapFacts.get_Some_inv in Hget.
    destruct Hget as (_ & ent & Hg & Hv & Hle). eauto.
  - now left.
Qed.

Lemma signalRetry_other now tid tid' mr :
  tid' <> tid -> rawEntry tid' (signalRetry now tid mr) = rawEntry tid' mr.
Proof.
  intros Hne. unfold signalRetry, rawEntry.
  destruct (TTLMap.get now tid (runtimeStates mr)) as [[x|] st] eqn:Hget.
  - apply TTLMapFacts.get_Some_inv in Hget.
    destruct Hget as (-> & ent & Hg & _ & _). cbn [runtimeStates with_states].
    apply TTLMapFacts.raw_set_other_noevict; [assumption|].
    unfold TTLMap.mustEvict.
    assert (Hh : JSMap.has tid (TTLMap.store (runtimeStates mr)) = true)
      by (apply JSMapFacts.has_get; eauto).
    now rewrite Hh, andb_false_r.
  - cbn [runtimeStates with_states].
    pose proof (@TTLMapFacts.raw_get_other _ now tid tid' (runtimeStates mr) Hne) as H.
    now rewrite Hget in H.
Qed.

Lemma signalRetry_own now tid mr :
  TTLMapSpec.wf (runtimeStates mr) ->
  match rawEntry tid mr with
  | None => rawEntry tid (signalRetry now tid mr) = None
  | Some ent =>
      if now >? TTLMap.expiresAt ent
      then rawEntry tid (signalRetry now tid mr) = None
      else rawEntry tid (signalRetry now tid mr) =
           Some (entry (retried (TTLMap.value ent)) (now + ttlOf mr))
  end.
Proof.
  intros Hwf. destruct (rawEntry tid mr) as [ent|] eqn:Hraw.
  - destruct (now >? TTLMap.expiresAt ent) eqn:Hgt.
    + rewrite Z.gtb_ltb in Hgt. apply Z.ltb_lt in Hgt.
      destruct (@signalRetry_expired now tid mr ent Hraw Hgt) as [Hst _].
      unfold rawEntry. rewrite Hst. cbn. now apply JSMapFacts.get_delete_same.
    + rewrite Z.gtb_ltb in Hgt. apply Z.ltb_ge in Hgt.
      now destruct (@signalRetry_live now tid mr ent Hraw Hgt) as (_ & H & _).
  - now rewrite (@signalRetry_absent now tid mr Hraw).
Qed.

Lemma getRuntimeState_raw now tid tid' mr :
  TTLMapSpec.wf (runtimeStates mr) ->
  rawEntry tid' (snd (getRuntimeState now tid mr)) = rawEntry tid' mr \/
  (tid' = tid /\ rawEntry tid' (snd (getRuntimeState now tid mr)) = None /\
   liveState now tid mr = None).
Proof.
  intros Hwf. unfold getRuntimeState, rawEntry, liveState, TTLMap.get.
  destruct (JSMap.get tid (TTLMap.store (runtimeStates mr))) as [e|] eqn:Hg;
    [|now left].
  destruct (now >? TTLMap.expiresAt e); [|now left].
  cbn. destruct (String.eqb_spec tid' tid) as [->|Hne].
  - right. split; [reflexivity|]. split; [|reflexivity].
    now apply JSMapFacts.get_delete_same.
  - left. now apply JSMapFacts.get_delete_other.
Qed.

Lemma wf_getRuntimeState now tid mr :
  TTLMapSpec.wf (runtimeStates mr) ->
  TTLMapSpec.wf (runtimeStates (snd (getRuntimeState now tid mr))).
Proof.
  intros Hwf. unfold getRuntimeState.
  pose proof (@TTLMapFacts.wf_get _ now tid (runtimeStates mr) Hwf) as H.
  now destruct (TTLMap.get now tid (runtimeStates mr)) as [x st].
Qed.

Lemma wf_engineStep c mr :
  TTLMapSpec.wf (runtimeStates mr) ->
  TTLMapSpec.wf (runtimeStates (engineStep c mr)).
Proof.
  destruct c; cbn [engineStep];
    [apply wf_admitTask | apply wf_signalRetry | apply wf_getRuntimeState].
Qed.

Lemma withinBudget_step tid B c mr :
  0 <= B ->
  TTLMapSpec.wf (runtimeStates mr) ->
  (forall now task, c = DoAdmit now task -> id task = tid ->
                    spawnBudget (metadata task) <= B) ->
  withinBudget tid B mr ->
  withinBudget tid B (engineStep c mr).
Proof.
  intros HB Hwf Hadm Hin. unfold withinBudget, storedState in *.
  destruct c as [now task|now tid0|now tid0]; cbn [engineStep].
  - destruct (String.eqb_spec tid (id task)) as [->|Hne].
    + destruct (admitTask_own_entry now task mr) as (Hd & _ & _ & e & Hraw & _).
      rewrite Hraw.
      assert (Hrs : 0 <= spawnCount (fst (getOrCreateRuntimeState now (id task)
                                            (runtimeStates mr))) <= B /\
                    0 <= retryDepth (fst (getOrCreateRuntimeState now (id task)
                                            (runtimeStates mr)))).
      { destruct (goc_fst_cases now (id task) (runtimeStates mr))
          as [Hi|(ent & Hg & Hv & _)].
        - rewrite Hi. cbn. lia.
        - unfold rawEntry in Hin. rewrite Hg in Hin. cbn in Hin. now rewrite <- Hv. }
      destruct (isDispatch (fst (admitTask now task mr))) eqn:Hdisp; cbn.
      * assert (Hv : verdict mr now task
                       (fst (getOrCreateRuntimeState now (id task) (runtimeStates mr)))
                     = Dispatch)
          by (rewrite <- Hd; destruct (fst (admitTask now task mr));
              try discriminate; reflexivity).
        apply verdict_dispatch_budget in Hv.
        specialize (Hadm now task eq_refl eq_refl). lia.
      * exact Hrs.
    + destruct (@admitTask_other now task tid mr Hwf Hne) as [H|(_ & _ & _ & H)];
        rewrite H; [assumption | exact I].
  - destruct (String.eqb_spec tid tid0) as [->|Hne].
    + pose proof (@signalRetry_own now tid0 mr Hwf) as Hown.
      destruct (rawEntry tid0 mr) as [ent|]; [|now rewrite Hown].
      destruct (now >? TTLMap.expiresAt ent); rewrite Hown; [exact I|].
      cbn in *. lia.
    + now rewrite (@signalRetry_other now tid0 tid mr Hne).
  - destruct (@getRuntimeState_raw now tid0 tid mr Hwf) as [H|(_ & H & _)];
      rewrite H; [assumption | exact I].
Qed.

(** X9.  The spawn budget is never exceeded, whatever the history: on
    an engine as [createMainRoutine] returns it, after any run of
    [admit], [signalRetry] and [getRuntimeState] calls, for any ids, at
    any instants, the stored [spawnCount] of an id lies between 0 and
    the largest spawn budget declared by the admissions of that id, and
    its stored [retryDepth] is not negative. *)
Theorem spawn_budget_is_never_exceeded :
  forall (config : MainRoutineConfig) (mr : MainRoutine)
         (cs : list EngineCall) (tid : TaskID) (B : Z),
    createMainRoutine config = Returned mr ->
    0 <= B ->
    admitsWithin tid B cs ->
    withinBudget tid B (runEngine cs mr).
Proof.
  intros config mr cs tid B Hcreated HB Hadm.
  assert (Hwf : TTLMapSpec.wf (runtimeStates mr)) by (eapply wf_created; eauto).
  assert (Hin : withinBudget tid B mr).
  { unfold createMainRoutine in Hcreated.
    destruct (defaultEnvelope config) as [env|]; [|discriminate].
    destruct (negb (isFrozen env)); [discriminate|].
    injection Hcreated as <-. exact I. }
  clear Hcreated. revert mr Hwf Hin. unfold runEngine.
  induction cs as [|c cs IH]; intros mr Hwf Hin; cbn [fold_left]; [assumption|].
  apply IH.
  - intros now task Hc Hid. apply (Hadm now task); [now right | assumption].
  - now apply wf_engineStep.
  - apply withinBudget_step; try assumption.
    intros now task -> Hid. apply (Hadm now task); [now left | assumption].
Qed.

(** An instance: budget 2, five admissions and two retry signals. *)
Lemma spawn_budget_witness :
  withinBudget "task-1" 2
    (runEngine [DoAdmit 0 (taskOf "task-1" None 2 9);
                DoAdmit 1 (taskOf "task-1" None 2 9);
                DoSignalRetry 2 "task-1";
                DoAdmit 3 (taskOf "task-1" None 2 9);
                DoSignalRetry 4 "task-1";
                DoAdmit 5 (taskOf "task-1" None 2 9);
                DoAdmit 6 (taskOf "task-1" None 2 9)]
               (engineOf ["default"] true 0 None)).
Proof.
  apply (@spawn_budget_is_never_exceeded (configOf ["default"] true 0 None)).
  - reflexivity.
  - lia.
  - intros now task Hin _.
    cbn in Hin.
    repeat (destruct Hin as [Hin|Hin];
            [try discriminate; injection Hin as _ <-; cbn; lia|]).
    contradiction.
Defined.

(** *** The accessor *)

Lemma goc_raw_live now tid states :
  0 <= TTLMap.defaultTTL states ->
  exists e,
    now <= e /\
    JSMap.get tid (TTLMap.store (snd (getOrCreateRuntimeState now tid states))) =
    Some (entry (fst (getOrCreateRuntimeState now tid states)) e).
Proof.
  intros Httl. unfold getOrCreateRuntimeState.
  destruct (TTLMap.get now tid states) as [[x|] st] eqn:Hget; cbn [fst snd].
  - apply TTLMapFacts.get_Some_inv in Hget.
    destruct Hget as (-> & ent & Hg & Hv & Hle).
    exists (TTLMap.expiresAt ent). split; [assumption|].
    rewrite Hg. destruct ent; cbn in *. now subst.
  - pose proof (TTLMapFacts.defaultTTL_get now tid states) as Hd.
    rewrite Hget in Hd. cbn in Hd.
    exists (now + TTLMap.defaultTTL st). split; [lia|].
    unfold entry. apply TTLMapFacts.raw_set_same.
Qed.

(** X10.  [getRuntimeState] only observes: it answers what [get]
    answers for the id, creates no entry, changes no counter (what
    [get] answers for any id at any later instant stays the same), and
    on an id that is not stored it leaves the engine exactly as it
    was.  With a state TTL that is not negative, the state an [admit]
    worked on is visible right after the call, with [spawnCount] one
    higher and [lastAttemptAt] set to the clock exactly when the
    decision was dispatch. *)
Theorem getRuntimeState_only_observes :
  forall (now : Z) (tid : TaskID) (mr : MainRoutine),
    TTLMapSpec.wf (runtimeStates mr) ->
    fst (getRuntimeState now tid mr) = liveState now tid mr /\
    (forall tid' now', now <= now' ->
       liveState now' tid' (snd (getRuntimeState now tid mr)) =
       liveState now' tid' mr) /\
    (rawEntry tid mr = None -> snd (getRuntimeState now tid mr) = mr) /\
    (forall task,
        0 <= ttlOf mr ->
        let rs := fst (getOrCreateRuntimeState now (id task) (runtimeStates mr)) in
        let r := admitTask now task mr in
        fst (getRuntimeState now (id task) (snd r)) =
        Some (if isDispatch (fst r) then bump now rs else rs)).
Proof.
  intros now tid mr Hwf. split; [|split; [|split]].
  - unfold getRuntimeState, liveState.
    now destruct (TTLMap.get now tid (runtimeStates mr)) as [x st].
  - intros tid' now' Hle.
    destruct (@getRuntimeState_raw now tid tid' mr Hwf) as [H|(-> & H & Hlive)].
    + now apply liveState_raw.
    + rewrite (@liveState_absent now' tid _ H).
      unfold liveState in *. rewrite TTLMapMore.fst_get_raw in *.
      destruct (JSMap.get tid (TTLMap.store (runtimeStates mr))) as [e|];
        [|reflexivity].
      destruct (now >? TTLMap.expiresAt e) eqn:Hx; [|discriminate].
      destruct (now' >? TTLMap.expiresAt e) eqn:Hy; [reflexivity|].
      rewrite Z.gtb_ltb in Hx, Hy. apply Z.ltb_lt in Hx. apply Z.ltb_ge in Hy. lia.
  - intros Hraw. unfold getRuntimeState.
    rewrite (@TTLMapFacts.get_absent _ now tid _ Hraw). apply with_states_same.
  - intros task Httl rs r. subst rs r.
    destruct (admitTask_spec now task mr) as (Hd & Hst & _).
    destruct (@goc_raw_live now (id task) (runtimeStates mr) Httl) as (e & Hle & Hraw).
    pose proof (goc_ttl now (id task) (runtimeStates mr)) as Ht.
    unfold getRuntimeState.
    assert (Hlive :
              exists ent,
                JSMap.get (id task)
                  (TTLMap.store (runtimeStates (snd (admitTask now task mr)))) = Some ent /\
                now <= TTLMap.expiresAt ent /\
                TTLMap.value ent =
                (if isDispatch (fst (admitTask now task mr))
                 then bump now (fst (getOrCreateRuntimeState now (id task) (runtimeStates mr)))
                 else fst (getOrCreateRuntimeState now (id task) (runtimeStates mr)))).
    { rewrite Hst, <- Hd.
      destruct (isDispatch (fst (admitTask now task mr))).
      - eexists. split; [apply TTLMapFacts.raw_set_same|]. cbn.
        unfold ttlOf in Httl. split; [lia | reflexivity].
      - eexists. split; [exact Hraw|]. cbn. split; [assumption | reflexivity]. }
    destruct Hlive as (ent & Hg & Hle' & Hv).
    rewrite (@TTLMapFacts.get_live _ now (id task) _ ent Hg Hle'). cbn.
    now rewrite Hv.
Qed.

(** An instance: the state is visible after a dispatch. *)
Lemma getRuntimeState_witness :
  fst (getRuntimeState 7 "task-1"
         (snd (admitTask 7 (taskOf "task-1" None 5 3)
                 (engineOf ["default"] true 0 None))))
  = Some {| spawnCount := 1; retryDepth := 0; lastAttemptAt := 7 |}.
Proof.
  destruct (@getRuntimeState_only_observes 7 "task-1"
              (engineOf ["default"] true 0 None)) as (_ & _ & _ & H).
  - constructor.
  - exact (H (taskOf "task-1" None 5 3) ltac:(cbn; lia)).
Defined.
End EngineMore.

(** ** Strategies and selection *)

Module StrategyMore.
Import MainRoutineSpec MainRoutineFacts MoreSpec Demo.

Lemma eligible_iff task rs :
  eligible (checkEligibility task rs) = true <->
  spawnCount rs < spawnBudget (metadata task) /\
  retryDepth rs < maxRetryDepth (metadata task).
Proof.
  unfold checkEligibility.
  destruct (spawnCount rs >=? spawnBudget (metadata task)) eqn:H1;
    rewrite Z.geb_leb in H1.
  - apply Z.leb_le in H1. cbn. split; [discriminate | lia].
  - apply Z.leb_gt in H1.
    destruct (retryDepth rs >=? maxRetryDepth (metadata task)) eqn:H2;
      rewrite Z.geb_leb in H2.
    + apply Z.leb_le in H2. cbn. split; [discriminate | lia].
    + apply Z.leb_gt in H2. cbn. split; [lia | reflexivity].
Qed.

Lemma firstSelected_None strategies context :
  firstSelected strategies context = None <->
  forall x, In x strategies -> select x context = None.
Proof.
  induction strategies as [|s0 rest IH]; cbn.
  - split; [intros _ x [] | reflexivity].
  - destruct (select s0 context) as [g|] eqn:Hs.
    + split; [discriminate|]. intros H. rewrite <- Hs. apply H. now left.
    + rewrite IH. split.
      * intros H x [<-|Hin]; auto.
      * intros H x Hin. apply H. now right.
Qed.

Lemma firstSelected_Some strategies context g :
  firstSelected strategies context = Some g ->
  exists l1 x l2,
    strategies = (l1 ++ x :: l2)%list /\
    (forall y, In y l1 -> select y context = None) /\
    select x context = Some g.
Proof.
  induction strategies as [|s0 rest IH]; cbn; [discriminate|].
  destruct (select s0 context) as [g0|] eqn:Hs.
  - intros [= <-]. exists [], s0, rest. split; [reflexivity|].
    split; [intros y [] | assumption].
  - intros H. destruct (IH H) as (l1 & x & l2 & -> & Hnone & Hx).
    exists (s0 :: l1), x, l2. split; [reflexivity|]. split; [|assumption].
    intros y [<-|Hin]; auto.
Qed.

Lemma firstSelected_app xs ys context :
  firstSelected (xs ++ ys) context =
  match firstSelected xs context with
  | Some g => Some g
  | None => firstSelected ys context
  end.
Proof.
  induction xs as [|s0 rest IH]; cbn; [reflexivity|].
  destruct (select s0 context); [reflexivity | assumption].
Qed.

(** X11.  Composition tries the strategies in order and the first that
    selects wins: the composed strategy declines exactly when every
    member declines, its result is that of the first member that
    selects, and composing two compositions selects as the composition
    of the concatenated lists does. *)
Theorem composition_selects_as_the_first_member_that_selects :
  forall (strategies : list SpawnStrategy) (s : SpawnStrategy),
    composeStrategies strategies = Returned s ->
    (forall context,
        (select s context = None <->
         forall x, In x strategies -> select x context = None) /\
        (forall g,
            select s context = Some g ->
            exists l1 x l2,
              strategies = (l1 ++ x :: l2)%list /\
              (forall y, In y l1 -> select y context = None) /\
              select x context = Some g)) /\
    (forall others so sboth snested,
        composeStrategies others = Returned so ->
        composeStrategies (strategies ++ others) = Returned sboth ->
        composeStrategies [s; so] = Returned snested ->
        forall context, select snested context = select sboth context).
Proof.
  intros strategies s [= <-]. split.
  - intros context. cbn [select]. split;
      [apply firstSelected_None | apply firstSelected_Some].
  - intros others so sboth snested [= <-] [= <-] [= <-] context. cbn.
    rewrite firstSelected_app.
    destruct (firstSelected strategies context); [reflexivity|].
    now destruct (firstSelected others context).
Qed.

Lemma composition_witness :
  match composeStrategies [intentStrategy] with
  | Returned s =>
      select s (contextOf (taskOf "task-1" None 0 3)
                          {| spawnCount := 0; retryDepth := 0; lastAttemptAt := 0 |})
      = None
  | Thrown _ => False
  end.
Proof.
  cbv beta iota delta [composeStrategies].
  destruct (@composition_selects_as_the_first_member_that_selects
              [intentStrategy] _ eq_refl) as [H _].
  apply (proj1 (H _)). intros x [<-|[]]. vm_compute. reflexivity.
Defined.

Lemma intent_declines cfg : declinesOnlyExhausted (createIntentBasedStrategy cfg).
Proof.
  intros context. cbn.
  destruct (eligible (checkEligibility (ctxTask context) (ctxRuntimeState context)));
    cbn; split; try reflexivity; discriminate.
Qed.

Lemma priority_declines cfg : declinesOnlyExhausted (createPriorityBasedStrategy cfg).
Proof.
  intros context. cbn.
  destruct (eligible (checkEligibility (ctxTask context) (ctxRuntimeState context)));
    cbn; split; try reflexivity; discriminate.
Qed.

(** X12.  No stock strategy bypasses the budgets, and none declines for
    another reason: the intent-based and the priority-based strategy
    return [null] exactly when [checkEligibility] fails, that is when
    [spawnCount >= spawnBudget] or [retryDepth >= maxRetryDepth]; and a
    composition of one or more strategies with that property has it
    too. *)
Theorem stock_strategies_decline_exactly_on_exhausted_budgets :
  (forall cfg context,
      select (createIntentBasedStrategy cfg) context = None <->
      ~ (spawnCount (ctxRuntimeState context) < spawnBudget (metadata (ctxTask context)) /\
         retryDepth (ctxRuntimeState context) < maxRetryDepth (metadata (ctxTask context)))) /\
  (forall cfg context,
      select (createPriorityBasedStrategy cfg) context = None <->
      ~ (spawnCount (ctxRuntimeState context) < spawnBudget (metadata (ctxTask context)) /\
         retryDepth (ctxRuntimeState context) < maxRetryDepth (metadata (ctxTask context)))) /\
  (forall strategies s,
      strategies <> [] ->
      Forall declinesOnlyExhausted strategies ->
      composeStrategies strategies = Returned s ->
      declinesOnlyExhausted s).
Proof.
  assert (Hneg : forall task rs,
             eligible (checkEligibility task rs) = false <->
             ~ (spawnCount rs < spawnBudget (metadata task) /\
                retryDepth rs < maxRetryDepth (metadata task))).
  { intros task rs. rewrite <- eligible_iff.
    destruct (eligible (checkEligibility task rs)); split; congruence. }
  split; [|split].
  - intros cfg context. rewrite <- Hneg. apply intent_declines.
  - intros cfg context. rewrite <- Hneg. apply priority_declines.
  - intros strategies s Hne Hall [= <-] context. cbn [select].
    rewrite firstSelected_None. rewrite Forall_forall in Hall. split.
    + intros H. destruct strategies as [|s0 rest]; [contradiction|].
      apply (Hall s0 (or_introl eq_refl)). apply H. now left.
    + intros Hel x Hin. now apply (Hall x Hin).
Qed.

Lemma stock_strategies_witness :
  match composeStrategies
          [intentStrategy;
           createPriorityBasedStrategy {| thresholds := []; fallbackId := None |}] with
  | Returned s => declinesOnlyExhausted s
  | Thrown _ => False
  end.
Proof.
  cbv beta iota delta [composeStrategies].
  destruct stock_strategies_decline_exactly_on_exhausted_budgets as (_ & _ & H).
  refine (H _ _ _ _ eq_refl); [discriminate|].
  constructor; [apply intent_declines|].
  constructor; [apply priority_declines | constructor].
Defined.

(** *** The priority-based strategy *)

Lemma matchThreshold_Some ths effective avg chosen :
  matchThreshold ths effective avg = Some chosen ->
  exists l1 th l2,
    ths = (l1 ++ th :: l2)%list /\
    subRoutineId th = chosen /\
    minPriority th <= effective /\
    (avg <=? maxPressure th)%float = true /\
    (forall th', In th' l1 ->
       effective < minPriority th' \/ (avg <=? maxPressure th')%float = false).
Proof.
  induction ths as [|th rest IH]; cbn; [discriminate|].
  destruct (effective >=? minPriority th) eqn:Hp; cbn [andb].
  - destruct (avg <=? maxPressure th)%float eqn:Hq.
    + intros [= <-]. exists [], th, rest. rewrite Z.geb_leb in Hp.
      apply Z.leb_le in Hp. repeat split; try assumption. intros th' [].
    + intros H. destruct (IH H) as (l1 & th0 & l2 & -> & Hc & Hm & Hq0 & Hpre).
      exists (th :: l1), th0, l2. repeat split; try assumption.
      intros th' [<-|Hin]; [now right | auto].
  - intros H. destruct (IH H) as (l1 & th0 & l2 & -> & Hc & Hm & Hq0 & Hpre).
    exists (th :: l1), th0, l2. repeat split; try assumption.
    intros th' [<-|Hin]; [|auto].
    left. rewrite Z.geb_leb in Hp. apply Z.leb_gt in Hp. assumption.
Qed.

Lemma matchThreshold_mono ths effective effective' avg :
  effective <= effective' ->
  matchThreshold ths effective avg <> None ->
  matchThreshold ths effective' avg <> None.
Proof.
  intros Hle. induction ths as [|th rest IH]; cbn; [tauto|].
  destruct (effective >=? minPriority th) eqn:Hp; cbn [andb].
  - rewrite Z.geb_leb in Hp. apply Z.leb_le in Hp.
    assert (Hp' : (effective' >=? minPriority th) = true)
      by (rewrite Z.geb_leb; apply Z.leb_le; lia).
    rewrite Hp'. cbn [andb].
    destruct (avg <=? maxPressure th)%float; [discriminate | assumption].
  - intros H. destruct ((effective' >=? minPriority th)
                        && (avg <=? maxPressure th)%float);
      [discriminate | auto].
Qed.

(** X13.  The priority-based strategy: the retry boost is
    [min(5 * retryDepth, 20)], so the effective priority never exceeds
    100 nor the declared priority (50 when absent) plus 20, and it does
    not decrease when the retry depth grows; the chosen destination is
    that of the first threshold whose priority and pressure bounds both
    hold, or the fallback id ("default" when not configured) when none
    holds; and if some threshold matches at a retry depth, some
    threshold still matches at any greater depth under the same
    pressure: retrying never demotes a task to the fallback. *)
Theorem priority_strategy_boost_and_first_match :
  forall (cfg : PriorityBasedConfig) (context : StrategyContext),
    let task := ctxTask context in
    let rs := ctxRuntimeState context in
    let declared := match priority (metadata task) with Some p => p | None => 50 end in
    let fallback := match fallbackId cfg with Some f => f | None => "default" end in
    effectivePriority task rs <= 100 /\
    effectivePriority task rs <= declared + 20 /\
    (forall rs', retryDepth rs <= retryDepth rs' ->
                 effectivePriority task rs <= effectivePriority task rs') /\
    (forall g,
        select (createPriorityBasedStrategy cfg) context = Some g ->
        exists chosen,
          g = {| primary := create (ctxFactory context) chosen; cooperatives := [] |} /\
          ((matchThreshold (thresholds cfg) (effectivePriority task rs)
                           (avgPressure (ctxPressure context)) = None /\
            chosen = fallback)
           \/
           exists l1 th l2,
             thresholds cfg = (l1 ++ th :: l2)%list /\
             subRoutineId th = chosen /\
             minPriority th <= effectivePriority task rs /\
             (avgPressure (ctxPressure context) <=? maxPressure th)%float = true /\
             (forall th', In th' l1 ->
                effectivePriority task rs < minPriority th' \/
                (avgPressure (ctxPressure context) <=? maxPressure th')%float = false))) /\
    (forall rs',
        retryDepth rs <= retryDepth rs' ->
        matchThreshold (thresholds cfg) (effectivePriority task rs)
                       (avgPressure (ctxPressure context)) <> None ->
        matchThreshold (thresholds cfg) (effectivePriority task rs')
                       (avgPressure (ctxPressure context)) <> None).
Proof.
  intros cfg context task rs declared fallback.
  assert (Hmono : forall rs', retryDepth rs <= retryDepth rs' ->
                              effectivePriority task rs <= effectivePriority task rs').
  { intros rs' Hle. unfold effectivePriority, retryBoost. lia. }
  split; [unfold effectivePriority; lia|].
  split; [unfold effectivePriority, retryBoost; subst declared; lia|].
  split; [exact Hmono|]. split.
  - intros g. unfold createPriorityBasedStrategy. cbn [select]. fold task rs.
    destruct (eligible (checkEligibility task rs)); cbn [negb]; [|discriminate].
    destruct (matchThreshold (thresholds cfg) (effectivePriority task rs)
                (avgPressure (ctxPressure context))) as [chosen|] eqn:Hm.
    + intros [= <-]. exists chosen. split; [reflexivity|]. right.
      now apply matchThreshold_Some.
    + intros [= <-]. exists fallback. split; [reflexivity|]. now left.
  - intros rs' Hle. apply matchThreshold_mono. now apply Hmono.
Qed.

Lemma priority_strategy_witness :
  effectivePriority (taskOf "task-1" None 5 9)
                    {| spawnCount := 0; retryDepth := 1; lastAttemptAt := 0 |}
  <= effectivePriority (taskOf "task-1" None 5 9)
                       {| spawnCount := 0; retryDepth := 3; lastAttemptAt := 0 |}.
Proof.
  destruct (priority_strategy_boost_and_first_match
              {| thresholds := []; fallbackId := None |}
              {| ctxTask := taskOf "task-1" None 5 9;
                 ctxEnvelope := envelopeOf ["default"] true;
                 ctxRuntimeState :=
                   {| spawnCount := 0; retryDepth := 1; lastAttemptAt := 0 |};
                 ctxPressure := snapshot (createAmigdala None) 0;
                 ctxEligibleCandidates := ["default"];
                 ctxFactory := createSimpleFactory |}) as (_ & _ & H & _).
  apply H. cbn. lia.
Defined.

(** *** Selection inside [admit] *)

Lemma admitTask_without_candidates mr cfg now task :
  mrDistributor mr = createCircuitDistributor cfg ->
  eligibleCandidates (resolveEnvelope mr task) = [] ->
  fst (admitTask now task mr) <> Dispatch /\
  dispatched (snd (admitTask now task mr)) = dispatched mr.
Proof.
  intros Hdist Hempty.
  destruct (admitTask_spec now task mr) as (Hd & _ & _).
  assert (Hnd : fst (admitTask now task mr) <> Dispatch).
  { rewrite Hd. unfold verdict. rewrite Hdist. cbn [distSelect createCircuitDistributor].
    rewrite Hempty.
    destruct (spawnCount _ >=? _); [discriminate|].
    destruct (retryDepth _ >=? _); [discriminate|].
    destruct (allowDrop _ && _); discriminate. }
  split; [exact Hnd|].
  destruct (EngineMore.admitTask_dispatched now task mr) as [H _]. rewrite H.
  destruct (fst (admitTask now task mr)); try apply app_nil_r. contradiction.
Qed.

(** X14.  An envelope without candidates shuts selection off for every
    strategy: with a distributor built by [createCircuitDistributor],
    an [admit] whose resolved envelope has an empty candidate list
    never dispatches and calls no sub-routine, and when budget and
    retry depth remain and the pressure gate is shut the drop carries
    the reason [spawn_budget_exhausted] although the budget is not
    exhausted. *)
Theorem no_candidates_means_drop :
  forall (mr : MainRoutine) (cfg : CircuitDistributorConfig) (now : Z) (task : Task),
    mrDistributor mr = createCircuitDistributor cfg ->
    eligibleCandidates (resolveEnvelope mr task) = [] ->
    let rs := fst (getOrCreateRuntimeState now (id task) (runtimeStates mr)) in
    fst (admitTask now task mr) <> Dispatch /\
    dispatched (snd (admitTask now task mr)) = dispatched mr /\
    (spawnCount rs < spawnBudget (metadata task) ->
     retryDepth rs < maxRetryDepth (metadata task) ->
     gateShut mr now task = true ->
     fst (admitTask now task mr) = Drop spawn_budget_exhausted (retryDepth rs)).
Proof.
  intros mr cfg now task Hdist Hempty rs.
  destruct (admitTask_spec now task mr) as (Hd & _ & _). fold rs in Hd.
  assert (Hsel : distSelect (mrDistributor mr) task (resolveEnvelope mr task) rs
                            (snapshot (mrAmigdala mr) now) = None)
    by (rewrite Hdist; cbn; now rewrite Hempty).
  assert (Hnd : fst (admitTask now task mr) <> Dispatch).
  { rewrite Hd. unfold verdict. rewrite Hsel.
    destruct (spawnCount rs >=? _); [discriminate|].
    destruct (retryDepth rs >=? _); [discriminate|].
    destruct (allowDrop _ && _); discriminate. }
  split; [exact Hnd|]. split.
  - destruct (EngineMore.admitTask_dispatched now task mr) as [H _]. rewrite H.
    destruct (fst (admitTask now task mr)); try apply app_nil_r. contradiction.
  - intros H1 H2 Hgate. rewrite Hd. unfold verdict. rewrite Hsel.
    unfold gateShut in Hgate. apply negb_true_iff in Hgate. rewrite Hgate.
    destruct (spawnCount rs >=? spawnBudget (metadata task)) eqn:E1;
      [rewrite Z.geb_leb in E1; apply Z.leb_le in E1; lia|].
    destruct (retryDepth rs >=? maxRetryDepth (metadata task)) eqn:E2;
      [rewrite Z.geb_leb in E2; apply Z.leb_le in E2; lia|].
    reflexivity.
Qed.

Lemma no_candidates_witness :
  fst (admitTask 0 (taskOf "task-1" None 5 3)
         (with_states (engineOf [] true 0 None)
                      (runtimeStates (engineOf [] true 0 None))))
  = Drop spawn_budget_exhausted 0.
Proof.
  destruct (@no_candidates_means_drop
              (with_states (engineOf [] true 0 None)
                           (runtimeStates (engineOf [] true 0 None)))
              {| strategy := intentStrategy; factory := createSimpleFactory |}
              0 (taskOf "task-1" None 5 3) eq_refl eq_refl) as (_ & _ & H).
  apply H; [cbn; lia | cbn; lia | vm_compute; reflexivity].
Defined.

(** X15.  When the distributor's strategy declines only exhausted
    budgets (as the intent-based and priority-based ones do), [admit]
    dispatches exactly when spawn budget and retry depth remain, the
    pressure gate is shut and the resolved envelope lists at least one
    candidate; so a drop with [spawn_budget_exhausted] while budget
    remains can only come from an empty candidate list. *)
Theorem dispatch_exactly_when_budgets_gate_and_candidates_allow :
  forall (mr : MainRoutine) (cfg : CircuitDistributorConfig) (now : Z) (task : Task),
    mrDistributor mr = createCircuitDistributor cfg ->
    declinesOnlyExhausted (strategy cfg) ->
    let rs := fst (getOrCreateRuntimeState now (id task) (runtimeStates mr)) in
    (fst (admitTask now task mr) = Dispatch <->
     spawnCount rs < spawnBudget (metadata task) /\
     retryDepth rs < maxRetryDepth (metadata task) /\
     gateShut mr now task = true /\
     eligibleCandidates (resolveEnvelope mr task) <> []) /\
    (forall depth,
        fst (admitTask now task mr) = Drop spawn_budget_exhausted depth ->
        spawnCount rs < spawnBudget (metadata task) ->
        eligibleCandidates (resolveEnvelope mr task) = []).
Proof.
  intros mr cfg now task Hdist Hdecl rs.
  destruct (admitTask_spec now task mr) as (Hd & _ & _). fold rs in Hd.
  rewrite Hd. unfold verdict, gateShut. rewrite Hdist.
  set (env := resolveEnvelope mr task).
  set (p := snapshot (mrAmigdala mr) now).
  assert (Hsel : spawnCount rs < spawnBudget (metadata task) ->
                 retryDepth rs < maxRetryDepth (metadata task) ->
                 eligibleCandidates env <> [] ->
                 distSelect (createCircuitDistributor cfg) task env rs p <> None).
  { intros H1 H2 Hne. cbn.
    destruct (eligibleCandidates env) as [|c cs] eqn:He; [contradiction|]. cbn.
    intros Hnone. apply Hdecl in Hnone. cbn in Hnone.
    assert (Hel : eligible (checkEligibility task rs) = true)
      by (apply eligible_iff; split; assumption).
    congruence. }
  assert (Hempty : eligibleCandidates env = [] ->
                   distSelect (createCircuitDistributor cfg) task env rs p = None)
    by (intros He; cbn; now rewrite He).
  destruct (spawnCount rs >=? spawnBudget (metadata task)) eqn:E1;
    rewrite Z.geb_leb in E1;
    [apply Z.leb_le in E1; split; [split; [discriminate | lia] | intros; lia]|].
  apply Z.leb_gt in E1.
  destruct (retryDepth rs >=? maxRetryDepth (metadata task)) eqn:E2;
    rewrite Z.geb_leb in E2;
    [apply Z.leb_le in E2; split; [split; [discriminate | lia] | discriminate]|].
  apply Z.leb_gt in E2.
  destruct (allowDrop env && (0.9 <? avgPressure p)%float) eqn:E3; cbn [negb].
  { split; [split; [discriminate | intros (_ & _ & H & _); discriminate] | discriminate]. }
  destruct (eligibleCandidates env) as [|c cs] eqn:He.
  - rewrite (Hempty eq_refl). split; [|reflexivity].
    split; [discriminate | intros (_ & _ & _ & H); contradiction].
  - specialize (Hsel E1 E2 ltac:(discriminate)).
    destruct (distSelect (createCircuitDistributor cfg) task env rs p);
      [|contradiction].
    split; [|discriminate].
    split; [intros _; repeat split; try assumption; discriminate | reflexivity].
Qed.

Lemma dispatch_exactly_witness :
  fst (admitTask 0 (taskOf "task-1" None 5 3)
         (with_states (engineOf ["default"] true 0 None)
                      (runtimeStates (engineOf ["default"] true 0 None))))
  = Dispatch.
Proof.
  destruct (@dispatch_exactly_when_budgets_gate_and_candidates_allow
              (with_states (engineOf ["default"] true 0 None)
                           (runtimeStates (engineOf ["default"] true 0 None)))
              {| strategy := intentStrategy; factory := createSimpleFactory |}
              0 (taskOf "task-1" None 5 3) eq_refl (intent_declines _)) as (H & _).
  apply H.
  split; [cbn; lia|]. split; [cbn; lia|].
  split; [vm_compute; reflexivity | discriminate].
Defined.
End StrategyMore.

(** ** The pressure observer *)

Module AmigdalaMore.
Import MainRoutineSpec MainRoutineFacts MoreSpec Demo.

Lemma clamp_range v : (clamp v <? 0)%float = false /\ (1 <? clamp v)%float = false.
Proof.
  unfold clamp. destruct (v <? 0)%float eqn:H0.
  - split; vm_compute; reflexivity.
  - destruct (1 <? v)%float eqn:H1.
    + split; vm_compute; reflexivity.
    + split; assumption.
Qed.

Lemma clamp_idem v : clamp (clamp v) = clamp v.
Proof.
  assert (H : clamp v = 0%float \/ clamp v = 1%float \/
              (clamp v = v /\ (v <? 0)%float = false /\ (1 <? v)%float = false)).
  { unfold clamp. destruct (v <? 0)%float; [auto|].
    destruct (1 <? v)%float; auto. }
  destruct H as [H|[H|(H & H0 & H1)]]; rewrite H.
  - vm_compute; reflexivity.
  - vm_compute; reflexivity.
  - exact H.
Qed.

(** X16.  A pressure snapshot carries the instant of the call, and each
    of its three metrics is the source's reading clamped: it is never
    below 0 nor above 1, a reading that is neither below 0 nor above 1
    is passed on unchanged, and clamping twice is clamping once. *)
Theorem snapshot_metrics_are_never_below_0_nor_above_1 :
  forall (config : option PressureSource) (now : Z),
    let p := snapshot (createAmigdala config) now in
    let source := match config with Some s => s | None => noopPressureSource end in
    timestamp p = now /\
    Forall (fun m => (m <? 0)%float = false /\ (1 <? m)%float = false)
           [memory p; queueDepth p; spawnSaturation p] /\
    ((getMemoryPressure source now <? 0)%float = false ->
     (1 <? getMemoryPressure source now)%float = false ->
     memory p = getMemoryPressure source now) /\
    ((getQueueDepthPressure source now <? 0)%float = false ->
     (1 <? getQueueDepthPressure source now)%float = false ->
     queueDepth p = getQueueDepthPressure source now) /\
    ((getSpawnSaturation source now <? 0)%float = false ->
     (1 <? getSpawnSaturation source now)%float = false ->
     spawnSaturation p = getSpawnSaturation source now) /\
    (forall v, clamp (clamp v) = clamp v).
Proof.
  intros config now p source.
  assert (Hid : forall v, (v <? 0)%float = false -> (1 <? v)%float = false ->
                          clamp v = v)
    by (intros v H0 H1; unfold clamp; now rewrite H0, H1).
  split; [reflexivity|]. split.
  - repeat constructor; apply clamp_range.
  - repeat split; try apply Hid. apply clamp_idem.
Qed.

Lemma snapshot_metrics_witness :
  memory (snapshot (createAmigdala (Some (constantSource 0.5))) 7) = 0.5%float.
Proof.
  destruct (snapshot_metrics_are_never_below_0_nor_above_1
              (Some (constantSource 0.5)) 7) as (_ & _ & H & _).
  apply H; vm_compute; reflexivity.
Defined.

Lemma noop_gate now :
  (0.9 <? avgPressure (snapshot (createAmigdala None) now))%float = false.
Proof. vm_compute. reflexivity. Qed.

(** X17.  An engine whose observer was created without a pressure
    source reads zero pressure, so it never drops a task for pressure:
    no [admit] returns the reason [pressure_exceeded], whatever the
    envelope allows. *)
Theorem without_a_pressure_source_nothing_is_dropped_for_pressure :
  forall (mr : MainRoutine) (now : Z) (task : Task) (depth : Z),
    mrAmigdala mr = createAmigdala None ->
    fst (admitTask now task mr) <> Drop pressure_exceeded depth.
Proof.
  intros mr now task depth Ham.
  destruct (admitTask_spec now task mr) as (Hd & _ & _). rewrite Hd.
  unfold verdict. rewrite Ham, noop_gate, andb_false_r.
  destruct (spawnCount _ >=? _); [discriminate|].
  destruct (retryDepth _ >=? _); [discriminate|].
  destruct (distSelect _ _ _ _ _); discriminate.
Qed.

Lemma without_a_pressure_source_witness :
  fst (admitTask 0 (taskOf "task-1" None 5 3)
         {| mrAmigdala := createAmigdala None;
            mrDistributor := distributorOf intentStrategy;
            mrRegistryCount := 3;
            mrResolver := fun _ => None;
            mrDefaultEnvelope := envelopeOf ["default"] true;
            mrOnDecision := true;
            runtimeStates := TTLMap.new TaskRuntimeState 300000 (Some 10000);
            dispatched := [];
            events := [] |})
  <> Drop pressure_exceeded 0.
Proof.
  apply without_a_pressure_source_nothing_is_dropped_for_pressure. reflexivity.
Defined.
End AmigdalaMore.

(** ** The candidate registry *)

Module RegistryMore.
Import JSMapFacts.

Lemma keys_set (E : Type) k (e : E) m x :
  In x (JSMap.keys (JSMap.set k e m)) <-> x = k \/ In x (JSMap.keys m).
Proof.
  induction m as [|[k' e'] m IH]; simpl.
  - split; [intros [H|[]]; auto | intros [H|[]]; auto].
  - destruct (String.eqb_spec k k') as [->|Hne]; simpl.
    + split; [intros [H|H]; auto | intros [H|[H|H]]; auto].
    + rewrite IH. split; [intros [H|[H|H]]; auto | intros [H|[H|H]]; auto].
Qed.

Section Fold.
Import Registry.
Implicit Types (m : JSMap.t CandidateProfile) (cs : Datatypes.list CandidateProfile).

Lemma fill_cons c cs m : fill (c :: cs) m = fill cs (JSMap.set (candidateId c) c m).
Proof. reflexivity. Qed.

Lemma fill_app cs1 cs2 m : fill (cs1 ++ cs2) m = fill cs2 (fill cs1 m).
Proof. apply fold_left_app. Qed.

Lemma fill_NoDup cs : forall m,
  NoDup (JSMap.keys m) -> NoDup (JSMap.keys (fill cs m)).
Proof.
  induction cs as [|c cs IH]; intros m Hnd; [assumption|].
  rewrite fill_cons. apply IH. now apply NoDup_set.
Qed.

Lemma fill_keys cs : forall m x,
  In x (JSMap.keys (fill cs m)) <->
  In x (JSMap.keys m) \/ In x (map candidateId cs).
Proof.
  induction cs as [|c cs IH]; intros m x; [cbn; tauto|].
  rewrite fill_cons, IH, keys_set. cbn [map In].
  split; [intros [[H|H]|H] | intros [H|[H|H]]]; auto.
Qed.

Lemma fill_get cs : forall m k c,
  JSMap.get k (fill cs m) = Some c ->
  (In c cs /\ candidateId c = k) \/ JSMap.get k m = Some c.
Proof.
  induction cs as [|c0 cs IH]; intros m k c; [auto|].
  rewrite fill_cons. intros H.
  destruct (IH _ _ _ H) as [[Hin Hid]|Hg]; [left; split; [now right | assumption]|].
  destruct (String.eqb_spec k (candidateId c0)) as [->|Hne].
  - rewrite get_set_same in Hg. injection Hg as <-. left. split; [now left | reflexivity].
  - rewrite get_set_other in Hg by assumption. auto.
Qed.

Lemma fill_get_other cs : forall m k,
  ~ In k (map candidateId cs) -> JSMap.get k (fill cs m) = JSMap.get k m.
Proof.
  induction cs as [|c0 cs IH]; intros m k Hn; [reflexivity|].
  rewrite fill_cons. cbn [map In] in Hn. rewrite IH by tauto.
  apply get_set_other. intros ->. tauto.
Qed.

Lemma fill_length cs : forall m,
  (List.length (fill cs m) <= List.length m + List.length cs)%nat.
Proof.
  induction cs as [|c0 cs IH]; intros m; [cbn; lia|].
  rewrite fill_cons. specialize (IH (JSMap.set (candidateId c0) c0 m)).
  rewrite length_set in IH. cbn [List.length].
  destruct (JSMap.has (candidateId c0) m); lia.
Qed.

Lemma fill_fresh cs : forall m,
  NoDup (JSMap.keys m ++ map candidateId cs) ->
  JSMap.keys (fill cs m) = (JSMap.keys m ++ map candidateId cs)%list.
Proof.
  induction cs as [|c0 cs IH]; intros m Hnd; [cbn; now rewrite app_nil_r|].
  rewrite fill_cons. cbn [map] in Hnd |- *.
  assert (Hnew : JSMap.has (candidateId c0) m = false).
  { destruct (JSMap.has (candidateId c0) m) eqn:Hh; [|reflexivity].
    exfalso. apply has_get in Hh. destruct Hh as [e He].
    apply get_In in He. apply NoDup_remove_2 in Hnd. apply Hnd.
    apply in_or_app. left. change (candidateId c0) with (fst (candidateId c0, e)).
    unfold JSMap.keys. now apply in_map. }
  assert (Hk : JSMap.keys (JSMap.set (candidateId c0) c0 m)
               = (JSMap.keys m ++ [candidateId c0])%list).
  { rewrite set_new by assumption. unfold JSMap.keys. now rewrite map_app. }
  rewrite IH; rewrite Hk, <- app_assoc; [reflexivity | exact Hnd].
Qed.
End Fold.

(** X18.  The registry indexes the candidates by id as a [Map] does:
    [list()] has no duplicates and holds exactly the ids of the
    candidates (it is the list of ids, in the order given, when they
    are distinct); [count()] is its length, at most the number
    of candidates given; [get(id)] is defined exactly for those ids and
    returns a candidate of that id; and of several candidates with the
    same id the last one is the one [get] returns. *)
Theorem registry_indexes_candidates_by_id :
  forall (candidates : list Registry.CandidateProfile),
    let r := Registry.createCandidateRegistry candidates in
    let ids := map Registry.candidateId candidates in
    NoDup (Registry.list r) /\
    (forall k, In k (Registry.list r) <-> In k ids) /\
    Registry.count r = Z.of_nat (List.length (Registry.list r)) /\
    Registry.count r <= Z.of_nat (List.length candidates) /\
    (forall k, (exists c, Registry.get r k = Some c) <-> In k ids) /\
    (forall k c, Registry.get r k = Some c ->
                 Registry.candidateId c = k /\ In c candidates) /\
    (forall l1 c l2,
        candidates = (l1 ++ c :: l2)%list ->
        ~ In (Registry.candidateId c) (map Registry.candidateId l2) ->
        Registry.get r (Registry.candidateId c) = Some c) /\
    (NoDup ids -> Registry.list r = ids).
Proof.
  intros candidates r ids. subst r ids.
  unfold Registry.createCandidateRegistry, Registry.mapOf.
  cbn [Registry.get Registry.list Registry.count].
  assert (Hkeys : forall k,
             In k (JSMap.keys (Registry.fill candidates [])) <->
             In k (map Registry.candidateId candidates)).
  { intros k. rewrite fill_keys. cbn. tauto. }
  split; [apply fill_NoDup; constructor|].
  split; [exact Hkeys|].
  split; [unfold JSMap.size, JSMap.keys; now rewrite length_map|].
  split.
  { unfold JSMap.size. pose proof (fill_length candidates []) as H. cbn in H. lia. }
  split.
  { intros k. rewrite <- Hkeys. split.
    - intros [c Hc]. apply get_In in Hc.
      change k with (fst (k, c)). unfold JSMap.keys. now apply in_map.
    - intros Hin.
      destruct (JSMap.get k (Registry.fill candidates [])) as [c|] eqn:Hg; [eauto|].
      apply get_None_notin in Hg. contradiction. }
  split.
  { intros k c Hc. apply fill_get in Hc. destruct Hc as [[Hin Hid]|Hc]; [auto|].
    discriminate. }
  split.
  { intros l1 c l2 -> Hn. rewrite fill_app, fill_cons.
    rewrite fill_get_other by assumption. apply get_set_same. }
  intros Hnd. apply (fill_fresh candidates []). exact Hnd.
Qed.

Lemma registry_witness :
  Registry.list
    (Registry.createCandidateRegistry
       [{| Registry.candidateId := "fast"; Registry.capabilities := [];
           Registry.candidateFactory := fun _ => create createSimpleFactory "fast" |};
        {| Registry.candidateId := "slow"; Registry.capabilities := [];
           Registry.candidateFactory := fun _ => create createSimpleFactory "slow" |}])
  = ["fast"; "slow"].
Proof.
  destruct (registry_indexes_candidates_by_id
       [{| Registry.candidateId := "fast"; Registry.capabilities := [];
           Registry.candidateFactory := fun _ => create createSimpleFactory "fast" |};
        {| Registry.candidateId := "slow"; Registry.capabilities := [];
           Registry.candidateFactory := fun _ => create createSimpleFactory "slow" |}])
    as (_ & _ & _ & _ & _ & _ & _ & H).
  apply H. cbn. repeat constructor; cbn; intuition discriminate.
Defined.
End RegistryMore.

(** ** The metrics collector *)

Module MetricsMore.
Import Metrics MoreSpec.

Lemma countIf_cons (A : Type) (f : A -> bool) x l :
  countIf f (x :: l) = (if f x then 1 else 0) + countIf f l.
Proof.
  unfold countIf. cbn [filter]. destruct (f x); cbn [List.length]; lia.
Qed.

Lemma record_counts calls : forall c,
  let c' := fold_left record calls c in
  dropCount c' = dropCount c + countIf isDropRecord calls /\
  (forall r, readReason r (dropsByReason c')
             = readReason r (dropsByReason c) + countIf (isDropOf r) calls) /\
  admissionCount c' + retryCount c' + escalationCount c' + dropCount c'
  = admissionCount c + retryCount c + escalationCount c + dropCount c
    + Z.of_nat (List.length calls) /\
  startTime c' = startTime c.
Proof.
  induction calls as [|call calls IH]; intros c.
  - cbn. unfold countIf. cbn. repeat split; intros; lia.
  - cbn [fold_left]. destruct (IH (record c call)) as (H1 & H2 & H3 & H4).
    cbn zeta. rewrite H3, H1, H4. rewrite !countIf_cons.
    split; [|split; [|split]].
    + destruct call; cbn -[countIf Z.of_nat Z.add]; lia.
    + intros r. rewrite H2, countIf_cons.
      destruct call as [| | |r0]; cbn -[countIf Z.of_nat Z.add]; try lia.
      destruct r, r0; cbn -[countIf Z.of_nat Z.add]; lia.
    + cbn [List.length]. rewrite Nat2Z.inj_succ.
      destruct call; cbn -[countIf Z.of_nat Z.add]; lia.
    + destruct call; reflexivity.
Qed.

(** X19.  After any sequence of recording calls on a fresh collector,
    [dropCount] is the number of [recordDrop] calls and equals the sum
    of the three per-reason counters, each per-reason counter is the
    number of [recordDrop] calls with that reason, the four counters
    together count every call once, and a snapshot taken in the
    millisecond of creation computes its rates over one second instead
    of dividing by zero. *)
Theorem drop_count_is_the_sum_of_the_reason_counters :
  forall (now : Z) (calls : list RecordCall),
    let c := fold_left record calls (createMetricsCollector now) in
    dropCount c = countIf isDropRecord calls /\
    dropCount c = total (dropsByReason c) /\
    (forall r, readReason r (dropsByReason c) = countIf (isDropOf r) calls) /\
    admissionCount c + retryCount c + escalationCount c + dropCount c
    = Z.of_nat (List.length calls) /\
    snapDropCount (getMetrics now c) = total (snapshotDropsByReason c (getMetrics now c)) /\
    elapsedSeconds now c = 1%float.
Proof.
  intros now calls c.
  destruct (record_counts calls (createMetricsCollector now)) as (H1 & H2 & H3 & H4).
  fold c in H1, H2, H3, H4. cbn in H1, H2, H3, H4.
  assert (Hsum : forall l, countIf isDropRecord l
                           = countIf (isDropOf spawn_budget_exhausted) l
                             + countIf (isDropOf retry_depth_exhausted) l
                             + countIf (isDropOf pressure_exceeded) l).
  { induction l as [|x l IH]; [reflexivity|]. rewrite !countIf_cons, IH.
    destruct x as [| | |[]]; cbn -[countIf Z.of_nat Z.add]; lia. }
  assert (Htot : dropCount c = total (dropsByReason c)).
  { unfold total.
    pose proof (H2 spawn_budget_exhausted) as Ha.
    pose proof (H2 retry_depth_exhausted) as Hb.
    pose proof (H2 pressure_exceeded) as Hc.
    cbn in Ha, Hb, Hc. rewrite Ha, Hb, Hc, H1. apply Hsum. }
  split; [exact H1|]. split; [exact Htot|].
  split; [intros r; rewrite H2; destruct r; reflexivity|].
  split; [exact H3|].
  split; [exact Htot|].
  unfold elapsedSeconds. rewrite H4. cbn [startTime createMetricsCollector].
  rewrite Z.sub_diag. vm_compute. reflexivity.
Qed.
End MetricsMore.

(** ** The worker gate *)

Module WorkerGateMore.
Import MainRoutineSpec MainRoutineFacts MoreSpec Demo.
Import WorkerGate.

Lemma verdict_cases mr now task rs :
  verdict mr now task rs = Dispatch \/
  exists reason depth, verdict mr now task rs = Drop reason depth.
Proof.
  unfold verdict.
  destruct (spawnCount rs >=? _); [right; eauto|].
  destruct (retryDepth rs >=? _); [right; eauto|].
  destruct (allowDrop _ && _); [right; eauto|].
  destruct (distSelect _ _ _ _ _); [now left | right; eauto].
Qed.

Lemma submit_spec now task g :
  let d := fst (admitTask now task (maestro g)) in
  let g' := snd (submit now task g) in
  fst (submit now task g) = d /\
  maestro g' = snd (admitTask now task (maestro g)) /\
  pool g' = pool g /\
  lastSnapshot g' = snapshot (pool g) now /\
  admissionCount g' = admissionCount g + (if isDispatch d then 1 else 0) /\
  dropCount g' = dropCount g + (if isDispatch d then 0 else 1) /\
  poolDispatched g' = (poolDispatched g ++ if isDispatch d then [task] else [])%list.
Proof.
  unfold submit.
  destruct (admitTask_spec now task (maestro g)) as (Hd & _ & _).
  destruct (verdict_cases (maestro g) now task
              (fst (getOrCreateRuntimeState now (id task)
                      (runtimeStates (maestro g))))) as [Hv|(reason & depth & Hv)];
    rewrite Hv in Hd;
    destruct (admitTask now task (maestro g)) as [d mr1];
    cbn [fst snd] in Hd |- *; subst d; cbn;
    repeat split; try lia; now rewrite ?app_nil_r.
Qed.

Lemma submitAll_cons now task rest g :
  submitAll ((now, task) :: rest) g =
  (fst (submit now task g) :: fst (submitAll rest (snd (submit now task g))),
   snd (submitAll rest (snd (submit now task g)))).
Proof.
  cbn [submitAll]. destruct (submit now task g) as [d g1].
  cbn [fst snd]. now destruct (submitAll rest g1).
Qed.

(** X20.  Over any run of submissions the gate returns the decisions of
    the engine behind it and counts each submission exactly once, as an
    admission when the decision is a dispatch and as a drop otherwise;
    the pool receives exactly the dispatched tasks, in order, and the
    engine's own sub-routine is called once for each of them as well;
    [metrics().lastPressure] is the pool snapshot read by the last
    submission. *)
Theorem gate_counts_each_submission_and_forwards_dispatches :
  forall (calls : list (Z * Task)) (g : WorkerGate),
    let decisions := fst (submitAll calls g) in
    let g' := snd (submitAll calls g) in
    decisions = engineDecisions (admitCalls calls) (maestro g) /\
    maestro g' = runEngine (admitCalls calls) (maestro g) /\
    List.length decisions = List.length calls /\
    admissionCount g' = admissionCount g + countIf isDispatch decisions /\
    admissionCount g' + dropCount g'
    = admissionCount g + dropCount g + Z.of_nat (List.length calls) /\
    poolDispatched g' = (poolDispatched g ++ dispatchedTasks calls decisions)%list /\
    List.length (dispatched (maestro g'))
    = (List.length (dispatched (maestro g))
       + List.length (dispatchedTasks calls decisions))%nat /\
    (forall init now task,
        calls = (init ++ [(now, task)])%list ->
        lastPressure (metrics g') = snapshot (pool g) now).
Proof.
  induction calls as [|[now task] rest IH]; intros g decisions g'.
  - subst decisions g'. cbn. unfold countIf. cbn.
    repeat split; try lia; try (now rewrite app_nil_r).
    intros init now task H. now destruct init.
  - subst decisions g'. rewrite submitAll_cons. cbn [fst snd].
    destruct (submit_spec now task g) as (S1 & S2 & S3 & S4 & S5 & S6 & S7).
    cbn zeta in S1, S2, S3, S4, S5, S6, S7.
    specialize (IH (snd (submit now task g))). cbn zeta in IH.
    destruct IH as (I1 & I2 & I3 & I4 & I5 & I6 & I7 & I8).
    set (g1 := snd (submit now task g)) in *.
    set (ds := fst (submitAll rest g1)) in *.
    set (g2 := snd (submitAll rest g1)) in *.
    rewrite S1.
    set (d := fst (admitTask now task (maestro g))) in *.
    split; [|split; [|split; [|split; [|split; [|split; [|split]]]]]].
    + cbn. fold d. f_equal. rewrite I1, S2. reflexivity.
    + cbn. rewrite I2, S2. reflexivity.
    + cbn [List.length]. now rewrite I3.
    + rewrite I4, S5. unfold countIf. cbn [filter].
      destruct (isDispatch d); cbn [List.length]; lia.
    + rewrite I5, S5, S6. cbn [List.length]. destruct (isDispatch d); lia.
    + rewrite I6, S7. cbn [dispatchedTasks].
      destruct (isDispatch d); cbn; now rewrite <- ?app_assoc, ?app_nil_r.
    + rewrite I7, S2. cbn [dispatchedTasks].
      pose proof (EngineMore.engineStep_dispatched (DoAdmit now task) (maestro g)) as He.
      cbn [engineStep] in He. rewrite He. fold d.
      destruct (isDispatch d); cbn [List.length]; lia.
    + intros init now' task' Hc. destruct init as [|c0 init].
      * cbn in Hc. injection Hc as -> -> Hrest. subst rest.
        cbn in g2. subst g2. unfold metrics. cbn [lastPressure].
        rewrite S4. now destruct (snapshot (pool g) now').
      * cbn in Hc. injection Hc as _ Hrest.
        rewrite (I8 init now' task' Hrest). now rewrite S3.
Qed.

Lemma gate_witness :
  lastPressure
    (metrics
       (snd (submitAll [(5, taskOf "task-1" None 5 3)]
               (createWorkerGate 0
                  {| snapshot := fun now =>
                       {| utilization := 0.5; queueDepth := Metrics.ofZ now |} |}
                  (engineOf ["default"] true 0 None)))))
  = {| utilization := 0.5; queueDepth := Metrics.ofZ 5 |}.
Proof.
  destruct (gate_counts_each_submission_and_forwards_dispatches
              [(5, taskOf "task-1" None 5 3)]
              (createWorkerGate 0
                 {| snapshot := fun now =>
                      {| utilization := 0.5; queueDepth := Metrics.ofZ now |} |}
                 (engineOf ["default"] true 0 None)))
    as (_ & _ & _ & _ & _ & _ & _ & H).
  apply (H [] 5 (taskOf "task-1" None 5 3)). reflexivity.
Defined.
End WorkerGateMore.

(** ** Performance penalties *)

Module PenaltyMore.
Import JSMapFacts MoreSpec.
Import PenaltyTracker.

Lemma fresh_record_within now p :
  withinWindow now {| penalty := p; recordedAt := now |} = true.
Proof. unfold withinWindow. cbn. apply Z.gtb_lt. lia. Qed.

Lemma recordsOf_penalize now sid p penalties :
  recordsOf sid (penalize now sid p penalties)
  = (filter (withinWindow now) (recordsOf sid penalties)
     ++ [{| penalty := p; recordedAt := now |}])%list.
Proof.
  unfold penalize. unfold recordsOf at 1.
  rewrite get_set_same, filter_app. cbn [filter].
  change (recordedAt {| penalty := p; recordedAt := now |} >? now - 30 * 60 * 1000)
    with (withinWindow now {| penalty := p; recordedAt := now |}).
  rewrite fresh_record_within. reflexivity.
Qed.

(** X21.  [penalize] appends the new record to the records of that
    sub-routine and keeps, of the earlier ones, those recorded less
    than 30 minutes before; so every record held for that sub-routine
    afterwards is younger than 30 minutes.  The records of every other
    sub-routine are left as they were, however old. *)
Theorem penalize_keeps_the_last_thirty_minutes :
  forall (now : Z) (subRoutineId0 : string) (p : float) (penalties : t),
    let penalties' := penalize now subRoutineId0 p penalties in
    recordsOf subRoutineId0 penalties'
    = (filter (withinWindow now) (recordsOf subRoutineId0 penalties)
       ++ [{| penalty := p; recordedAt := now |}])%list /\
    (forall r, In r (recordsOf subRoutineId0 penalties') ->
               now - 1800000 < recordedAt r) /\
    (forall other, other <> subRoutineId0 ->
                   recordsOf other penalties' = recordsOf other penalties).
Proof.
  intros now sid p penalties penalties'.
  assert (Hsame : recordsOf sid penalties'
                  = (filter (withinWindow now) (recordsOf sid penalties)
                     ++ [{| penalty := p; recordedAt := now |}])%list)
    by apply recordsOf_penalize.
  split; [exact Hsame|]. split.
  - intros r. rewrite Hsame, in_app_iff, filter_In.
    intros [[_ Hw]|[<-|[]]].
    + unfold withinWindow in Hw. apply Z.gtb_lt in Hw. lia.
    + cbn. lia.
  - intros other Hne. subst penalties'. unfold penalize, recordsOf.
    now rewrite !get_set_other by assumption.
Qed.

Lemma penalize_witness :
  recordsOf "slow"
    (penalize 2000000 "fast" 1%float (penalize 0 "slow" 3%float createPenaltyTracker))
  = recordsOf "slow" (penalize 0 "slow" 3%float createPenaltyTracker).
Proof.
  destruct (penalize_keeps_the_last_thirty_minutes
              2000000 "fast" 1%float (penalize 0 "slow" 3%float createPenaltyTracker))
    as (_ & _ & H).
  apply H. discriminate.
Defined.

Lemma lex_pos_Lt e1 m1 e2 m2 :
  match Z.compare e1 e2 with
  | Lt => Lt | Gt => Gt | Eq => Pos.compare_cont Eq m1 m2
  end = Lt <-> e1 < e2 \/ (e1 = e2 /\ (m1 < m2)%positive).
Proof.
  change (Pos.compare_cont Eq m1 m2) with (Pos.compare m1 m2).
  destruct (Z.compare_spec e1 e2); destruct (Pos.compare_spec m1 m2);
    split; intros H'; try discriminate; try reflexivity; try lia.
Qed.

Lemma lex_pos_Eq e1 m1 e2 m2 :
  match Z.compare e1 e2 with
  | Lt => Lt | Gt => Gt | Eq => Pos.compare_cont Eq m1 m2
  end = Eq <-> e1 = e2 /\ m1 = m2.
Proof.
  change (Pos.compare_cont Eq m1 m2) with (Pos.compare m1 m2).
  destruct (Z.compare_spec e1 e2); destruct (Pos.compare_spec m1 m2);
    split; intros H'; try discriminate; try reflexivity; try lia.
Qed.

Lemma lex_pos_Gt e1 m1 e2 m2 :
  match Z.compare e1 e2 with
  | Lt => Lt | Gt => Gt | Eq => Pos.compare_cont Eq m1 m2
  end = Gt <-> e2 < e1 \/ (e1 = e2 /\ (m2 < m1)%positive).
Proof.
  change (Pos.compare_cont Eq m1 m2) with (Pos.compare m1 m2).
  destruct (Z.compare_spec e1 e2); destruct (Pos.compare_spec m1 m2);
    split; intros H'; try discriminate; try reflexivity; try lia.
Qed.

Lemma lex_neg_Lt e1 m1 e2 m2 :
  match Z.compare e1 e2 with
  | Lt => Gt | Gt => Lt | Eq => CompOpp (Pos.compare_cont Eq m1 m2)
  end = Lt <-> e2 < e1 \/ (e1 = e2 /\ (m2 < m1)%positive).
Proof.
  change (Pos.compare_cont Eq m1 m2) with (Pos.compare m1 m2).
  destruct (Z.compare_spec e1 e2); destruct (Pos.compare_spec m1 m2);
    cbn; split; intros H'; try discriminate; try reflexivity; try lia.
Qed.

Lemma lex_neg_Eq e1 m1 e2 m2 :
  match Z.compare e1 e2 with
  | Lt => Gt | Gt => Lt | Eq => CompOpp (Pos.compare_cont Eq m1 m2)
  end = Eq <-> e1 = e2 /\ m1 = m2.
Proof.
  change (Pos.compare_cont Eq m1 m2) with (Pos.compare m1 m2).
  destruct (Z.compare_spec e1 e2); destruct (Pos.compare_spec m1 m2);
    cbn; split; intros H'; try discriminate; try reflexivity; try lia.
Qed.

Lemma lex_neg_Gt e1 m1 e2 m2 :
  match Z.compare e1 e2 with
  | Lt => Gt | Gt => Lt | Eq => CompOpp (Pos.compare_cont Eq m1 m2)
  end = Gt <-> e1 < e2 \/ (e1 = e2 /\ (m1 < m2)%positive).
Proof.
  change (Pos.compare_cont Eq m1 m2) with (Pos.compare m1 m2).
  destruct (Z.compare_spec e1 e2); destruct (Pos.compare_spec m1 m2);
    cbn; split; intros H'; try discriminate; try reflexivity; try lia.
Qed.

Ltac sf_case :=
  cbn [SFcompare]; intros H1 H2;
  try discriminate; try reflexivity;
  try (injection H1 as H1); try (injection H2 as H2);
  try discriminate; try reflexivity;
  try (f_equal;
       rewrite ?lex_pos_Lt, ?lex_pos_Eq, ?lex_pos_Gt,
               ?lex_neg_Lt, ?lex_neg_Eq, ?lex_neg_Gt in *; lia).

Lemma SFcompare_Lt_trans a b c :
  SFcompare a b = Some Lt -> SFcompare b c = Some Lt -> SFcompare a c = Some Lt.
Proof.
  destruct a as [[]|[]| |[] m1 e1], b as [[]|[]| |[] m2 e2], c as [[]|[]| |[] m3 e3];
    sf_case.
Qed.

Lemma SFcompare_Eq_Lt a b c :
  SFcompare a b = Some Eq -> SFcompare b c = Some Lt -> SFcompare a c = Some Lt.
Proof.
  destruct a as [[]|[]| |[] m1 e1], b as [[]|[]| |[] m2 e2], c as [[]|[]| |[] m3 e3];
    sf_case.
Qed.

Lemma SFcompare_Lt_Gt a b :
  SFcompare a b = Some Lt -> SFcompare b a = Some Gt.
Proof.
  destruct a as [[]|[]| |[] m1 e1], b as [[]|[]| |[] m2 e2];
    cbn [SFcompare]; intros H1; try discriminate; try reflexivity;
    injection H1 as H1; f_equal;
    rewrite ?lex_pos_Lt, ?lex_pos_Eq, ?lex_pos_Gt,
            ?lex_neg_Lt, ?lex_neg_Eq, ?lex_neg_Gt in *; lia.
Qed.

Lemma ltb_trans (x y z : float) :
  (x <? y)%float = true -> (y <? z)%float = true -> (x <? z)%float = true.
Proof.
  rewrite !ltb_spec. unfold SFltb.
  destruct (SFcompare (Prim2SF x) (Prim2SF y)) as [[]|] eqn:H1; try discriminate.
  destruct (SFcompare (Prim2SF y) (Prim2SF z)) as [[]|] eqn:H2; try discriminate.
  now rewrite (@SFcompare_Lt_trans _ _ _ H1 H2).
Qed.

Lemma leb_ltb_trans (x y z : float) :
  (x <=? y)%float = true -> (y <? z)%float = true -> (x <? z)%float = true.
Proof.
  rewrite leb_spec, !ltb_spec. unfold SFleb, SFltb.
  destruct (SFcompare (Prim2SF x) (Prim2SF y)) as [[]|] eqn:H1; try discriminate;
  destruct (SFcompare (Prim2SF y) (Prim2SF z)) as [[]|] eqn:H2; try discriminate; intros _ _.
  - now rewrite (@SFcompare_Eq_Lt _ _ _ H1 H2).
  - now rewrite (@SFcompare_Lt_trans _ _ _ H1 H2).
Qed.

Lemma ltb_not_leb (x y : float) :
  (x <? y)%float = true -> (y <=? x)%float = false.
Proof.
  rewrite leb_spec, ltb_spec. unfold SFleb, SFltb.
  destruct (SFcompare (Prim2SF x) (Prim2SF y)) as [[]|] eqn:H1; try discriminate.
  now rewrite (@SFcompare_Lt_Gt _ _ H1).
Qed.

Section Scan.
Variable score : string -> float.

(** The loop from a leader [(b, l)] either keeps it, no id of the list
    scoring below [l], or ends on an id of the list. *)
Lemma scanLowest_spec ids : forall b l,
  (scanLowest score ids b l = (b, l) /\
   forall x, In x ids -> (score x <? l)%float = false) \/
  (exists l1 best l2,
      ids = (l1 ++ best :: l2)%list /\
      scanLowest score ids b l = (Some best, score best) /\
      (score best <? l)%float = true /\
      (forall x, In x l1 -> (score x <=? score best)%float = false) /\
      (forall x, In x l2 -> (score x <? score best)%float = false)).
Proof.
  induction ids as [|id0 rest IH]; intros b l.
  - left. split; [reflexivity | intros x []].
  - cbn [scanLowest]. destruct (score id0 <? l)%float eqn:Hlt.
    + right.
      destruct (IH (Some id0) (score id0))
        as [[Hscan Hall]|(l1 & best & l2 & -> & Hscan & Hb & H1 & H2)].
      * exists [], id0, rest. repeat split; try assumption. intros x [].
      * exists (id0 :: l1), best, l2. repeat split; try assumption.
        -- exact (@ltb_trans _ _ _ Hb Hlt).
        -- intros x [<-|Hin]; [now apply (@ltb_not_leb _ _ Hb) | auto].
    + destruct (IH b l)
        as [[Hscan Hall]|(l1 & best & l2 & -> & Hscan & Hb & H1 & H2)].
      * left. split; [assumption|]. intros x [<-|Hin]; [assumption | auto].
      * right. exists (id0 :: l1), best, l2. repeat split; try assumption.
        intros x [<-|Hin]; [|auto].
        destruct (score id0 <=? score best)%float eqn:Hle; [|reflexivity].
        rewrite (@leb_ltb_trans _ _ _ Hle Hb) in Hlt. discriminate.
Qed.
End Scan.

(** X23.  The performance-penalty strategy cannot be built over an
    empty list of sub-routines.  On doubles, with [score] standing for
    [tracker.getEffectivePenalty]: a task whose budgets are exhausted
    gets [null].  Otherwise the id handed to [factory.create] scores
    below [Infinity] and not above the threshold, no configured id
    scores strictly below it, and every id configured before it scores
    neither below it nor equal to it (the first of the lowest wins);
    [null] is returned only when the threshold is below the lowest
    score; and when no id scores below [Infinity] (all scores are
    [Infinity] or [NaN]) and no threshold is configured, [select] does
    not decline but hands [undefined] to [factory.create]. *)
Theorem penalty_strategy_selects_the_first_of_the_lowest :
  (forall config,
      subRoutineIds config = [] ->
      exists message, createPerformancePenaltyStrategy config = Thrown message) /\
  (forall config strategy score context,
      createPerformancePenaltyStrategy config = Returned strategy ->
      let threshold :=
        match penaltyThreshold config with Some th => th | None => infinity end in
      let isEligible :=
        eligible (checkEligibility (ctxTask context) (ctxRuntimeState context)) in
      let result := penaltySelect strategy score context in
      (isEligible = false -> result = SelectNull) /\
      (forall best,
          result = SelectCreate (Some best) ->
          isEligible = true /\
          (score best <? infinity)%float = true /\
          (threshold <? score best)%float = false /\
          exists l1 l2,
            subRoutineIds config = (l1 ++ best :: l2)%list /\
            (forall x, In x l1 -> (score x <=? score best)%float = false) /\
            (forall x, In x l2 -> (score x <? score best)%float = false)) /\
      (result = SelectCreate None ->
       isEligible = true /\
       (threshold <? infinity)%float = false /\
       forall x, In x (subRoutineIds config) -> (score x <? infinity)%float = false) /\
      (isEligible = true ->
       result = SelectNull ->
       ((threshold <? infinity)%float = true /\
        forall x, In x (subRoutineIds config) -> (score x <? infinity)%float = false) \/
       (exists best,
           In best (subRoutineIds config) /\
           (threshold <? score best)%float = true /\
           forall x, In x (subRoutineIds config) ->
                     (score x <? score best)%float = false)) /\
      (isEligible = true ->
       penaltyThreshold config = None ->
       (forall x, In x (subRoutineIds config) -> (score x <? infinity)%float = false) ->
       result = SelectCreate None)).
Proof.
  split.
  - intros config Hempty. unfold createPerformancePenaltyStrategy.
    rewrite Hempty. eauto.
  - intros config strategy score context Hmake threshold isEligible result.
    unfold createPerformancePenaltyStrategy in Hmake.
    destruct (subRoutineIds config) as [|id0 rest] eqn:Hids; [discriminate|].
    injection Hmake as <-. subst result. cbn [penaltySelect]. unfold selectLowest.
    fold threshold. fold isEligible. rewrite Hids.
    destruct (scanLowest_spec score (id0 :: rest) None infinity)
      as [[Hscan Hall]|(l1 & best & l2 & Hsplit & Hscan & Hb & H1 & H2)];
      rewrite Hscan.
    + (* no id scores below Infinity *)
      destruct isEligible; cbn [negb].
      * destruct (threshold <? infinity)%float eqn:Hth.
        -- split; [discriminate|]. split; [discriminate|]. split; [discriminate|].
           split; [intros _ _; left; split; [reflexivity | exact Hall]|].
           intros _ Hnone _. subst threshold. rewrite Hnone in Hth.
           vm_compute in Hth. discriminate.
        -- split; [discriminate|]. split; [discriminate|].
           split; [intros _; repeat split; assumption|].
           split; [discriminate | reflexivity].
      * split; [reflexivity|]. split; [discriminate|]. split; [discriminate|].
        split; discriminate.
    + (* [best] is the last leader *)
      assert (Hmin : forall x, In x (id0 :: rest) ->
                               (score x <? score best)%float = false).
      { intros x Hin. rewrite Hsplit in Hin. apply in_app_or in Hin.
        destruct Hin as [Hin|[<-|Hin]]; [| |auto].
        - destruct (score x <? score best)%float eqn:Hx; [|reflexivity].
          pose proof (H1 x Hin) as Hle.
          rewrite leb_spec in Hle. rewrite ltb_spec in Hx.
          unfold SFleb in Hle. unfold SFltb in Hx.
          destruct (SFcompare (Prim2SF (score x)) (Prim2SF (score best)))
            as [[]|]; discriminate.
        - destruct (score best <? score best)%float eqn:Hx; [|reflexivity].
          pose proof (@ltb_not_leb _ _ Hx) as Hle.
          rewrite leb_spec in Hle. rewrite ltb_spec in Hx.
          unfold SFleb in Hle. unfold SFltb in Hx.
          destruct (SFcompare (Prim2SF (score best)) (Prim2SF (score best)))
            as [[]|]; discriminate. }
      assert (Hbest : In best (id0 :: rest))
        by (rewrite Hsplit; apply in_or_app; right; now left).
      destruct isEligible; cbn [negb].
      * destruct (threshold <? score best)%float eqn:Hth.
        -- split; [discriminate|]. split; [discriminate|]. split; [discriminate|].
           split; [intros _ _; right; exists best; repeat split; assumption|].
           intros _ _ Hinf. rewrite (Hinf best Hbest) in Hb. discriminate.
        -- split; [discriminate|]. split.
           ++ intros best' [= <-]. repeat split; try assumption.
              exists l1, l2. repeat split; assumption.
           ++ split; [discriminate|]. split; [discriminate|].
              intros _ _ Hinf. rewrite (Hinf best Hbest) in Hb. discriminate.
      * split; [reflexivity|]. split; [discriminate|]. split; [discriminate|].
        split; discriminate.
Qed.

Lemma penalty_strategy_witness :
  match createPerformancePenaltyStrategy
          {| subRoutineIds := ["b"; "a"]; penaltyThreshold := None |} with
  | Returned strategy =>
      (0 <? infinity)%float = true /\
      (infinity <? 0)%float = false /\
      exists l1 l2,
        ["b"; "a"] = (l1 ++ "b" :: l2)%list /\
        (forall x, In x l1 -> (0 <=? 0)%float = false) /\
        (forall x, In x l2 -> (0 <? 0)%float = false)
  | Thrown _ => False
  end.
Proof.
  cbv beta iota delta [createPerformancePenaltyStrategy subRoutineIds].
  destruct penalty_strategy_selects_the_first_of_the_lowest as (_ & H).
  destruct (H {| subRoutineIds := ["b"; "a"]; penaltyThreshold := None |}
              _ (fun _ => 0%float)
              (contextOf (Demo.taskOf "task-1" None 5 3)
                         {| spawnCount := 0; retryDepth := 0; lastAttemptAt := 0 |})
              eq_refl) as (_ & Hsel & _).
  destruct (Hsel "b" eq_refl) as (_ & Ha & Hb & Hc).
  split; [exact Ha|]. split; [exact Hb | exact Hc].
Defined.
End PenaltyMore.

(** ** Removal from the TTL map *)

Module TTLMapRemoval.
Import TTLMap TTLMapSpec JSMapFacts.
Section Removal.
Variable V : Type.
Implicit Types (m : TTLMap.t V).

(** X24.  [delete] answers whether the key was stored (expired or not)
    and afterwards the key is absent: [get] and [has] answer
    [undefined] and [false], a second [delete] answers [false], and
    [size] went down by one exactly when the answer was [true].
    [clear] empties the map, keeping its default TTL and capacity, so
    that the next [set] stores the first entry. *)
Theorem delete_and_clear_remove_entries :
  forall (now : Z) (key : string) m,
    wf m ->
    let m' := snd (delete key m) in
    fst (delete key m) = JSMap.has key (store m) /\
    fst (get now key m') = None /\
    fst (has now key m') = false /\
    fst (delete key m') = false /\
    size m' = size m - (if fst (delete key m) then 1 else 0) /\
    size (clear m) = 0 /\
    (forall key', fst (get now key' (clear m)) = None) /\
    defaultTTL (clear m) = defaultTTL m /\
    maxSize (clear m) = maxSize m /\
    (forall v ttl,
        store (set now key v ttl (clear m)) = [(key, written m now v ttl)]).
Proof.
  intros now key m Hwf m'.
  assert (Hgone : JSMap.get key (store m') = None)
    by (subst m'; cbn; now apply get_delete_same).
  assert (Hget : fst (get now key m') = None)
    by (unfold get; now rewrite Hgone).
  split; [reflexivity|]. split; [exact Hget|]. split.
  { unfold has. destruct (get now key m') as [[x|] m2]; [discriminate | reflexivity]. }
  split.
  { cbn [delete fst]. now apply has_false_get. }
  split.
  { subst m'. cbn [delete fst snd]. unfold size, JSMap.size. cbn [store with_store].
    rewrite length_delete. destruct (JSMap.has key (store m)) eqn:Hh; [|lia].
    apply has_get in Hh. destruct Hh as [e He]. apply get_In in He.
    destruct (store m); [contradiction | cbn [List.length pred]; lia]. }
  split; [reflexivity|].
  split; [intros key'; reflexivity|].
  split; [reflexivity|]. split; [reflexivity|].
  intros v ttl. unfold set, mustEvict, evictOldest, oldestKey, clear.
  cbn [store with_store scanOldest JSMap.has JSMap.get negb andb].
  destruct (JSMap.size [] >=? _); reflexivity.
Qed.

End Removal.

Lemma delete_and_clear_witness :
  fst (get 5 "task-1"
         (snd (delete "task-1" (set 0 "task-1" 7 None (new Z 1000 None)))))
  = None.
Proof.
  destruct (@delete_and_clear_remove_entries Z 5 "task-1"
              (set 0 "task-1" 7 None (new Z 1000 None))) as (_ & H & _).
  - unfold wf. cbn. repeat constructor. intros [].
  - exact H.
Defined.
End TTLMapRemoval.

(** ** Envelopes and the engine *)

Module EnvelopeMore.
Import MainRoutineSpec MainRoutineFacts MoreSpec Demo.

Lemma getRuntimeState_sameConfig now tid mr :
  sameConfig mr (snd (getRuntimeState now tid mr)).
Proof.
  unfold getRuntimeState. destruct (TTLMap.get now tid (runtimeStates mr)).
  repeat split.
Qed.

Lemma engineStep_sameConfig c mr : sameConfig mr (engineStep c mr).
Proof.
  destruct c as [now task|now tid|now tid]; cbn [engineStep].
  - now destruct (admitTask_spec now task mr) as (_ & _ & H).
  - apply signalRetry_sameConfig.
  - apply getRuntimeState_sameConfig.
Qed.

Lemma resolveEnvelope_sameConfig a b task :
  sameConfig a b -> resolveEnvelope b task = resolveEnvelope a task.
Proof.
  intros (_ & _ & _ & Hr & He & _). unfold resolveEnvelope. now rewrite Hr, He.
Qed.

Lemma excluded_run cfg calls : forall mr,
  mrDistributor mr = createCircuitDistributor cfg ->
  (forall task, eligibleCandidates (resolveEnvelope mr task) = []) ->
  dispatched mr = [] ->
  dispatched (runEngine calls mr) = [] /\
  Forall (fun d => d <> Dispatch) (engineDecisions calls mr).
Proof.
  induction calls as [|c calls IH]; intros mr Hdist Hempty Hnone.
  - split; [exact Hnone | constructor].
  - pose proof (engineStep_sameConfig c mr) as Hcfg.
    assert (Hstep : dispatched (engineStep c mr) = []).
    { destruct c as [now task|now tid|now tid]; cbn [engineStep].
      - destruct (@StrategyMore.admitTask_without_candidates mr cfg now task Hdist (Hempty task))
          as [_ H]. now rewrite H.
      - pose proof (EngineMore.engineStep_dispatched (DoSignalRetry now tid) mr) as H.
        cbn [engineStep] in H. rewrite Hnone in H.
        destruct (dispatched (signalRetry now tid mr)); [reflexivity | discriminate].
      - pose proof (EngineMore.engineStep_dispatched (DoGetRuntimeState now tid) mr) as H.
        cbn [engineStep] in H. rewrite Hnone in H.
        destruct (dispatched (snd (getRuntimeState now tid mr)));
          [reflexivity | discriminate]. }
    assert (Hdist' : mrDistributor (engineStep c mr) = createCircuitDistributor cfg)
      by (destruct Hcfg as (_ & H & _); now rewrite H).
    assert (Hempty' : forall task,
               eligibleCandidates (resolveEnvelope (engineStep c mr) task) = [])
      by (intros task; rewrite (@resolveEnvelope_sameConfig _ _ task Hcfg); apply Hempty).
    destruct (IH _ Hdist' Hempty' Hstep) as [IH1 IH2].
    split; [exact IH1|].
    destruct c as [now task|now tid|now tid]; cbn [engineDecisions]; [|exact IH2..].
    constructor; [|exact IH2].
    now destruct (@StrategyMore.admitTask_without_candidates mr cfg now task Hdist (Hempty task)).
Qed.

(** X25.  Envelopes built by [createDecisionEnvelope] or
    [createPermissiveEnvelope] are frozen, so [createMainRoutine]
    accepts them as default envelope.  A permissive envelope allows
    everything but lists only the candidates it is given: an engine
    whose default envelope is permissive with no candidates, whose
    resolver resolves nothing and whose distributor comes from
    [createCircuitDistributor] never dispatches, over any run of calls. *)
Theorem permissive_envelope_without_candidates_excludes_every_task :
  forall (config : MainRoutineConfig) (envelopeId : string),
    (forall candidates,
        defaultEnvelope config = Some (createPermissiveEnvelope envelopeId candidates) ->
        exists mr,
          createMainRoutine config = Returned mr /\
          mrDefaultEnvelope mr = createPermissiveEnvelope envelopeId candidates /\
          eligibleCandidates (mrDefaultEnvelope mr) = candidates /\
          allowDrop (mrDefaultEnvelope mr) = true) /\
    (forall mr cfg calls,
        createMainRoutine config = Returned mr ->
        defaultEnvelope config = Some (createPermissiveEnvelope envelopeId []) ->
        (forall i, envelopeResolver config i = None) ->
        distributor config = createCircuitDistributor cfg ->
        dispatched (runEngine calls mr) = [] /\
        Forall (fun d => d <> Dispatch) (engineDecisions calls mr)).
Proof.
  intros config envelopeId. split.
  - intros candidates Henv. unfold createMainRoutine. rewrite Henv. cbn.
    eexists. split; [reflexivity|]. cbn. repeat split.
  - intros mr cfg calls Hmr Henv Hres Hdist.
    unfold createMainRoutine in Hmr. rewrite Henv in Hmr. cbn in Hmr.
    injection Hmr as <-.
    apply (@excluded_run cfg calls); [exact Hdist | | reflexivity].
    intros task. unfold resolveEnvelope. cbn [mrResolver mrDefaultEnvelope].
    now rewrite Hres.
Qed.

Lemma permissive_envelope_witness :
  exists mr,
    createMainRoutine
      {| amigdala := createAmigdala None;
         distributor := distributorOf intentStrategy;
         registryCount := 3;
         envelopeResolver := fun _ => None;
         defaultEnvelope := Some (createPermissiveEnvelope "allow-all" ["default"]);
         stateTTL := None;
         maxTrackedTasks := None;
         onDecision := false |} = Returned mr /\
    mrDefaultEnvelope mr = createPermissiveEnvelope "allow-all" ["default"] /\
    eligibleCandidates (mrDefaultEnvelope mr) = ["default"] /\
    allowDrop (mrDefaultEnvelope mr) = true.
Proof.
  destruct (permissive_envelope_without_candidates_excludes_every_task
      {| amigdala := createAmigdala None;
         distributor := distributorOf intentStrategy;
         registryCount := 3;
         envelopeResolver := fun _ => None;
         defaultEnvelope := Some (createPermissiveEnvelope "allow-all" ["default"]);
         stateTTL := None;
         maxTrackedTasks := None;
         onDecision := false |} "allow-all") as (H & _).
  apply H. reflexivity.
Defined.
End EnvelopeMore.

(** ** The standard strategy stack *)

Module StackMore.
Import MoreSpec Demo.

(** X26.  The standard stack asks intent, priority, penalty and random
    in that order and returns the first selection.  A first strategy
    that declines only exhausted budgets therefore decides alone for
    every eligible task: with the stock intent-based strategy in first
    place, the priority, penalty and random strategies never influence
    the selection of a task whose budgets remain. *)
Theorem standard_stack_is_decided_by_intent_for_eligible_tasks :
  forall (stack : StandardStrategies) (s : SpawnStrategy),
    createStandardStrategyStack stack = Returned s ->
    (forall context,
        select s context =
        match select (stackIntent stack) context with
        | Some g => Some g
        | None =>
            match select (stackPriority stack) context with
            | Some g => Some g
            | None =>
                match select (stackPenalty stack) context with
                | Some g => Some g
                | None => select (stackRandom stack) context
                end
            end
        end) /\
    (declinesOnlyExhausted (stackIntent stack) ->
     forall context,
       eligible (checkEligibility (ctxTask context) (ctxRuntimeState context)) = true ->
       select s context = select (stackIntent stack) context) /\
    (forall cfg context,
        stackIntent stack = createIntentBasedStrategy cfg ->
        eligible (checkEligibility (ctxTask context) (ctxRuntimeState context)) = true ->
        select s context = select (createIntentBasedStrategy cfg) context).
Proof.
  intros stack s [= <-].
  assert (Hord : forall context,
             firstSelected
               [stackIntent stack; stackPriority stack;
                stackPenalty stack; stackRandom stack] context =
             match select (stackIntent stack) context with
             | Some g => Some g
             | None =>
                 match select (stackPriority stack) context with
                 | Some g => Some g
                 | None =>
                     match select (stackPenalty stack) context with
                     | Some g => Some g
                     | None => select (stackRandom stack) context
                     end
                 end
             end).
  { intros context. cbn [firstSelected].
    destruct (select (stackIntent stack) context); [reflexivity|].
    destruct (select (stackPriority stack) context); [reflexivity|].
    destruct (select (stackPenalty stack) context); [reflexivity|].
    now destruct (select (stackRandom stack) context). }
  assert (Hfirst : declinesOnlyExhausted (stackIntent stack) ->
                   forall context,
                     eligible (checkEligibility (ctxTask context)
                                                (ctxRuntimeState context)) = true ->
                     firstSelected
                       [stackIntent stack; stackPriority stack;
                        stackPenalty stack; stackRandom stack] context
                     = select (stackIntent stack) context).
  { intros Hdecl context Hel. rewrite Hord.
    destruct (select (stackIntent stack) context) eqn:Hs; [reflexivity|].
    apply Hdecl in Hs. congruence. }
  cbn [select]. split; [exact Hord|]. split; [exact Hfirst|].
  intros cfg context Hint Hel. rewrite <- Hint. apply Hfirst; [|exact Hel].
  rewrite Hint. apply StrategyMore.intent_declines.
Qed.

Lemma standard_stack_witness :
  match createStandardStrategyStack
          {| stackIntent := intentStrategy;
             stackPriority :=
               createPriorityBasedStrategy {| thresholds := []; fallbackId := None |};
             stackPenalty := intentStrategy;
             stackRandom := intentStrategy |} with
  | Returned s =>
      select s (contextOf (taskOf "task-1" None 5 3)
                          {| spawnCount := 0; retryDepth := 0; lastAttemptAt := 0 |})
      = select intentStrategy
               (contextOf (taskOf "task-1" None 5 3)
                          {| spawnCount := 0; retryDepth := 0; lastAttemptAt := 0 |})
  | Thrown _ => False
  end.
Proof.
  cbv beta iota delta [createStandardStrategyStack composeStrategies].
  destruct (@standard_stack_is_decided_by_intent_for_eligible_tasks
              {| stackIntent := intentStrategy;
                 stackPriority :=
                   createPriorityBasedStrategy {| thresholds := []; fallbackId := None |};
                 stackPenalty := intentStrategy;
                 stackRandom := intentStrategy |} _ eq_refl) as (_ & _ & H).
  apply (H (Some {| intentMap := Some [("fast", "fast"); ("slow", "slow")];
                    defaultSubRoutineId := Some "default" |}));
    reflexivity.
Defined.
End StackMore.
